(** * opensearch-index-manager: backup pipeline, cleanup and scheduler

    A shallow embedding of the Go sources
      - internal/backup/backup.go   (Service.Backup, downloadPeriod,
                                     mergeFiles, compressFile, cleanup)
      - internal/storage            (S3Client.Upload)
      - internal/cleanup/cleanup.go (Service.Cleanup)
      - cmd/manager                 (job registration and the TryLock guard)
      - internal/config             (LoadConfig, getEnv)

    Go [int] and [time.Duration] values are integers in [Z]; files are a
    finite map from path to bytes; calls to the search index and to the
    object store are answered by an environment record and recorded in a
    trace of events, so that "how many requests, in which order, with which
    arguments" is a property of the returned state.

    What is taken from outside the repository:
      - Go's [time] package, for a location with a fixed offset from UTC and
        the proleptic Gregorian calendar;
      - [path/filepath] on a Unix host and the [%d] and [%s] verbs of [fmt];
      - the answers of the index, the object store, the JSON decoder and
        gzip, which are fields of [Env], and what [yaml.Unmarshal] makes of
        the configuration file, which is an argument of [LoadConfig];
      - the file system: an operation fails when [Env] says so or when the
        file it reads is not there; a failed write leaves nothing written.
    Log output and the cancellation context are left out. *)

From Stdlib Require Import ZArith Lia List String Ascii Strings.Byte DecimalString
  DecimalPos DecimalZ.
From stdpp Require Import gmap strings list fin_maps.
Import ListNotations.

(* ===================================================================== *)
(** ** The parts of Go's [time] package the program uses *)
(* ===================================================================== *)

Module GoTime.
Local Open Scope Z_scope.

(** [time.Duration] counts nanoseconds. *)
Definition Nanosecond : Z := 1.
Definition Millisecond : Z := 1000000.
Definition Second : Z := 1000000000.
Definition secondsPerDay : Z := 86400.
Definition nanosPerDay : Z := secondsPerDay * Second.

(** A [time.Time]: an instant (nanoseconds since the Unix epoch) together
    with the offset, in seconds east of UTC, of its location. *)
Record Time := mkTime { unixNano : Z; zoneOffset : Z }.

(** Gregorian leap years. *)
Definition isLeap (y : Z) : bool :=
  (y mod 4 =? 0) && (negb (y mod 100 =? 0) || (y mod 400 =? 0)).


(** Day number, counted from 1970-01-01, of year [y], month [m], day [d].
    As [time.Date] does, a month outside 1..12 overflows into the year and
    the day is only an offset from the first of the month, so that day 0 is
    the last day of the month before. *)
Definition daysFromCivil (y m d : Z) : Z :=
  let y1 := y + (m - 1) / 12 in
  let m1 := (m - 1) mod 12 + 1 in
  let y2 := if m1 <=? 2 then y1 - 1 else y1 in
  let era := y2 / 400 in
  let yoe := y2 - era * 400 in
  let mp := if m1 >? 2 then m1 - 3 else m1 + 9 in
  let doy := (153 * mp + 2) / 5 + d - 1 in
  let doe := yoe * 365 + yoe / 4 - yoe / 100 + doy in
  era * 146097 + doe - 719468.

(** Year (relative to the start of the 400-year era), month and day of the
    [doe]-th day of an era; eras start on 1 March. *)
Definition civilOfEraDay (doe : Z) : Z * Z * Z :=
  let yoe := (doe - doe / 1460 + doe / 36524 - doe / 146096) / 365 in
  let doy := doe - (365 * yoe + yoe / 4 - yoe / 100) in
  let mp := (5 * doy + 2) / 153 in
  let d := doy - (153 * mp + 2) / 5 + 1 in
  let m := if mp <? 10 then mp + 3 else mp - 9 in
  ((if m <=? 2 then yoe + 1 else yoe), m, d).

(** The civil date of a day number: the inverse of [daysFromCivil]. *)
Definition civilFromDays (n : Z) : Z * Z * Z :=
  let z := n + 719468 in
  let era := z / 146097 in
  let '(y, m, d) := civilOfEraDay (z mod 146097) in
  (y + era * 400, m, d).

(** Wall-clock reading of [t] in its own location. *)
Definition localNano (t : Time) : Z := unixNano t + zoneOffset t * Second.
Definition dayNumber (t : Time) : Z := localNano t / nanosPerDay.
Definition date (t : Time) : Z * Z * Z := civilFromDays (dayNumber t).
Definition Year (t : Time) : Z := fst (fst (date t)).
Definition Month (t : Time) : Z := snd (fst (date t)).
Definition Day (t : Time) : Z := snd (date t).
Definition nanoOfDay (t : Time) : Z := localNano t mod nanosPerDay.
Definition Hour (t : Time) : Z := nanoOfDay t / (3600 * Second).
Definition Minute (t : Time) : Z := nanoOfDay t mod (3600 * Second) / (60 * Second).
Definition Sec (t : Time) : Z := nanoOfDay t mod (60 * Second) / Second.
Definition Nsec (t : Time) : Z := nanoOfDay t mod Second.

(** [time.Date(year, month, day, hour, min, sec, nsec, loc)] for a location
    with the fixed offset [off]. Out-of-range fields overflow into the next
    larger one, which the linear formula does by itself. *)
Definition Date (y m d h mi s ns off : Z) : Time :=
  {| unixNano := (daysFromCivil y m d * secondsPerDay + h * 3600 + mi * 60 + s - off) * Second + ns;
     zoneOffset := off |}.

Definition UTC : Z := 0.

(** [t.Add(d)]. *)
Definition Add (t : Time) (d : Z) : Time :=
  {| unixNano := unixNano t + d; zoneOffset := zoneOffset t |}.

(** [t.AddDate(years, months, days)]: the same wall clock on the shifted,
    then normalised, civil date. *)
Definition AddDate (t : Time) (years months days : Z) : Time :=
  Date (Year t + years) (Month t + months) (Day t + days)
       (Hour t) (Minute t) (Sec t) (Nsec t) (zoneOffset t).

End GoTime.

(** The calendar day before a civil date, read off the calendar: the day
    before within the month, else the last day of the month before, else
    31 December of the year before. *)
Module Calendar.
Local Open Scope Z_scope.



End Calendar.

(* ===================================================================== *)
(** ** Strings: [fmt] verbs and [path/filepath] on a Unix host *)
(* ===================================================================== *)

Module GoStr.
Local Open Scope string_scope.

(** [%d]: decimal, with a leading minus sign for negative numbers. *)
Definition itoa (z : Z) : string := NilZero.string_of_int (Z.to_int z).

(** A number written with at least two digits, as the layout elements
    [01], [02] and [06] of [Time.Format] are. *)
Definition pad2 (z : Z) : string :=
  if (z <? 10)%Z then "0" ++ itoa z else itoa z.

Definition slash : ascii := "/"%char.
Definition isSlash (c : ascii) : bool := Ascii.eqb c slash.
Definition quote : string := String "034"%char "".
Definition nl : string := String "010"%char "".
Definition tab : string := String "009"%char "".

Fixpoint repeatStr (n : nat) (s : string) : string :=
  match n with O => "" | S k => s ++ repeatStr k s end.

(** The elements of a path between its separators. *)
Fixpoint splitSlash (s : string) : list string :=
  match s with
  | EmptyString => [""]
  | String c r =>
      if isSlash c then "" :: splitSlash r
      else match splitSlash r with
           | h :: t => String c h :: t
           | [] => [String c ""]
           end
  end.

Fixpoint joinSlash (l : list string) : string :=
  match l with
  | [] => ""
  | [x] => x
  | x :: r => x ++ "/" ++ joinSlash r
  end.

Definition isRooted (s : string) : bool :=
  match s with String c _ => isSlash c | EmptyString => false end.

(** One element of the path against the elements kept so far (innermost
    first): empty and [.] elements vanish, [..] removes the element before
    it, stays in a relative path that has nothing left to remove, and is
    dropped at the root. *)
Definition cleanStep (rooted : bool) (kept : list string) (e : string) : list string :=
  if String.eqb e "" || String.eqb e "." then kept
  else if String.eqb e ".." then
    match kept with
    | k :: rest => if String.eqb k ".." then e :: kept else rest
    | [] => if rooted then [] else [e]
    end
  else e :: kept.

(** [filepath.Clean]. *)
Definition Clean (p : string) : string :=
  let rooted := isRooted p in
  let kept := rev (fold_left (cleanStep rooted) (splitSlash p) []) in
  let body := joinSlash kept in
  if rooted then "/" ++ body
  else if String.eqb body "" then "." else body.

(** [filepath.Join]: leading empty elements are ignored, the rest is joined
    with separators and cleaned; no non-empty element gives the empty
    string. *)
Fixpoint Join (elem : list string) : string :=
  match elem with
  | [] => ""
  | e :: rest => if String.eqb e "" then Join rest else Clean (joinSlash elem)
  end.

Fixpoint dropWhileEnd (rv : list ascii) : list ascii :=
  match rv with
  | c :: r => if isSlash c then dropWhileEnd r else rv
  | [] => []
  end.

Fixpoint takeToSlash (rv : list ascii) : list ascii :=
  match rv with
  | c :: r => if isSlash c then [] else c :: takeToSlash r
  | [] => []
  end.

(** [filepath.Base]: the last element, trailing separators removed. *)
Definition Base (p : string) : string :=
  if String.eqb p "" then "."
  else
    let rv := dropWhileEnd (rev (list_ascii_of_string p)) in
    let last := string_of_list_ascii (rev (takeToSlash rv)) in
    if String.eqb last "" then "/" else last.

(** Scanning from the end of the path: the suffix from the first dot met
    before any separator. [acc] is the part already passed. *)
Fixpoint extScan (rv acc : list ascii) : list ascii :=
  match rv with
  | c :: r =>
      if isSlash c then []
      else if Ascii.eqb c "."%char then c :: acc
      else extScan r (c :: acc)
  | [] => []
  end.

(** [filepath.Ext]. *)
Definition Ext (p : string) : string :=
  string_of_list_ascii (extScan (rev (list_ascii_of_string p)) []).

(** [p] holds of every character of [s]. *)
Fixpoint strAll (p : ascii -> bool) (s : string) : bool :=
  match s with
  | EmptyString => true
  | String c r => p c && strAll p r
  end.

Definition isQuote (c : ascii) : bool := Ascii.eqb c "034"%char.

(** The texts between double quotes in [s], in order; [inside] is the text
    read since an opening quote, if one is open. *)
Fixpoint quotedFrom (s : string) (inside : option string) : list string :=
  match s with
  | EmptyString => []
  | String c r =>
      if isQuote c then
        match inside with
        | None => quotedFrom r (Some EmptyString)
        | Some cur => cur :: quotedFrom r None
        end
      else
        match inside with
        | None => quotedFrom r None
        | Some cur => quotedFrom r (Some (cur ++ String c EmptyString)%string)
        end
  end.

Definition quotedStrings (s : string) : list string := quotedFrom s None.

(** The characters of a printed number. *)
Definition isNumberChar (c : ascii) : bool :=
  Ascii.eqb c "-" || ((48 <=? nat_of_ascii c)%nat && (nat_of_ascii c <=? 57)%nat).

(** Reading a text, then another: the quotations closed in the first,
    then the second read in the state the first was left in. *)
Fixpoint scanQuotes (s : string) (inside : option string) : list string * option string :=
  match s with
  | EmptyString => ([], inside)
  | String c r =>
      if isQuote c then
        match inside with
        | None => scanQuotes r (Some EmptyString)
        | Some cur => let (closed, st) := scanQuotes r None in (cur :: closed, st)
        end
      else
        match inside with
        | None => scanQuotes r None
        | Some cur => scanQuotes r (Some (cur ++ String c EmptyString))
        end
  end.

End GoStr.

Import GoTime GoStr.

(* ===================================================================== *)
(** ** Errors, configuration, and the world a run acts on *)
(* ===================================================================== *)

(** A Go [error]: one made by a collaborator, or [fmt.Errorf("ctx: %w", e)]
    wrapping the error [e] it was caused by. *)
Inductive error : Type :=
| ErrNew (msg : string)
| ErrWrap (context : string) (cause : error).

(** [err.Error()]. *)
Fixpoint errorString (e : error) : string :=
  match e with
  | ErrNew msg => msg
  | ErrWrap ctx cause => (ctx ++ ": " ++ errorString cause)%string
  end.

(** [errors.Unwrap]. *)
Definition Unwrap (e : error) : option error :=
  match e with ErrNew _ => None | ErrWrap _ cause => Some cause end.

(** A call returning [(value, error)]. *)
Inductive result (A : Type) : Type :=
| Ok (a : A)
| Err (e : error).
Arguments Ok {A} a.
Arguments Err {A} e.

(** [config.BackupJob] and [config.CleanupJob]. *)
Module BackupJob.
Record t := mk {
  IndexName : string;
  Schedule : string;
  IntervalHours : Z;
  S3Path : string;
  RequestInterval : Z
}.
End BackupJob.

Module CleanupJob.
Record t := mk {
  IndexName : string;
  RetentionDays : Z;
  Schedule : string
}.
End CleanupJob.

(** What a run does to the outside, in the order it does it. The count and
    search requests carry the instants bounding their range. *)
Inductive event : Type :=
| EvCount (index : string) (startTime endTime : Time)
| EvSearch (index : string) (startTime endTime : Time) (size : Z)
| EvSleep (duration : Z)
| EvPutObject (bucket key : string) (body : list byte) (size : Z) (contentType : string)
| EvDeleteByQuery (index : string) (body : string).

(** The file operations that can fail for reasons outside the program. *)
Inductive ioOp : Type :=
| OpCreate (path : string)
| OpOpen (path : string)
| OpStat (path : string)
| OpWrite (path : string)
| OpClose (path : string).

(** The collaborators: what the index, the object store, the JSON and gzip
    codecs and the file system answer. [putObject] is asked with the number
    of the attempt, every other answer depends on the request alone. *)
Record Env := mkEnv {
  indicesCount : string -> Time -> Time -> result Z;
  search : string -> Time -> Time -> Z -> result (list byte);
  deleteByQuery : string -> string -> result Z;
  putObject : Z -> string -> string -> option error;
  decodeHits : list byte -> result Z;
  gzipBytes : string -> list byte -> list byte;
  ioFault : ioOp -> option error
}.

(** The files on disk and the requests made so far. *)
Record World := mkWorld {
  fs : gmap string (list byte);
  trace : list event
}.

(** Stateful code: a function from the world to a value and a new world. *)
Definition M (A : Type) : Type := World -> A * World.

Definition ret {A} (a : A) : M A := fun w => (a, w).
Definition bind {A B} (m : M A) (k : A -> M B) : M B :=
  fun w => let (a, w') := m w in k a w'.

Declare Scope go_scope.
Delimit Scope go_scope with go.
Notation "'do' x <- m ; k" := (bind m (fun x => k))
  (at level 10, x name, m at level 100, k at level 200) : go_scope.
Notation "'run' m ; k" := (bind m (fun _ => k))
  (at level 10, m at level 100, k at level 200) : go_scope.
Local Open Scope go_scope.

Definition emit (e : event) : M unit :=
  fun w => (tt, {| fs := fs w; trace := trace w ++ [e] |}).

Definition setFile (path : string) (content : list byte) : M unit :=
  fun w => (tt, {| fs := <[path := content]> (fs w); trace := trace w |}).

Definition notExist (path : string) : error :=
  ErrNew ("open " ++ path ++ ": no such file or directory").

(** [os.Create]: the file exists and is empty afterwards. *)
Definition osCreate (env : Env) (path : string) : M (option error) :=
  match ioFault env (OpCreate path) with
  | Some e => ret (Some e)
  | None => run setFile path []; ret None
  end.

(** [os.Open] followed by reading the file to its end. *)
Definition readFile (env : Env) (path : string) : M (result (list byte)) :=
  fun w =>
    match ioFault env (OpOpen path) with
    | Some e => (Err e, w)
    | None =>
        match fs w !! path with
        | Some content => (Ok content, w)
        | None => (Err (notExist path), w)
        end
    end.

(** Writing [bytes] at the end of the file behind an open descriptor. *)
Definition appendFile (env : Env) (path : string) (bytes : list byte) : M (option error) :=
  fun w =>
    match ioFault env (OpWrite path) with
    | Some e => (Some e, w)
    | None =>
        (None, {| fs := <[path := default [] (fs w !! path) ++ bytes]> (fs w);
                  trace := trace w |})
    end.

(** [os.Remove], whose error the program ignores. *)
Definition osRemove (path : string) : M unit :=
  fun w => (tt, {| fs := delete path (fs w); trace := trace w |}).

(** [os.Stat(path).Size()]. *)
Definition statSize (env : Env) (path : string) : M (result Z) :=
  fun w =>
    match ioFault env (OpStat path) with
    | Some e => (Err e, w)
    | None =>
        match fs w !! path with
        | Some content => (Ok (Z.of_nat (length content)), w)
        | None => (Err (notExist path), w)
        end
    end.

(** Arithmetic on [int64] wraps around. *)
Definition wrap64 (z : Z) : Z := ((z + 2 ^ 63) mod 2 ^ 64 - 2 ^ 63)%Z.

(* ===================================================================== *)
(** ** internal/storage: [S3Client.Upload] *)
(* ===================================================================== *)

Module Storage.

Record S3Client := mkS3Client { bucket : string }.

Definition maxRetries : Z := 3.
Definition baseDelay : Z := (2 * Second)%Z.

(** The loop [for attempt := 1; attempt <= maxRetries; attempt++], by the
    number [n] of attempts that remain; [attempt] is the number of the next
    one and [lastErr] the failure of the one before. *)
Fixpoint uploadAttempts (env : Env) (c : S3Client) (filePath key : string)
    (size : Z) (contentType : string)
    (n : nat) (attempt : Z) (lastErr : option error) : M (option error) :=
  match n with
  | O =>
      ret (Some (ErrWrap ("failed to upload file after " ++ itoa maxRetries ++ " attempts")
                         (default (ErrNew "<nil>") lastErr)))
  | S n' =>
      do file <- readFile env filePath;
      match file with
      | Err e => ret (Some (ErrWrap "failed to open file" e))
      | Ok content =>
          run emit (EvPutObject (bucket c) key content size contentType);
          match putObject env attempt (bucket c) key with
          | None => ret None
          | Some e =>
              run (if (attempt <? maxRetries)%Z
                   then emit (EvSleep (baseDelay * attempt)%Z)
                   else ret tt);
              uploadAttempts env c filePath key size contentType n' (attempt + 1)%Z (Some e)
          end
      end
  end.

Definition Upload (env : Env) (c : S3Client) (filePath key : string)
    (documentCount : Z) : M (option error) :=
  do info <- statSize env filePath;
  match info with
  | Err e => ret (Some (ErrWrap "failed to stat file" e))
  | Ok size =>
      let contentType :=
        if String.eqb (Ext filePath) ".json" then "application/json"
        else "application/gzip" in
      uploadAttempts env c filePath key size contentType
                     (Z.to_nat maxRetries) 1%Z None
  end.

End Storage.

(* ===================================================================== *)
(** ** internal/cleanup: [Service.Cleanup] *)
(* ===================================================================== *)

Module Cleanup.

(** The request body, the raw string literal of the source with
    [job.RetentionDays] printed in place of [%d]. *)
Definition deleteBody (retentionDays : Z) : string :=
  ("{" ++ nl ++
   repeatStr 3 tab ++ quote ++ "query" ++ quote ++ ": {" ++ nl ++
   repeatStr 4 tab ++ quote ++ "range" ++ quote ++ ": {" ++ nl ++
   repeatStr 5 tab ++ quote ++ "@timestamp" ++ quote ++ ": {" ++ nl ++
   repeatStr 6 tab ++ quote ++ "lte" ++ quote ++ ": " ++
     quote ++ "now-" ++ itoa retentionDays ++ "d/d" ++ quote ++ nl ++
   repeatStr 5 tab ++ "}" ++ nl ++
   repeatStr 4 tab ++ "}" ++ nl ++
   repeatStr 3 tab ++ "}" ++ nl ++
   repeatStr 2 tab ++ "}")%string.

(** The parts of the request body before and after the number. *)
Definition bodyPrefix : string :=
  Eval vm_compute in
  ("{" ++ nl ++
   repeatStr 3 tab ++ quote ++ "query" ++ quote ++ ": {" ++ nl ++
   repeatStr 4 tab ++ quote ++ "range" ++ quote ++ ": {" ++ nl ++
   repeatStr 5 tab ++ quote ++ "@timestamp" ++ quote ++ ": {" ++ nl ++
   repeatStr 6 tab ++ quote ++ "lte" ++ quote ++ ": " ++ quote ++ "now-")%string.

Definition bodySuffix : string :=
  Eval vm_compute in
  ("d/d" ++ quote ++ nl ++
   repeatStr 5 tab ++ "}" ++ nl ++
   repeatStr 4 tab ++ "}" ++ nl ++
   repeatStr 3 tab ++ "}" ++ nl ++
   repeatStr 2 tab ++ "}")%string.

Definition Cleanup (env : Env) (job : CleanupJob.t) : M (option error) :=
  let body := deleteBody (CleanupJob.RetentionDays job) in
  run emit (EvDeleteByQuery (CleanupJob.IndexName job) body);
  match deleteByQuery env (CleanupJob.IndexName job) body with
  | Err e => ret (Some (ErrWrap "delete by query failed" e))
  | Ok deleted => ret None
  end.

End Cleanup.

(* ===================================================================== *)
(** ** internal/backup: the backup run *)
(* ===================================================================== *)

Module Backup.
Local Open Scope Z_scope.

Record Service := mkService {
  s3Client : Storage.S3Client;
  workDir : string
}.

Definition NewService (s3 : Storage.S3Client) : Service :=
  {| s3Client := s3; workDir := "/tmp/opensearch-backups" |}.

(** How a call of [Backup] ends: with its [error] result ([None] is [nil]),
    or in the run-time panic of an integer division by zero. *)
Inductive outcome : Type :=
| Returned (err : option error)
| Panicked (msg : string).

(** [startTime] and [endTime] of [downloadPeriod]. *)
Definition windowBounds (date : Time) (startHour endHour : Z) : Time * Time :=
  let startTime := Date (Year date) (Month date) (Day date) startHour 0 0 0 UTC in
  let endTime :=
    if endHour >=? 24
    then Date (Year date) (Month date) (Day date) 23 59 59 999000000 UTC
    else Add (Date (Year date) (Month date) (Day date) endHour 0 0 0 UTC) (- Millisecond) in
  (startTime, endTime).

(** The count request for a range. The source writes both instants into
    the request body with [time.RFC3339]; the event keeps the instants. *)
Definition getCount (env : Env) (indexName : string) (startTime endTime : Time)
  : M (result Z) :=
  run emit (EvCount indexName startTime endTime);
  ret (indicesCount env indexName startTime endTime).

Definition searchAndSave (env : Env) (indexName : string) (startTime endTime : Time)
    (size : Z) (filename : string) : M (option error) :=
  run emit (EvSearch indexName startTime endTime size);
  match search env indexName startTime endTime size with
  | Err e => ret (Some e)
  | Ok resp =>
      do created <- osCreate env filename;
      match created with
      | Some e => ret (Some e)
      | None =>
          do written <- appendFile env filename resp;
          match written with
          | Some e => ret (Some (ErrWrap "failed to encode response" e))
          | None => ret None
          end
      end
  end.

(** The name of the file of window number [fileNum]. *)
Definition periodFilename (s : Service) (job : BackupJob.t) (date : Time) (fileNum : Z)
  : string :=
  Join [workDir s;
        (pad2 (Month date) ++ "-" ++ pad2 (Day date) ++ "-" ++
         pad2 (Z.abs (Year date) mod 100) ++ "-" ++
         BackupJob.IndexName job ++ "-" ++ itoa fileNum ++ ".json")%string].

Definition downloadPeriod (env : Env) (s : Service) (job : BackupJob.t) (date : Time)
    (startHour endHour fileNum : Z) : M (result string) :=
  let '(startTime, endTime) := windowBounds date startHour endHour in
  do counted <- getCount env (BackupJob.IndexName job) startTime endTime;
  match counted with
  | Err e => ret (Err (ErrWrap "failed to get count" e))
  | Ok count =>
      if count =? 0 then ret (Ok ""%string)
      else
        let filename := periodFilename s job date fileNum in
        do saved <- searchAndSave env (BackupJob.IndexName job) startTime endTime count filename;
        match saved with
        | Some e => ret (Err (ErrWrap "failed to search and save" e))
        | None => ret (Ok filename)
        end
  end.

Definition mergedFilename (s : Service) (indexName : string) (date : Time) : string :=
  Join [workDir s;
        (pad2 (Month date) ++ "-" ++ pad2 (Day date) ++ "-" ++
         pad2 (Z.abs (Year date) mod 100) ++ "-" ++ indexName ++ ".json")%string].

(** The loop of [mergeFiles] over the files that remain; [merged] is the
    path of the file being written and [totalCount] the count so far. *)
Fixpoint mergeLoop (env : Env) (merged : string) (files : list string) (totalCount : Z)
  : M (result Z) :=
  match files with
  | [] => ret (Ok totalCount)
  | filename :: rest =>
      do file <- readFile env filename;
      match file with
      | Err e => ret (Err e)
      | Ok content =>
          match decodeHits env content with
          | Err e => ret (Err (ErrWrap ("failed to decode JSON from " ++ filename) e))
          | Ok hits =>
              do copied <- appendFile env merged content;
              match copied with
              | Some e => ret (Err e)
              | None => mergeLoop env merged rest (totalCount + hits)
              end
          end
      end
  end.

Definition mergeFiles (env : Env) (s : Service) (files : list string)
    (indexName : string) (date : Time) : M (result (string * Z)) :=
  let merged := mergedFilename s indexName date in
  do created <- osCreate env merged;
  match created with
  | Some e => ret (Err e)
  | None =>
      do total <- mergeLoop env merged files 0;
      match total with
      | Err e => ret (Err e)
      | Ok totalCount => ret (Ok (merged, totalCount))
      end
  end.

Definition compressFile (env : Env) (filename : string) : M (result string) :=
  let compressedFilename := (filename ++ ".gz")%string in
  do source <- readFile env filename;
  match source with
  | Err e => ret (Err e)
  | Ok content =>
      do created <- osCreate env compressedFilename;
      match created with
      | Some e => ret (Err e)
      | None =>
          do copied <- appendFile env compressedFilename
                         (gzipBytes env (Base filename) content);
          match copied with
          | Some e => ret (Err e)
          | None =>
              match ioFault env (OpClose compressedFilename) with
              | Some e => ret (Err e)
              | None => ret (Ok compressedFilename)
              end
          end
      end
  end.

(** [cleanup]: the third argument is not used by the source. *)
Definition cleanup (tempFiles : list string) (mergedFile compressedFile : string) : M unit :=
  run (fold_right (fun file k => run osRemove file; k) (ret tt) tempFiles);
  osRemove mergedFile.

(** The download loop of [Backup], by the number [n] of windows that remain;
    [i] is the loop variable and [allFiles] the names collected so far. *)
Fixpoint downloadLoop (env : Env) (s : Service) (job : BackupJob.t) (targetDate : Time)
    (periodsCount : Z) (n : nat) (i : Z) (allFiles : list string) : M (list string) :=
  match n with
  | O => ret allFiles
  | S n' =>
      let startHour := i * BackupJob.IntervalHours job in
      let endHour := startHour + BackupJob.IntervalHours job in
      do downloaded <- downloadPeriod env s job targetDate startHour endHour (i + 1);
      match downloaded with
      | Err e => downloadLoop env s job targetDate periodsCount n' (i + 1) allFiles
      | Ok filename =>
          let allFiles' :=
            if String.eqb filename "" then allFiles else allFiles ++ [filename] in
          run (if (i <? periodsCount - 1) && (BackupJob.RequestInterval job >? 0)
               then emit (EvSleep (wrap64 (BackupJob.RequestInterval job * Second)))
               else ret tt);
          downloadLoop env s job targetDate periodsCount n' (i + 1) allFiles'
      end
  end.

(** What [Backup] does once the windows are downloaded. *)
Definition deliver (env : Env) (s : Service) (job : BackupJob.t) (targetDate : Time)
    (allFiles : list string) : M (option error) :=
  if (length allFiles =? 0)%nat then ret None
  else
    do merged <- mergeFiles env s allFiles (BackupJob.IndexName job) targetDate;
    match merged with
    | Err e => ret (Some (ErrWrap "failed to merge files" e))
    | Ok (mergedFile, totalCount) =>
        do compressed <- compressFile env mergedFile;
        match compressed with
        | Err e => ret (Some (ErrWrap "failed to compress file" e))
        | Ok compressedFile =>
            let s3Key := Join [BackupJob.S3Path job; Base compressedFile] in
            do uploaded <- Storage.Upload env (s3Client s) compressedFile s3Key totalCount;
            match uploaded with
            | Some e => ret (Some (ErrWrap "failed to upload to S3" e))
            | None =>
                run cleanup allFiles mergedFile compressedFile;
                ret None
            end
        end
    end.

(** [Backup], started at the instant [now]. *)
Definition Backup (env : Env) (s : Service) (now : Time) (job : BackupJob.t) : M outcome :=
  let targetDate := AddDate now 0 0 (-1) in
  if BackupJob.IntervalHours job =? 0
  then ret (Panicked "runtime error: integer divide by zero")
  else
    let periodsCount := 24 ÷ BackupJob.IntervalHours job in
    do allFiles <- downloadLoop env s job targetDate periodsCount
                     (Z.to_nat periodsCount) 0 [];
    do err <- deliver env s job targetDate allFiles;
    ret (Returned err).

End Backup.

(* ===================================================================== *)
(** ** cmd/manager: job registration and the [TryLock] guard *)
(* ===================================================================== *)

Module Scheduler.

Inductive job : Type :=
| CleanupOf (j : CleanupJob.t)
| BackupOf (j : BackupJob.t).

Definition jobIndexName (j : job) : string :=
  match j with
  | CleanupOf c => CleanupJob.IndexName c
  | BackupOf b => BackupJob.IndexName b
  end.

Definition jobSchedule (j : job) : string :=
  match j with
  | CleanupOf c => CleanupJob.Schedule c
  | BackupOf b => BackupJob.Schedule b
  end.

(** The closure given to [AddFunc]: the job of this loop iteration and the
    [*sync.Mutex] it read back from the map, [None] being the nil pointer. *)
Record handler := mkHandler { hJob : job; hMutex : option nat }.

(** The state [main] builds before the scheduler starts. A [*sync.Mutex] is
    the position of the mutex in [mutexes], in allocation order; [true] is
    a locked mutex. *)
Record registry := mkRegistry {
  mutexes : list bool;
  cleanupMutexes : gmap string nat;
  backupMutexes : gmap string nat;
  handlers : list handler
}.

Definition emptyRegistry : registry :=
  {| mutexes := []; cleanupMutexes := ∅; backupMutexes := ∅; handlers := [] |}.

(** One iteration of the loop over [cfg.CleanupJobs]; [None] is the exit of
    the process through [log.Fatalf] when [AddFunc] rejects the schedule. *)
Definition registerCleanup (parses : string -> bool) (r : registry) (j : CleanupJob.t)
  : option registry :=
  let fresh := length (mutexes r) in
  let table := <[CleanupJob.IndexName j := fresh]> (cleanupMutexes r) in
  let mutex := table !! CleanupJob.IndexName j in
  if parses (CleanupJob.Schedule j)
  then Some {| mutexes := mutexes r ++ [false];
               cleanupMutexes := table;
               backupMutexes := backupMutexes r;
               handlers := handlers r ++ [mkHandler (CleanupOf j) mutex] |}
  else None.

Definition registerBackup (parses : string -> bool) (r : registry) (j : BackupJob.t)
  : option registry :=
  let fresh := length (mutexes r) in
  let table := <[BackupJob.IndexName j := fresh]> (backupMutexes r) in
  let mutex := table !! BackupJob.IndexName j in
  if parses (BackupJob.Schedule j)
  then Some {| mutexes := mutexes r ++ [false];
               cleanupMutexes := cleanupMutexes r;
               backupMutexes := table;
               handlers := handlers r ++ [mkHandler (BackupOf j) mutex] |}
  else None.

Fixpoint registerAll {J} (reg : registry -> J -> option registry)
    (r : registry) (jobs : list J) : option registry :=
  match jobs with
  | [] => Some r
  | j :: rest =>
      match reg r j with
      | Some r' => registerAll reg r' rest
      | None => None
      end
  end.

(** The two registration loops of [main], cleanup jobs first. *)
Definition setup (parses : string -> bool)
    (cleanupJobs : list CleanupJob.t) (backupJobs : list BackupJob.t) : option registry :=
  match registerAll (registerCleanup parses) emptyRegistry cleanupJobs with
  | Some r => registerAll (registerBackup parses) r backupJobs
  | None => None
  end.

(** Where a goroutine started by a firing stands in its handler: before
    [TryLock], in the job with the mutex held, returned after the job, or
    returned at once because the mutex was held. *)
Inductive pc : Type := AtTryLock | InJob | Finished | Skipped.

Record goroutine := mkGoroutine { gHandler : nat; gPc : pc }.

#[global] Instance pc_eq_dec : EqDecision pc.
Proof. solve_decision. Defined.

#[global] Instance goroutine_eq_dec : EqDecision goroutine.
Proof. solve_decision. Defined.

Record state := mkState {
  locks : list bool;
  goroutines : list goroutine;
  world : World;
  warnings : list string;
  crashed : bool
}.

Definition initial (r : registry) (w : World) : state :=
  {| locks := mutexes r; goroutines := []; world := w; warnings := []; crashed := false |}.

(** What the scheduler and the goroutines can do next: the schedule of
    handler [h] fires; goroutine [g] calls [TryLock]; goroutine [g] runs its
    job, started at [now], to the end and unlocks. *)
Inductive action : Type :=
| Fire (h : nat)
| Try (g : nat)
| Complete (g : nat) (now : Time).

Definition skipWarning (j : job) : string :=
  ((match j with CleanupOf _ => "Cleanup" | BackupOf _ => "Backup" end)
   ++ " job for " ++ jobIndexName j ++ " is already running, skipping")%string.

(** The job a handler runs, and whether it ended in a panic. *)
Definition runJob (env : Env) (svc : Backup.Service) (now : Time) (j : job) (w : World)
  : bool * World :=
  match j with
  | CleanupOf c => (false, snd (Cleanup.Cleanup env c w))
  | BackupOf b =>
      match Backup.Backup env svc now b w with
      | (Backup.Returned _, w') => (false, w')
      | (Backup.Panicked _, w') => (true, w')
      end
  end.

Definition setPc (g : nat) (p : pc) (st : state) : list goroutine :=
  alter (fun x => mkGoroutine (gHandler x) p) g (goroutines st).

(** One step; [None] when the action is not possible in the state. *)
Definition step (env : Env) (svc : Backup.Service) (hs : list handler)
    (a : action) (st : state) : option state :=
  if crashed st then None else
  match a with
  | Fire h =>
      match hs !! h with
      | Some _ =>
          Some {| locks := locks st;
                  goroutines := goroutines st ++ [mkGoroutine h AtTryLock];
                  world := world st; warnings := warnings st; crashed := false |}
      | None => None
      end
  | Try g =>
      match goroutines st !! g with
      | Some (mkGoroutine h AtTryLock) =>
          match hs !! h with
          | Some (mkHandler j (Some m)) =>
              match locks st !! m with
              | Some false =>
                  Some {| locks := <[m := true]> (locks st);
                          goroutines := setPc g InJob st;
                          world := world st; warnings := warnings st; crashed := false |}
              | Some true =>
                  Some {| locks := locks st;
                          goroutines := setPc g Skipped st;
                          world := world st;
                          warnings := warnings st ++ [skipWarning j];
                          crashed := false |}
              | None => None
              end
          | _ => None
          end
      | _ => None
      end
  | Complete g now =>
      match goroutines st !! g with
      | Some (mkGoroutine h InJob) =>
          match hs !! h with
          | Some (mkHandler j (Some m)) =>
              let (panicked, w') := runJob env svc now j (world st) in
              Some {| locks := <[m := false]> (locks st);
                      goroutines := setPc g Finished st;
                      world := w'; warnings := warnings st; crashed := panicked |}
          | _ => None
          end
      | _ => None
      end
  end.

(** The states the process can be in after [setup] gave [r]. *)
Inductive reachable (env : Env) (svc : Backup.Service) (r : registry) (w0 : World)
  : state -> Prop :=
| reach_initial : reachable env svc r w0 (initial r w0)
| reach_step st a st' :
    reachable env svc r w0 st ->
    step env svc (handlers r) a st = Some st' ->
    reachable env svc r w0 st'.

(** The goroutines that are inside the job of handler [h]. *)
Definition inJob (h : nat) (st : state) : list goroutine :=
  filter (fun x => x = mkGoroutine h InJob) (goroutines st).

(** A registry in which the handler at position [h] holds the mutex at
    position [h], and every mutex is unlocked. *)
Definition wellFormed (r : registry) : Prop :=
  length (mutexes r) = length (handlers r)
  /\ Forall (fun b => b = false) (mutexes r)
  /\ forall (h : nat) hd, handlers r !! h = Some hd -> hMutex hd = Some h.

(** Each mutex is held exactly when one goroutine is inside the job of its
    handler, and by no more than one. *)
Definition lockInvariant (r : registry) (st : state) : Prop :=
  length (locks st) = length (handlers r)
  /\ (forall (h : nat) (b : bool), locks st !! h = Some b ->
        length (inJob h st) = if b then 1%nat else 0%nat)
  /\ (forall (g : nat) x, goroutines st !! g = Some x ->
        is_Some (handlers r !! gHandler x)).

End Scheduler.

(* ===================================================================== *)
(** ** What a run is observed by *)
(* ===================================================================== *)

Module Observe.
Local Open Scope Z_scope.

(** The events added to the trace between two worlds. *)
Definition newEvents (before after : World) : list event :=
  drop (length (trace before)) (trace after).

(** The range of a count request. *)
Definition probeOf (e : event) : option (Time * Time) :=
  match e with EvCount _ startTime endTime => Some (startTime, endTime) | _ => None end.

(** The windows probed, in the order of the requests. *)
Definition probeWindows (l : list event) : list (Time * Time) := omap probeOf l.

(** The kinds of event. *)
Definition isCount (e : event) : bool :=
  match e with EvCount _ _ _ => true | _ => false end.
Definition isSearch (e : event) : bool :=
  match e with EvSearch _ _ _ _ => true | _ => false end.
Definition isSleep (e : event) : bool :=
  match e with EvSleep _ => true | _ => false end.
Definition isPut (e : event) : bool :=
  match e with EvPutObject _ _ _ _ _ => true | _ => false end.

(** The windows a backup run started at [now] asks the index about. *)
Definition backupWindows (env : Env) (s : Backup.Service) (now : Time)
    (job : BackupJob.t) (w : World) : list (Time * Time) :=
  probeWindows (newEvents w (snd (Backup.Backup env s now job w))).

(** The world with some more events on its trace. *)
Definition addEvents (w : World) (l : list event) : World :=
  {| fs := fs w; trace := trace w ++ l |}.

(** How many object-store requests a list of events holds. *)
Definition putCount (l : list event) : nat := length (List.filter isPut l).

(** The sum of a list of counts. *)
Definition sumZ (l : list Z) : Z := foldr Z.add 0%Z l.

(** The window of loop iteration [i] of a backup run. *)
Definition windowAt (job : BackupJob.t) (date : Time) (i : Z) : Time * Time :=
  Backup.windowBounds date (i * BackupJob.IntervalHours job)
    (i * BackupJob.IntervalHours job + BackupJob.IntervalHours job).

(** What window [i] of a run gives: the name of its file, the empty name
    when it has no documents, or the error that makes the run skip it. The
    answers of the collaborators depend on the request alone, so this is
    determined before the run. *)
Definition windowOutcome (env : Env) (s : Backup.Service) (job : BackupJob.t)
    (date : Time) (i : Z) : result string :=
  let '(startTime, endTime) := windowAt job date i in
  let index := BackupJob.IndexName job in
  let filename := Backup.periodFilename s job date (i + 1) in
  match indicesCount env index startTime endTime with
  | Err e => Err (ErrWrap "failed to get count" e)
  | Ok count =>
      if count =? 0 then Ok ""%string
      else
        match search env index startTime endTime count with
        | Err e => Err (ErrWrap "failed to search and save" e)
        | Ok _ =>
            match ioFault env (OpCreate filename), ioFault env (OpWrite filename) with
            | Some e, _ => Err (ErrWrap "failed to search and save" e)
            | None, Some e =>
                Err (ErrWrap "failed to search and save"
                             (ErrWrap "failed to encode response" e))
            | None, None => Ok filename
            end
        end
  end.

(** The files that a list of window outcomes leaves to be merged. *)
Definition survivors (l : list (result string)) : list string :=
  flat_map (fun r => match r with
                     | Ok f => if String.eqb f "" then [] else [f]
                     | Err _ => []
                     end) l.

(** The files a backup run has collected when its download loop ends, and
    the world at that moment. *)
Definition collected (env : Env) (s : Backup.Service) (now : Time) (job : BackupJob.t)
    (w : World) : list string * World :=
  let count := 24 ÷ BackupJob.IntervalHours job in
  Backup.downloadLoop env s job (AddDate now 0 0 (-1)) count (Z.to_nat count) 0 [] w.

(** [m] only adds events satisfying [P] to the trace. *)
Definition emits {A} (P : event -> Prop) (m : M A) : Prop :=
  forall w, exists l, trace (snd (m w)) = trace w ++ l /\ Forall P l.

(** Midnight UTC at the start of the civil day of [t], and an instant of
    that day given in milliseconds after it. *)
Definition dayStart (t : Time) : Z := dayNumber t * nanosPerDay.
Definition msOfDay (t : Time) (ms : Z) : Z := dayStart t + ms * Millisecond.

(** An instant lies in a window, bounds included. *)
Definition inWindow (x : Z) (win : Time * Time) : Prop :=
  unixNano (fst win) <= x <= unixNano (snd win).

(** The name of a window's file as the design describes it: under the work
    directory, the target date written month-day-year with two digits each,
    the index name and the number of the window, counted from 1. *)
Definition artifactName (ymd : Z * Z * Z) (index : string) (number : Z) : string :=
  let '(y, m, d) := ymd in
  ("/tmp/opensearch-backups/" ++ pad2 m ++ "-" ++ pad2 d ++ "-" ++ pad2 (Z.abs y mod 100)
   ++ "-" ++ index ++ "-" ++ itoa number ++ ".json")%string.

(** A text without a path separator. *)
Definition noSlash (s : string) : bool := strAll (fun c => negb (isSlash c)) s.

End Observe.

(* ===================================================================== *)
(** ** Concrete collaborators and worlds *)
(* ===================================================================== *)

Module Example.
Local Open Scope Z_scope.

(** A store that refuses the first two requests of an upload. *)
Definition flakyStore : Env :=
  {| indicesCount := fun _ _ _ => Ok 0;
     search := fun _ _ _ _ => Ok [];
     deleteByQuery := fun _ _ => Ok 0;
     putObject := fun attempt _ _ =>
       if attempt <? 3 then Some (ErrNew "connection reset") else None;
     decodeHits := fun _ => Ok 0;
     gzipBytes := fun _ b => b;
     ioFault := fun _ => None |}.

Definition client : Storage.S3Client := Storage.mkS3Client "backups".
Definition archive : string := "/tmp/opensearch-backups/02-29-24-logs.json.gz".
Definition archiveBytes : list byte := [x1f; x8b; x08].
Definition disk : World := {| fs := {[ archive := archiveBytes ]}; trace := [] |}.
Definition archivePut : event :=
  EvPutObject "backups" "logs/02-29-24-logs.json.gz" archiveBytes 3 "application/gzip".

(** An index that holds documents in the windows starting at 04:00 (ten of
    them) and at 12:00 (five), answers a search with one byte per document,
    and a store and a file system that do not fail. *)
Definition busyIndex : Env :=
  {| indicesCount := fun _ startTime _ =>
       if Hour startTime =? 4 then Ok 10
       else if Hour startTime =? 12 then Ok 5 else Ok 0;
     search := fun _ startTime _ size =>
       Ok (repeat (if Hour startTime =? 4 then x61 else x62) (Z.to_nat size));
     deleteByQuery := fun _ _ => Ok 0;
     putObject := fun _ _ _ => None;
     decodeHits := fun content => Ok (Z.of_nat (length content));
     gzipBytes := fun _ content => x1f :: x8b :: content;
     ioFault := fun _ => None |}.

Definition service : Backup.Service := Backup.NewService client.
Definition logsJob : BackupJob.t := BackupJob.mk "logs" "0 6 * * *" 2 "logs" 30.
(** 1 March 2024, 06:00:00 UTC; the day before is 29 February. *)
Definition morning : Time := Date 2024 3 1 6 0 0 0 UTC.
Definition yesterday : Time := AddDate morning 0 0 (-1).
Definition window3 : string := "/tmp/opensearch-backups/02-29-24-logs-3.json".
Definition window7 : string := "/tmp/opensearch-backups/02-29-24-logs-7.json".
Definition dayFile : string := "/tmp/opensearch-backups/02-29-24-logs.json".
Definition twoWindows : World :=
  {| fs := {[ window3 := repeat x61 10; window7 := repeat x62 5 ]}; trace := [] |}.

(** The index of [busyIndex], except that the count request for the window
    starting at 06:00 fails. *)
Definition brokenProbe : Env :=
  {| indicesCount := fun index startTime endTime =>
       if Hour startTime =? 6 then Err (ErrNew "context deadline exceeded")
       else indicesCount busyIndex index startTime endTime;
     search := search busyIndex;
     deleteByQuery := deleteByQuery busyIndex;
     putObject := putObject busyIndex;
     decodeHits := decodeHits busyIndex;
     gzipBytes := gzipBytes busyIndex;
     ioFault := ioFault busyIndex |}.

(** An index without documents. *)
Definition emptyIndex : Env :=
  {| indicesCount := fun _ _ _ => Ok 0;
     search := search busyIndex;
     deleteByQuery := deleteByQuery busyIndex;
     putObject := putObject busyIndex;
     decodeHits := decodeHits busyIndex;
     gzipBytes := gzipBytes busyIndex;
     ioFault := ioFault busyIndex |}.

Definition emptyDisk : World := {| fs := ∅; trace := [] |}.

(** The index of [busyIndex] with an object store that refuses every
    request. *)
Definition deadStore : Env :=
  {| indicesCount := indicesCount busyIndex;
     search := search busyIndex;
     deleteByQuery := deleteByQuery busyIndex;
     putObject := fun _ _ _ => Some (ErrNew "connection refused");
     decodeHits := decodeHits busyIndex;
     gzipBytes := gzipBytes busyIndex;
     ioFault := ioFault busyIndex |}.

Definition gzFile : string := "/tmp/opensearch-backups/02-29-24-logs.json.gz".
Definition dayBytes : list byte := repeat x61 10 ++ repeat x62 5.

Import Scheduler.
Definition purgeJob : CleanupJob.t := CleanupJob.mk "logs" 30 "0 2 * * *".

(** What [main] builds for one cleanup job and one backup job on the same
    index. *)
Definition twoJobs : registry :=
  {| mutexes := [false; false];
     cleanupMutexes := {[ "logs"%string := 0%nat ]};
     backupMutexes := {[ "logs"%string := 1%nat ]};
     handlers := [mkHandler (CleanupOf purgeJob) (Some 0%nat);
                  mkHandler (BackupOf logsJob) (Some 1%nat)] |}.

(** The backup job is running in goroutine 0 and has fired again. *)
Definition secondFiring : state :=
  {| locks := [false; true];
     goroutines := [mkGoroutine 1 InJob; mkGoroutine 1 AtTryLock];
     world := emptyDisk; warnings := []; crashed := false |}.

End Example.

(* ===================================================================== *)
(** ** The requests of a download loop, window by window *)
(* ===================================================================== *)

Module Requests.
Import Observe.
Local Open Scope Z_scope.

(** The requests that window [i] costs: its count probe and, when the probe
    answers a count other than zero, the search for that many documents. *)
Definition windowRequests (env : Env) (job : BackupJob.t) (date : Time) (i : Z)
  : list event :=
  let '(startTime, endTime) := windowAt job date i in
  let index := BackupJob.IndexName job in
  EvCount index startTime endTime ::
  match indicesCount env index startTime endTime with
  | Ok count => if count =? 0 then [] else [EvSearch index startTime endTime count]
  | Err _ => []
  end.

(** The pause after window [i] of a run of [count] windows. *)
Definition pauseAfter (env : Env) (s : Backup.Service) (job : BackupJob.t) (date : Time)
    (count i : Z) : list event :=
  match windowOutcome env s job date i with
  | Err _ => []
  | Ok _ =>
      if (i <? count - 1) && (BackupJob.RequestInterval job >? 0)
      then [EvSleep (wrap64 (BackupJob.RequestInterval job * Second))]
      else []
  end.

(** The file that window [i] leaves to be merged, with what it holds: the
    answer of the search, when the count is not zero and neither the search
    nor the writing of the file fails. *)
Definition windowFile (env : Env) (s : Backup.Service) (job : BackupJob.t) (date : Time)
    (i : Z) : option (string * list byte) :=
  let '(startTime, endTime) := windowAt job date i in
  let index := BackupJob.IndexName job in
  let filename := Backup.periodFilename s job date (i + 1) in
  match indicesCount env index startTime endTime with
  | Err _ => None
  | Ok count =>
      if count =? 0 then None
      else
        match search env index startTime endTime count with
        | Err _ => None
        | Ok resp =>
            match ioFault env (OpCreate filename), ioFault env (OpWrite filename) with
            | None, None => Some (filename, resp)
            | _, _ => None
            end
        end
  end.

(** The files of the windows of a run, in window order. *)
Definition windowFiles (env : Env) (s : Backup.Service) (now : Time) (job : BackupJob.t)
  : list (string * list byte) :=
  omap (windowFile env s job (AddDate now 0 0 (-1)))
       (seqZ 0 (24 ÷ BackupJob.IntervalHours job)).

(** An event that a backup run of [job] by the service [s] may cause. *)
Definition ofRun (s : Backup.Service) (job : BackupJob.t) (date : Time) (e : event) : Prop :=
  match e with
  | EvCount index _ _ => index = BackupJob.IndexName job
  | EvSearch index _ _ _ => index = BackupJob.IndexName job
  | EvSleep _ => True
  | EvPutObject bucket key _ _ contentType =>
      bucket = Storage.bucket (Backup.s3Client s)
      /\ key = Join [BackupJob.S3Path job;
                     Base (Backup.mergedFilename s (BackupJob.IndexName job) date ++ ".gz")]
      /\ contentType = "application/gzip"%string
  | EvDeleteByQuery _ _ => False
  end.

(** The error a merge returns when it meets the file [bad], given the files
    on disk: the missing file's own error, or the decoder's, wrapped with
    the name of the file. *)
Definition badFile (env : Env) (bad : string) (m : gmap string (list byte)) (e : error)
  : Prop :=
  match m !! bad with
  | None => e = notExist bad
  | Some c => exists cause, decodeHits env c = Err cause
                            /\ e = ErrWrap ("failed to decode JSON from " ++ bad) cause
  end.

End Requests.

(* ===================================================================== *)
(** ** internal/config: [LoadConfig] *)
(* ===================================================================== *)

Module Config.
Local Open Scope string_scope.

Record OpenSearchConfig := mkOpenSearchConfig {
  Addresses : list string;
  Username : string;
  Password : string;
  CertPath : string
}.

Record S3Config := mkS3Config {
  Endpoint : string;
  AccessKeyID : string;
  SecretAccessKey : string;
  Bucket : string;
  Region : string;
  UseSSL : bool
}.

Record t := mk {
  OpenSearch : OpenSearchConfig;
  S3 : S3Config;
  CleanupJobs : list CleanupJob.t;
  BackupJobs : list BackupJob.t
}.

(** [os.Getenv]: the value of the variable, empty when it is not set. *)
Definition Getenv (environ : gmap string string) (key : string) : string :=
  default "" (environ !! key).

Definition getEnv (environ : gmap string string) (key defaultValue : string) : string :=
  let value := Getenv environ key in
  if String.eqb value "" then defaultValue else value.

(** [LoadConfig]. What [yaml.Unmarshal] makes of the bytes of the file is
    given by [unmarshal]; the assignments to the fields of [cfg] are written
    as the values the fields end with. *)
Definition LoadConfig (unmarshal : list byte -> result t) (environ : gmap string string)
    (env : Env) : M (result t) :=
  let configPath := getEnv environ "CONFIG_PATH" "/app/config/config.yaml" in
  do data <- readFile env configPath;
  match data with
  | Err e => ret (Err (ErrWrap "failed to read config file" e))
  | Ok bytes =>
      match unmarshal bytes with
      | Err e => ret (Err (ErrWrap "failed to parse config" e))
      | Ok cfg =>
          let set (name : string) (current : string) : string :=
            let val := Getenv environ name in
            if String.eqb val "" then current else val in
          ret (Ok
            {| OpenSearch :=
                 {| Addresses :=
                      (let val := Getenv environ "OPENSEARCH_ADDRESSES" in
                       if String.eqb val "" then Addresses (OpenSearch cfg) else [val]);
                    Username := set "OPENSEARCH_USERNAME" (Username (OpenSearch cfg));
                    Password := set "OPENSEARCH_PASSWORD" (Password (OpenSearch cfg));
                    CertPath := set "OPENSEARCH_CERT_PATH" (CertPath (OpenSearch cfg)) |};
               S3 :=
                 {| Endpoint := set "S3_ENDPOINT" (Endpoint (S3 cfg));
                    AccessKeyID := set "S3_ACCESS_KEY_ID" (AccessKeyID (S3 cfg));
                    SecretAccessKey :=
                      set "S3_SECRET_ACCESS_KEY" (SecretAccessKey (S3 cfg));
                    Bucket := set "S3_BUCKET" (Bucket (S3 cfg));
                    Region := set "S3_REGION" (Region (S3 cfg));
                    UseSSL := UseSSL (S3 cfg) |};
               CleanupJobs := CleanupJobs cfg;
               BackupJobs := BackupJobs cfg |})
      end
  end.

End Config.

(* ===================================================================== *)
(** ** [Time.Format] with the layout [time.RFC3339] *)
(* ===================================================================== *)

Module GoFormat.
Local Open Scope string_scope.

(** [appendInt] of package [time]: the number in decimal, a minus sign
    first when it is negative, its digits filled up with zeros on the left
    to [width] places. *)
Definition appendInt (x : Z) (width : nat) : string :=
  let digits := itoa (Z.abs x) in
  (if (x <? 0)%Z then "-" else "")
  ++ repeatStr (width - String.length digits) "0" ++ digits.

(** The layout element [Z07:00]: [Z] at offset zero, else the sign, the
    hours and the minutes of the offset. *)
Definition zoneText (offset : Z) : string :=
  if (offset =? 0)%Z then "Z"
  else
    let zone := (offset ÷ 60)%Z in
    (if (zone <? 0)%Z then "-" else "+")
    ++ appendInt (Z.abs zone ÷ 60) 2 ++ ":" ++ appendInt (Z.rem (Z.abs zone) 60) 2.

(** [t.Format(time.RFC3339)], the layout [2006-01-02T15:04:05Z07:00]. *)
Definition formatRFC3339 (t : Time) : string :=
  appendInt (Year t) 4 ++ "-" ++ appendInt (Month t) 2 ++ "-" ++ appendInt (Day t) 2
  ++ "T" ++ appendInt (Hour t) 2 ++ ":" ++ appendInt (Minute t) 2 ++ ":"
  ++ appendInt (Sec t) 2 ++ zoneText (zoneOffset t).

(** The two instants as [getCount] and [searchAndSave] write them into the
    body of their request, in the places of [gte] and [lte]. *)
Definition rangeTexts (startTime endTime : Time) : string * string :=
  (formatRFC3339 startTime, formatRFC3339 endTime).

End GoFormat.

(* ===================================================================== *)
(** * Properties *)
(* ===================================================================== *)

(** ** The calendar *)

Module CalendarFacts.
Import Calendar.
Local Open Scope Z_scope.

(** Linear arithmetic with quotients and remainders by constants. *)
Ltac divlia := Z.div_mod_to_equations; lia.

Lemma isLeap_true y : isLeap y = true <-> (y mod 4 = 0 /\ (y mod 100 <> 0 \/ y mod 400 = 0)).
Proof.
  unfold isLeap. rewrite andb_true_iff, orb_true_iff, negb_true_iff, !Z.eqb_eq, Z.eqb_neq. tauto.
Qed.

Lemma isLeap_false y : isLeap y = false <-> ~ (y mod 4 = 0 /\ (y mod 100 <> 0 \/ y mod 400 = 0)).
Proof. rewrite <- isLeap_true. destruct (isLeap y); intuition congruence. Qed.




Ltac leap_cases y :=
  let E := fresh "E" in
  destruct (isLeap y) eqn:E; [apply isLeap_true in E | apply isLeap_false in E].





(** The year of a day of an era, and the day of that year, are in range;
    a 366th day occurs only before a leap year's March. *)
Lemma era_day_bounds doe : 0 <= doe < 146097 ->
  let yoe := (doe - doe / 1460 + doe / 36524 - doe / 146096) / 365 in
  let doy := doe - (365 * yoe + yoe / 4 - yoe / 100) in
  0 <= yoe <= 399 /\ 0 <= doy <= 364 + (if isLeap (yoe + 1) then 1 else 0).
Proof.
  intros H. cbv zeta.
  match goal with |- context [isLeap ?y] => leap_cases y end; divlia.
Qed.

(** The day number of the civil date of a day number is that number. *)
Lemma days_of_civil_of_days n : let '(y, m, d) := civilFromDays n in daysFromCivil y m d = n.
Proof.
  unfold civilFromDays, civilOfEraDay.
  set (z := n + 719468).
  assert (Hdoe : 0 <= z mod 146097 < 146097) by (apply Z.mod_pos_bound; lia).
  pose proof (era_day_bounds _ Hdoe) as Hb. cbv zeta in Hb.
  set (doe := z mod 146097) in *.
  set (yoe := (doe - doe / 1460 + doe / 36524 - doe / 146096) / 365) in *.
  set (doy := doe - (365 * yoe + yoe / 4 - yoe / 100)) in *.
  assert (Hb' : 0 <= yoe <= 399 /\ 0 <= doy <= 365)
    by (destruct (isLeap (yoe + 1)); lia).
  clear Hb.
  set (mp := (5 * doy + 2) / 153).
  assert (Hmp : 0 <= mp <= 11) by (subst mp; divlia).
  unfold daysFromCivil.
  destruct (mp <? 10) eqn:E1; [apply Z.ltb_lt in E1 | apply Z.ltb_ge in E1];
  match goal with |- context [?a <=? 2] => destruct (a <=? 2) eqn:E2; [apply Z.leb_le in E2 | apply Z.leb_gt in E2] end;
  try lia.
  all: cbv zeta.
  all: try (replace ((mp + 3 - 1) mod 12 + 1) with (mp + 3) by divlia).
  all: try (replace ((mp - 9 - 1) mod 12 + 1) with (mp - 9) by divlia).
  all: try (replace ((mp + 3 - 1) / 12) with 0 by divlia).
  all: try (replace ((mp - 9 - 1) / 12) with 0 by divlia).
  all: repeat match goal with |- context [?a <=? 2] => destruct (a <=? 2) eqn:?E; [apply Z.leb_le in E | apply Z.leb_gt in E] end; try lia.
  all: repeat match goal with |- context [?a >? 2] => destruct (Z.gtb_spec a 2) end; try lia.
  all: subst doy; divlia.
Qed.









End CalendarFacts.

(** ** Traces *)

Module TraceFacts.
Import Observe.

Lemma emits_ret {A} P (a : A) : emits P (ret a).
Proof. intros w. exists []. cbn. by rewrite app_nil_r. Qed.

Lemma emits_bind {A B} P (m : M A) (k : A -> M B) :
  emits P m -> (forall a, emits P (k a)) -> emits P (bind m k).
Proof.
  intros Hm Hk w. unfold bind. destruct (Hm w) as (l1 & E1 & F1).
  destruct (m w) as [a w1]. cbn in E1.
  destruct (Hk a w1) as (l2 & E2 & F2).
  exists (l1 ++ l2). rewrite E2, E1, app_assoc. split; [done|]. by apply Forall_app.
Qed.

Lemma emits_emit (P : event -> Prop) e : P e -> emits P (emit e).
Proof. intros H w. exists [e]. cbn. split; [done|]. by constructor. Qed.

Lemma emits_weaken {A} (P Q : event -> Prop) (m : M A) :
  (forall e, P e -> Q e) -> emits P m -> emits Q m.
Proof.
  intros H Hm w. destruct (Hm w) as (l & E & F). exists l. split; [done|].
  eapply Forall_impl; eauto.
Qed.

(** Operations on files add nothing to the trace. *)
Lemma silent_emits {A} P (m : M A) :
  (forall w, trace (snd (m w)) = trace w) -> emits P m.
Proof. intros H w. exists []. rewrite H, app_nil_r. by split. Qed.

Lemma emits_setFile P path c : emits P (setFile path c).
Proof. by apply silent_emits. Qed.

Lemma emits_osCreate P env path : emits P (osCreate env path).
Proof. apply silent_emits. intros w. unfold osCreate. by destruct (ioFault _ _). Qed.

Lemma emits_readFile P env path : emits P (readFile env path).
Proof.
  apply silent_emits. intros w. unfold readFile.
  destruct (ioFault _ _); [done|]. by destruct (fs w !! path).
Qed.

Lemma emits_appendFile P env path b : emits P (appendFile env path b).
Proof. apply silent_emits. intros w. unfold appendFile. by destruct (ioFault _ _). Qed.

Lemma emits_osRemove P path : emits P (osRemove path).
Proof. by apply silent_emits. Qed.

Lemma emits_statSize P env path : emits P (statSize env path).
Proof.
  apply silent_emits. intros w. unfold statSize.
  destruct (ioFault _ _); [done|]. by destruct (fs w !! path).
Qed.

Create HintDb emits discriminated.
#[export] Hint Resolve emits_ret emits_setFile emits_osCreate emits_readFile
  emits_appendFile emits_osRemove emits_statSize : emits.

(** Splits a computation along its binds and case distinctions, leaving
    the events it emits to [eauto]. *)
Ltac emits_step :=
  lazymatch goal with
  | |- emits _ (bind _ _) => apply emits_bind; [|intros ?]
  | |- emits _ (match ?x with _ => _ end) => destruct x
  | |- emits _ (emit _) => apply emits_emit; cbn; try done
  | |- emits _ _ => solve [eauto with emits]
  end.
Ltac emits_tac := repeat emits_step.

Lemma newEvents_app w w' l : trace w' = trace w ++ l -> newEvents w w' = l.
Proof. intros E. unfold newEvents. rewrite E. by rewrite drop_app_length. Qed.

Lemma probeWindows_app l1 l2 :
  probeWindows (l1 ++ l2) = probeWindows l1 ++ probeWindows l2.
Proof. apply omap_app. Qed.

Lemma probeWindows_none l : Forall (fun e => isCount e = false) l -> probeWindows l = [].
Proof.
  induction 1 as [|e l He _ IH]; [done|]. unfold probeWindows in *. cbn.
  destruct e; try discriminate; cbn; exact IH.
Qed.

End TraceFacts.

(** ** The backup run: which windows are probed *)

Module PlannerFacts.
Import Observe TraceFacts Backup CalendarFacts.
Local Open Scope Z_scope.

Lemma emits_searchAndSave env idx st en size filename :
  emits (fun e => isCount e = false) (searchAndSave env idx st en size filename).
Proof. unfold searchAndSave. emits_tac. Qed.

Lemma emits_uploadAttempts P env c filePath key size ct n attempt lastErr :
  (forall e, isPut e = true \/ isSleep e = true -> P e) ->
  emits P (Storage.uploadAttempts env c filePath key size ct n attempt lastErr).
Proof.
  intros HP. revert attempt lastErr.
  induction n as [|n IH]; intros attempt lastErr; cbn [Storage.uploadAttempts].
  - emits_tac.
  - apply emits_bind; [eauto with emits|]. intros [content|e]; [|emits_tac].
    apply emits_bind; [apply emits_emit, HP; by left|]. intros _.
    destruct (putObject env attempt _ _); [|emits_tac].
    apply emits_bind; [|intros _; apply IH].
    destruct (attempt <? Storage.maxRetries); [|emits_tac].
    apply emits_emit, HP. by right.
Qed.

Lemma emits_Upload P env c filePath key n :
  (forall e, isPut e = true \/ isSleep e = true -> P e) ->
  emits P (Storage.Upload env c filePath key n).
Proof.
  intros HP. unfold Storage.Upload.
  apply emits_bind; [eauto with emits|]. intros [size|e]; [|emits_tac].
  by apply emits_uploadAttempts.
Qed.

Lemma emits_mergeLoop P env merged files total :
  emits P (mergeLoop env merged files total).
Proof.
  revert total. induction files as [|f files IH]; intros total; cbn [mergeLoop].
  - emits_tac.
  - apply emits_bind; [eauto with emits|]. intros [content|e]; [|emits_tac].
    destruct (decodeHits env content); [|emits_tac].
    apply emits_bind; [eauto with emits|]. intros [e|]; [emits_tac|]. apply IH.
Qed.

Lemma emits_mergeFiles P env s files idx date :
  emits P (mergeFiles env s files idx date).
Proof.
  unfold mergeFiles. apply emits_bind; [eauto with emits|].
  intros [e|]; [emits_tac|].
  apply emits_bind; [apply emits_mergeLoop|]. intros [total|e]; emits_tac.
Qed.

Lemma emits_compressFile P env filename : emits P (compressFile env filename).
Proof. unfold compressFile. emits_tac. Qed.

Lemma emits_cleanup P files merged compressed : emits P (cleanup files merged compressed).
Proof.
  unfold cleanup. apply emits_bind; [|intros; eauto with emits].
  induction files as [|f files IH]; cbn [fold_right]; [emits_tac|].
  apply emits_bind; [eauto with emits|]. intros _. exact IH.
Qed.

Lemma emits_deliver env s job date files :
  emits (fun e => isPut e = true \/ isSleep e = true) (deliver env s job date files).
Proof.
  unfold deliver. destruct (length files =? 0)%nat; [emits_tac|].
  apply emits_bind; [apply emits_mergeFiles|]. intros [[mergedFile total]|e]; [|emits_tac].
  apply emits_bind; [apply emits_compressFile|]. intros [compressed|e]; [|emits_tac].
  apply emits_bind; [by apply emits_Upload|]. intros [e|]; [emits_tac|].
  apply emits_bind; [apply emits_cleanup|]. intros _. emits_tac.
Qed.

(** A window costs one count request, and at most a search after it. *)
Lemma downloadPeriod_trace env s job date sh eh num w :
  exists l,
    trace (snd (downloadPeriod env s job date sh eh num w))
    = trace w ++ EvCount (BackupJob.IndexName job)
                         (fst (windowBounds date sh eh)) (snd (windowBounds date sh eh)) :: l
    /\ Forall (fun e => isCount e = false) l.
Proof.
  unfold downloadPeriod. destruct (windowBounds date sh eh) as [st en]. cbn [fst snd].
  unfold getCount, bind at 1 2, emit, ret at 1. cbn [fst snd trace].
  destruct (indicesCount env _ st en) as [count|e].
  - destruct (count =? 0).
    + exists []. cbn. by split.
    + unfold bind.
      destruct (emits_searchAndSave env (BackupJob.IndexName job) st en count
                  (periodFilename s job date num)
                  {| fs := fs w; trace := trace w ++ [EvCount (BackupJob.IndexName job) st en] |})
        as (l & E & F).
      destruct (searchAndSave _ _ _ _ _ _ _) as [saved w1]. cbn in E.
      exists l. split; [|done].
      destruct saved; cbn; rewrite E, <- app_assoc; done.
  - exists []. cbn. by split.
Qed.

Lemma probeWindows_count idx a b l :
  probeWindows (EvCount idx a b :: l) = (a, b) :: probeWindows l.
Proof. reflexivity. Qed.

Lemma downloadPeriod_probes env s job date sh eh num w :
  probeWindows (trace (snd (downloadPeriod env s job date sh eh num w)))
  = probeWindows (trace w) ++ [windowBounds date sh eh].
Proof.
  destruct (downloadPeriod_trace env s job date sh eh num w) as (l & E & F).
  rewrite E, probeWindows_app. f_equal.
  rewrite probeWindows_count, (probeWindows_none l F).
  by destruct (windowBounds date sh eh).
Qed.

Lemma downloadLoop_probes env s job date count n i files w :
  probeWindows (trace (snd (downloadLoop env s job date count n i files w)))
  = probeWindows (trace w) ++ map (windowAt job date) (seqZ i (Z.of_nat n)).
Proof.
  revert i files w. induction n as [|n IH]; intros i files w.
  - cbn. by rewrite app_nil_r.
  - cbn [downloadLoop]. unfold bind at 1.
    pose proof (downloadPeriod_probes env s job date
                  (i * BackupJob.IntervalHours job)
                  (i * BackupJob.IntervalHours job + BackupJob.IntervalHours job)
                  (i + 1) w) as Hp.
    destruct (downloadPeriod _ _ _ _ _ _ _ w) as [downloaded w1]. cbn [snd] in Hp.
    replace (seqZ i (Z.of_nat (S n))) with (i :: seqZ (i + 1) (Z.of_nat n))
      by (rewrite (seqZ_cons i (Z.of_nat (S n))) by lia; do 2 f_equal; lia).
    cbn [map]. destruct downloaded as [filename|e].
    + unfold bind.
      match goal with |- context [(if ?c then emit ?e else ret tt) w1] =>
        assert (probeWindows (trace (snd ((if c then emit e else ret tt) w1)))
                = probeWindows (trace w1)) as Hs
          by (destruct c; cbn; [rewrite probeWindows_app; cbn; apply app_nil_r | done]);
        destruct ((if c then emit e else ret tt) w1) as [[] w2]
      end.
      cbn [snd] in Hs. rewrite IH, Hs, Hp, <- app_assoc. done.
    + rewrite IH, Hp, <- app_assoc. done.
Qed.

Lemma emits_downloadPeriod env s job date sh eh num :
  emits (fun e => isCount e = true \/ isSearch e = true)
        (downloadPeriod env s job date sh eh num).
Proof.
  unfold downloadPeriod. destruct (windowBounds date sh eh) as [st en].
  unfold getCount, searchAndSave.
  repeat first [ apply emits_emit; cbn; by auto | emits_step ].
Qed.

Lemma emits_downloadLoop env s job date count n i files :
  emits (fun e => isPut e = false) (downloadLoop env s job date count n i files).
Proof.
  revert i files. induction n as [|n IH]; intros i files; cbn [downloadLoop].
  - emits_tac.
  - apply emits_bind.
    { eapply emits_weaken; [|apply emits_downloadPeriod].
      intros [] [H|H]; done. }
    intros [filename|e]; [|apply IH].
    apply emits_bind; [|intros _; apply IH].
    destruct (_ && _); emits_tac.
Qed.

(** The windows of a run are those of the loop iterations 0, 1, ... up to
    the quotient of 24 by the interval. *)
Lemma backupWindows_planned env s now job w :
  BackupJob.IntervalHours job <> 0 ->
  backupWindows env s now job w
  = map (windowAt job (AddDate now 0 0 (-1))) (seqZ 0 (24 ÷ BackupJob.IntervalHours job)).
Proof.
  intros HI. unfold backupWindows, Backup.
  destruct (Z.eqb_spec (BackupJob.IntervalHours job) 0) as [|_]; [done|].
  set (date := AddDate now 0 0 (-1)). set (count := 24 ÷ BackupJob.IntervalHours job).
  unfold bind.
  pose proof (downloadLoop_probes env s job date count (Z.to_nat count) 0 [] w) as Hp.
  destruct (emits_downloadLoop env s job date count (Z.to_nat count) 0 [] w) as (l1 & E1 & _).
  destruct (downloadLoop _ _ _ _ _ _ _ _ w) as [files w1]. cbn [snd] in Hp, E1.
  destruct (emits_deliver env s job date files w1) as (l2 & E2 & F2).
  destruct (deliver _ _ _ _ _ w1) as [err w2]. unfold ret. cbn [snd] in E2 |- *.
  rewrite (newEvents_app w w2 (l1 ++ l2)) by (rewrite E2, E1, app_assoc; done).
  rewrite E1, probeWindows_app in Hp. apply app_inv_head in Hp.
  rewrite probeWindows_app, Hp, probeWindows_none, app_nil_r.
  - f_equal. destruct (Z.le_gt_cases 0 count).
    + by rewrite Z2Nat.id.
    + rewrite Z2Nat.nonpos by lia. unfold seqZ. rewrite (Z2Nat.nonpos count) by lia. done.
  - eapply Forall_impl; [exact F2|]. intros [] [H|H]; done.
Qed.

Lemma dayStart_civil t :
  daysFromCivil (Year t) (Month t) (Day t) = dayNumber t.
Proof.
  unfold Year, Month, Day, date.
  pose proof (days_of_civil_of_days (dayNumber t)) as H.
  by destruct (civilFromDays (dayNumber t)) as [[y m] d].
Qed.

Lemma windowBounds_start t sh eh :
  unixNano (fst (windowBounds t sh eh)) = dayStart t + sh * 3600 * Second.
Proof.
  unfold windowBounds, Date, dayStart, nanosPerDay, secondsPerDay, UTC.
  cbv zeta. cbn [fst snd unixNano].
  rewrite dayStart_civil. unfold Second. lia.
Qed.

Lemma windowBounds_end t sh eh :
  unixNano (snd (windowBounds t sh eh))
  = if eh >=? 24 then msOfDay t 86399999
    else dayStart t + eh * 3600 * Second - Millisecond.
Proof.
  unfold windowBounds, Date, Add, msOfDay, dayStart, nanosPerDay, secondsPerDay, UTC.
  cbv zeta. destruct (eh >=? 24); cbn [fst snd unixNano];
    rewrite dayStart_civil; unfold Second, Millisecond; lia.
Qed.

Lemma planned_lookup job t n k a :
  map (windowAt job t) (seqZ 0 n) !! k = Some a
  <-> a = windowAt job t (Z.of_nat k) /\ Z.of_nat k < n.
Proof.
  change (map (windowAt job t) (seqZ 0 n)) with (windowAt job t <$> seqZ 0 n).
  rewrite list_lookup_fmap. split.
  - intros H. destruct (seqZ 0 n !! k) as [x|] eqn:E; [|done].
    apply lookup_seqZ in E as [-> ?]. cbn in H. split; [|done].
    injection H as <-. f_equal.
  - intros [-> H]. rewrite (proj2 (lookup_seqZ 0 n k (Z.of_nat k))) by (split; [lia|done]).
    done.
Qed.

Lemma planned_length job t n :
  length (map (windowAt job t) (seqZ 0 n)) = Z.to_nat n.
Proof. by rewrite length_map, length_seqZ. Qed.

(** Where window [k] starts and ends, in nanoseconds after midnight. *)
Lemma windowAt_start job t k :
  unixNano (fst (windowAt job t k))
  = dayStart t + k * BackupJob.IntervalHours job * 3600 * Second.
Proof. unfold windowAt. by rewrite windowBounds_start. Qed.

Lemma windowAt_end job t k :
  unixNano (snd (windowAt job t k))
  = if (k + 1) * BackupJob.IntervalHours job >=? 24 then msOfDay t 86399999
    else dayStart t + (k + 1) * BackupJob.IntervalHours job * 3600 * Second - Millisecond.
Proof.
  unfold windowAt. rewrite windowBounds_end.
  replace (k * BackupJob.IntervalHours job + BackupJob.IntervalHours job)
    with ((k + 1) * BackupJob.IntervalHours job) by lia.
  done.
Qed.

Section EvenDivision.
Variables (job : BackupJob.t) (t : Time).
Let I := BackupJob.IntervalHours job.
Let n := 24 / I.
Let ws := map (windowAt job t) (seqZ 0 n).
Hypothesis HI : 0 < I.
Hypothesis Hdiv : 24 mod I = 0.

Lemma even_count : 24 = n * I /\ 0 < n.
Proof.
  assert (24 = I * n) by (apply Z.div_exact; lia).
  split; [lia|]. destruct (Z.le_gt_cases n 0); [|done].
  assert (I * n <= I * 0) by (apply Z.mul_le_mono_nonneg_l; lia). lia.
Qed.

Lemma even_hours k : 0 <= k < n -> 0 <= k * I /\ (k + 1) * I <= 24.
Proof.
  intros Hk. split; [apply Z.mul_nonneg_nonneg; lia|].
  rewrite (proj1 even_count). apply Z.mul_le_mono_nonneg_r; lia.
Qed.

Lemma even_contiguous k a b :
  ws !! k = Some a -> ws !! S k = Some b ->
  unixNano (snd a) + Millisecond = unixNano (fst b).
Proof.
  intros Ha Hb. apply planned_lookup in Ha as [-> Hk], Hb as [-> Hk'].
  rewrite windowAt_end, windowAt_start. fold I.
  destruct (even_hours (Z.of_nat k + 1) ltac:(lia)) as [_ Hm].
  destruct (Z.geb_spec ((Z.of_nat k + 1) * I) 24); [lia|].
  replace (Z.of_nat (S k)) with (Z.of_nat k + 1) by lia. lia.
Qed.

Lemma even_first : exists a, head ws = Some a /\ unixNano (fst a) = msOfDay t 0.
Proof.
  pose proof even_count as [_ Hn].
  exists (windowAt job t (Z.of_nat 0)). rewrite head_lookup.
  split; [apply planned_lookup; split; [reflexivity|lia]|].
  rewrite windowAt_start. unfold msOfDay. lia.
Qed.

Lemma even_last : exists b, last ws = Some b /\ unixNano (snd b) = msOfDay t 86399999.
Proof.
  pose proof even_count as [Hn Hn0].
  exists (windowAt job t (Z.of_nat (Nat.pred (Z.to_nat n)))).
  rewrite last_lookup. unfold ws at 1. rewrite planned_length.
  split; [apply planned_lookup; split; [reflexivity|lia]|].
  rewrite windowAt_end. fold I.
  replace (Z.of_nat (Nat.pred (Z.to_nat n)) + 1) with n by lia.
  destruct (Z.geb_spec (n * I) 24); [reflexivity|lia].
Qed.

Lemma even_inside x a :
  a ∈ ws -> inWindow x a -> msOfDay t 0 <= x <= msOfDay t 86399999.
Proof.
  intros Ha Hin. apply list_elem_of_lookup in Ha as [k Ha].
  apply planned_lookup in Ha as [-> Hk].
  unfold inWindow in Hin. rewrite windowAt_start, windowAt_end in Hin. fold I in Hin.
  unfold msOfDay, Millisecond, Second in *.
  destruct (even_hours (Z.of_nat k) ltac:(lia)) as [Hm0 Hm1].
  destruct (Z.geb_spec ((Z.of_nat k + 1) * I) 24); lia.
Qed.

Lemma even_cover ms :
  0 <= ms < 86400000 ->
  exists k a, ws !! k = Some a /\ inWindow (msOfDay t ms) a /\
    forall k' a', ws !! k' = Some a' -> inWindow (msOfDay t ms) a' -> k' = k.
Proof.
  intros Hms. pose proof even_count as [Hn Hn0].
  assert (HL : 0 < I * 3600000) by lia.
  pose proof (Z.div_mod ms (I * 3600000) ltac:(lia)) as Hdm.
  pose proof (Z.mod_pos_bound ms (I * 3600000) HL) as Hmb.
  set (q := ms / (I * 3600000)) in *. set (r := ms mod (I * 3600000)) in *.
  assert (Hq0 : 0 <= q) by (subst q; apply Z.div_pos; lia).
  assert (Hqn : q < n).
  { apply Z.div_lt_upper_bound; [lia|]. lia. }
  destruct (even_hours q ltac:(lia)) as [Hq1 Hq2].
  exists (Z.to_nat q), (windowAt job t q).
  split; [apply planned_lookup; rewrite Z2Nat.id by lia; split; [reflexivity|lia]|].
  split.
  - unfold inWindow. rewrite windowAt_start, windowAt_end. fold I.
    unfold msOfDay, Millisecond, Second.
    destruct (Z.geb_spec ((q + 1) * I) 24); lia.
  - intros k' a' Ha' Hin. apply planned_lookup in Ha' as [-> Hk'].
    unfold inWindow in Hin. rewrite windowAt_start, windowAt_end in Hin. fold I in Hin.
    unfold msOfDay, Millisecond, Second in Hin.
    destruct (even_hours (Z.of_nat k') ltac:(lia)) as [Hm0 Hm1].
    assert (Z.of_nat k' = q); [|lia].
    apply (Z.div_unique ms (I * 3600000) (Z.of_nat k') (ms - I * 3600000 * Z.of_nat k')); [|lia].
    left. destruct (Z.geb_spec ((Z.of_nat k' + 1) * I) 24); lia.
Qed.

End EvenDivision.

(** C2. When the interval divides 24 (that is, for 1, 2, 3, 4, 6, 8, 12
    and 24 hours), a backup run probes exactly 24/interval windows; each
    window ends one millisecond before the next one starts; the first starts
    at 00:00:00.000 and the last ends at 23:59:59.999 of the target day;
    every millisecond of that day lies in exactly one window, and no window
    reaches outside the day. *)
Theorem planner_even_division env s now job w :
  let I := BackupJob.IntervalHours job in
  let target := AddDate now 0 0 (-1) in
  let ws := backupWindows env s now job w in
  0 < I -> 24 mod I = 0 ->
  length ws = Z.to_nat (24 / I)
  /\ (forall k a b, ws !! k = Some a -> ws !! S k = Some b ->
        unixNano (snd a) + Millisecond = unixNano (fst b))
  /\ (exists a, head ws = Some a /\ unixNano (fst a) = msOfDay target 0)
  /\ (exists b, last ws = Some b /\ unixNano (snd b) = msOfDay target 86399999)
  /\ (forall ms, 0 <= ms < 86400000 ->
        exists k a, ws !! k = Some a /\ inWindow (msOfDay target ms) a /\
          forall k' a', ws !! k' = Some a' -> inWindow (msOfDay target ms) a' -> k' = k)
  /\ (forall x a, a ∈ ws -> inWindow x a ->
        msOfDay target 0 <= x <= msOfDay target 86399999).
Proof.
  intros I target ws HI Hdiv. subst ws.
  rewrite backupWindows_planned by (fold I; lia).
  fold I. rewrite Z.quot_div_nonneg by lia. fold target.
  split; [apply planned_length|].
  split; [apply (even_contiguous job target HI Hdiv)|].
  split; [apply (even_first job target HI Hdiv)|].
  split; [apply (even_last job target HI Hdiv)|].
  split; [apply (even_cover job target HI Hdiv)|].
  apply (even_inside job target HI Hdiv).
Qed.

Lemma planner_even_division_witness :
  length (backupWindows Example.busyIndex Example.service Example.morning Example.logsJob
            Example.emptyDisk) = 12%nat
  /\ exists b, last (backupWindows Example.busyIndex Example.service Example.morning
                      Example.logsJob Example.emptyDisk) = Some b
               /\ unixNano (snd b)
                  = msOfDay (AddDate Example.morning 0 0 (-1)) 86399999.
Proof.
  destruct (planner_even_division Example.busyIndex Example.service Example.morning
              Example.logsJob Example.emptyDisk) as (Hlen & _ & _ & Hlast & _).
  - reflexivity.
  - reflexivity.
  - split; [exact Hlen|exact Hlast].
Defined.

Lemma divisors_of_24 i :
  0 < i /\ 24 mod i = 0 <-> In i [1; 2; 3; 4; 6; 8; 12; 24].
Proof.
  split.
  - intros [Hi Hm]. assert (i <= 24).
    { destruct (Z.le_gt_cases i 24); [done|]. rewrite Z.mod_small in Hm; lia. }
    assert (Hc : i = 1 \/ i = 2 \/ i = 3 \/ i = 4 \/ i = 5 \/ i = 6 \/ i = 7 \/ i = 8 \/
                 i = 9 \/ i = 10 \/ i = 11 \/ i = 12 \/ i = 13 \/ i = 14 \/ i = 15 \/
                 i = 16 \/ i = 17 \/ i = 18 \/ i = 19 \/ i = 20 \/ i = 21 \/ i = 22 \/
                 i = 23 \/ i = 24) by lia.
    repeat (destruct Hc as [->|Hc]; [first [discriminate Hm | cbn; tauto]|]).
    subst i. cbn. tauto.
  - cbn. intros [<-|[<-|[<-|[<-|[<-|[<-|[<-|[<-|[]]]]]]]]]; split; (lia || reflexivity).
Qed.

Lemma interval5_windows job t :
  BackupJob.IntervalHours job = 5 ->
  let ws := map (windowAt job t) (seqZ 0 4) in
  (exists b, last ws = Some b /\ unixNano (snd b) = msOfDay t 71999999)
  /\ (forall a, a ∈ ws -> ~ inWindow (msOfDay t 72000000) a).
Proof.
  intros H5 ws. split.
  - exists (windowAt job t (Z.of_nat 3)). unfold ws. rewrite last_lookup, planned_length.
    split; [apply planned_lookup; split; [reflexivity|lia]|].
    rewrite windowAt_end, H5. unfold msOfDay, Millisecond, Second.
    destruct (Z.geb_spec ((Z.of_nat 3 + 1) * 5) 24); lia.
  - intros a Ha Hin. apply list_elem_of_lookup in Ha as [k Ha].
    apply planned_lookup in Ha as [-> Hk].
    unfold inWindow in Hin. rewrite windowAt_start, windowAt_end, H5 in Hin.
    unfold msOfDay, Millisecond, Second in Hin.
    destruct (Z.geb_spec ((Z.of_nat k + 1) * 5) 24); lia.
Qed.

(** Whatever the interval, a run probes as many windows as the truncated
    quotient of 24 by the interval says. *)
Lemma planner_count env s now job w :
  BackupJob.IntervalHours job <> 0 ->
  length (backupWindows env s now job w) = Z.to_nat (24 ÷ BackupJob.IntervalHours job).
Proof. intros HI. rewrite backupWindows_planned by done. apply planned_length. Qed.

(** C1, at the interval of 5 hours. The run probes 4 windows, not the 5
    that the rounded-up quotient asks for; the last one ends at
    19:59:59.999, and 20:00:00.000 of the target day is in no window. *)
Theorem planner_interval5_truncated env s now idx sched path pause w :
  let job := BackupJob.mk idx sched 5 path pause in
  let target := AddDate now 0 0 (-1) in
  let ws := backupWindows env s now job w in
  length ws = 4%nat
  /\ (exists b, last ws = Some b /\ unixNano (snd b) = msOfDay target 71999999)
  /\ (forall a, a ∈ ws -> ~ inWindow (msOfDay target 72000000) a).
Proof.
  intros job target ws.
  assert (Hws : ws = map (windowAt job target) (seqZ 0 4)).
  { unfold ws. rewrite backupWindows_planned; [reflexivity|discriminate]. }
  rewrite Hws. split; [apply planned_length|].
  apply interval5_windows. reflexivity.
Qed.

End PlannerFacts.

(** ** The uploader *)

Module UploadFacts.
Import Observe TraceFacts Storage.
Local Open Scope Z_scope.

Lemma addEvents_nil w : addEvents w [] = w.
Proof. destruct w. unfold addEvents. cbn. by rewrite app_nil_r. Qed.

Lemma addEvents_app w l1 l2 : addEvents (addEvents w l1) l2 = addEvents w (l1 ++ l2).
Proof. unfold addEvents. cbn. by rewrite app_assoc. Qed.

Section OneFile.
Variables (env : Env) (c : S3Client) (filePath key : string) (content : list byte).
Hypothesis Hstat : ioFault env (OpStat filePath) = None.
Hypothesis Hopen : ioFault env (OpOpen filePath) = None.

Let size := Z.of_nat (length content).
Let contentType : string :=
  if String.eqb (Ext filePath) ".json" then "application/json" else "application/gzip".
Let put := EvPutObject (bucket c) key content size contentType.

(** One turn of the loop: the request, then either the return or the wait
    and the next turn. *)
Lemma uploadAttempts_step n attempt lastErr w :
  fs w !! filePath = Some content ->
  uploadAttempts env c filePath key size contentType (S n) attempt lastErr w
  = match putObject env attempt (bucket c) key with
    | None => (None, addEvents w [put])
    | Some e =>
        uploadAttempts env c filePath key size contentType n (attempt + 1) (Some e)
          (addEvents w (put :: if attempt <? maxRetries
                               then [EvSleep (baseDelay * attempt)] else []))
    end.
Proof.
  intros Hf. cbn [uploadAttempts]. unfold bind at 1, readFile. rewrite Hopen, Hf.
  unfold bind at 1, emit. cbn [fs trace].
  destruct (putObject env attempt (bucket c) key) as [e|]; [|reflexivity].
  unfold bind. destruct (attempt <? maxRetries); cbn.
  - unfold addEvents. cbn. by rewrite <- app_assoc.
  - reflexivity.
Qed.

Lemma Upload_start n w :
  fs w !! filePath = Some content ->
  Upload env c filePath key n w
  = uploadAttempts env c filePath key size contentType 3 1 None w.
Proof.
  intros Hf. unfold Upload, bind, statSize. rewrite Hstat, Hf. reflexivity.
Qed.

End OneFile.

(** However the store and the file system answer, an upload asks the store
    at most [maxRetries] times. *)
Lemma putCount_app l1 l2 : putCount (l1 ++ l2) = (putCount l1 + putCount l2)%nat.
Proof. unfold putCount. by rewrite List.filter_app, length_app. Qed.

Lemma uploadAttempts_bounded env c filePath key size ct n attempt lastErr w :
  exists l, trace (snd (uploadAttempts env c filePath key size ct n attempt lastErr w))
            = trace w ++ l
            /\ (putCount l <= n)%nat.
Proof.
  revert attempt lastErr w. induction n as [|n IH]; intros attempt lastErr w.
  - exists []. cbn. rewrite app_nil_r. split; [done|lia].
  - cbn [uploadAttempts]. unfold bind at 1, readFile.
    destruct (ioFault env (OpOpen filePath)).
    { exists []. cbn. rewrite app_nil_r. split; [done|lia]. }
    destruct (fs w !! filePath) as [content|].
    2:{ exists []. cbn. rewrite app_nil_r. split; [done|lia]. }
    unfold bind at 1, emit.
    destruct (putObject env attempt (bucket c) key) as [e|].
    2:{ exists [EvPutObject (bucket c) key content size ct]. cbn. split; [done|lia]. }
    unfold bind.
    destruct (attempt <? maxRetries); cbn [ret fst snd emit].
    + match goal with |- context [uploadAttempts _ _ _ _ _ _ _ _ _ ?w1] =>
        destruct (IH (attempt + 1) (Some e) w1) as (l & E & Hl) end.
      cbn [trace fs] in E |- *.
      eexists. split; [rewrite E, <- !app_assoc; reflexivity|].
      rewrite !putCount_app. cbn. lia.
    + match goal with |- context [uploadAttempts _ _ _ _ _ _ _ _ _ ?w1] =>
        destruct (IH (attempt + 1) (Some e) w1) as (l & E & Hl) end.
      cbn [trace fs] in E |- *.
      eexists. split; [rewrite E, <- !app_assoc; reflexivity|].
      rewrite !putCount_app. cbn. lia.
Qed.

Lemma Upload_bounded env c filePath key n w :
  (putCount (newEvents w (snd (Upload env c filePath key n w))) <= 3)%nat.
Proof.
  unfold Upload, bind, statSize.
  destruct (ioFault env (OpStat filePath)).
  { cbn. rewrite (newEvents_app w w []) by (by rewrite app_nil_r). cbn. lia. }
  destruct (fs w !! filePath) as [content|].
  2:{ cbn. rewrite (newEvents_app w w []) by (by rewrite app_nil_r). cbn. lia. }
  match goal with |- context [uploadAttempts ?a ?b ?c ?d ?e ?f ?g ?h ?i w] =>
    destruct (uploadAttempts_bounded a b c d e f g h i w) as (l & E & Hl) end.
  rewrite (newEvents_app _ _ l E). exact Hl.
Qed.

(** C4. An upload never asks the store more than 3 times. For a file that
    is there and can be read: it returns success at the first request that
    succeeds, after waiting [baseDelay] times the number of the failed
    attempt before each further request and never after the last; two
    failures then a success are exactly 3 requests with waits of
    [baseDelay * 1] and [baseDelay * 2]; three failures give the error
    that wraps the third failure and names the 3 attempts. *)
Theorem Upload_retries env c filePath key documentCount content w :
  ioFault env (OpStat filePath) = None ->
  ioFault env (OpOpen filePath) = None ->
  fs w !! filePath = Some content ->
  let put := EvPutObject (bucket c) key content (Z.of_nat (length content))
               (if String.eqb (Ext filePath) ".json"
                then "application/json" else "application/gzip")%string in
  let answer attempt := putObject env attempt (bucket c) key in
  let r := Upload env c filePath key documentCount w in
  (putCount (newEvents w (snd r)) <= 3)%nat
  /\ (answer 1 = None -> r = (None, addEvents w [put]))
  /\ (forall e1, answer 1 = Some e1 -> answer 2 = None ->
        r = (None, addEvents w [put; EvSleep (baseDelay * 1); put]))
  /\ (forall e1 e2, answer 1 = Some e1 -> answer 2 = Some e2 -> answer 3 = None ->
        r = (None, addEvents w [put; EvSleep (baseDelay * 1); put;
                                EvSleep (baseDelay * 2); put]))
  /\ (forall e1 e2 e3,
        answer 1 = Some e1 -> answer 2 = Some e2 -> answer 3 = Some e3 ->
        r = (Some (ErrWrap "failed to upload file after 3 attempts" e3),
             addEvents w [put; EvSleep (baseDelay * 1); put;
                          EvSleep (baseDelay * 2); put])
        /\ Unwrap (ErrWrap "failed to upload file after 3 attempts" e3) = Some e3
        /\ errorString (ErrWrap "failed to upload file after 3 attempts" e3)
           = ("failed to upload file after 3 attempts: " ++ errorString e3)%string).
Proof.
  intros Hstat Hopen Hf put answer r.
  split; [apply Upload_bounded|].
  subst r. rewrite (Upload_start env c filePath key content Hstat _ w Hf).
  assert (Hfs : forall l, fs (addEvents w l) !! filePath = Some content) by (intros; exact Hf).
  repeat split.
  - intros H1. rewrite (uploadAttempts_step env c filePath key content Hopen _ _ _ w Hf).
    fold put. fold (answer 1). by rewrite H1.
  - intros e1 H1 H2.
    rewrite (uploadAttempts_step env c filePath key content Hopen _ _ _ w Hf).
    fold put. fold (answer 1). rewrite H1.
    rewrite (uploadAttempts_step env c filePath key content Hopen _ _ _ _ (Hfs _)).
    fold put. change (1 + 1) with 2. fold (answer 2). rewrite H2.
    by rewrite addEvents_app.
  - intros e1 e2 H1 H2 H3.
    rewrite (uploadAttempts_step env c filePath key content Hopen _ _ _ w Hf).
    fold put. fold (answer 1). rewrite H1.
    rewrite (uploadAttempts_step env c filePath key content Hopen _ _ _ _ (Hfs _)).
    fold put. change (1 + 1) with 2. fold (answer 2). rewrite H2.
    rewrite addEvents_app.
    rewrite (uploadAttempts_step env c filePath key content Hopen _ _ _ _ (Hfs _)).
    fold put. change (2 + 1) with 3. fold (answer 3). rewrite H3.
    by rewrite addEvents_app.
  - rename H into H1, H0 into H2, H1 into H3.
    rewrite (uploadAttempts_step env c filePath key content Hopen _ _ _ w Hf).
    fold put. fold (answer 1). rewrite H1.
    rewrite (uploadAttempts_step env c filePath key content Hopen _ _ _ _ (Hfs _)).
    fold put. change (1 + 1) with 2. fold (answer 2). rewrite H2.
    rewrite addEvents_app.
    rewrite (uploadAttempts_step env c filePath key content Hopen _ _ _ _ (Hfs _)).
    fold put. change (2 + 1) with 3. fold (answer 3). rewrite H3.
    rewrite addEvents_app. reflexivity.
Qed.

Lemma Upload_retries_witness :
  Upload Example.flakyStore Example.client Example.archive
         "logs/02-29-24-logs.json.gz" 15 Example.disk
  = (None, addEvents Example.disk
             [Example.archivePut; EvSleep 2000000000; Example.archivePut;
              EvSleep 4000000000; Example.archivePut]).
Proof.
  destruct (Upload_retries Example.flakyStore Example.client Example.archive
              "logs/02-29-24-logs.json.gz" 15 Example.archiveBytes Example.disk
              eq_refl eq_refl eq_refl) as (_ & _ & _ & H & _).
  exact (H (ErrNew "connection reset") (ErrNew "connection reset")
           eq_refl eq_refl eq_refl).
Defined.

End UploadFacts.

(** ** Printed numbers and the strings built from them *)

Module StrFacts.
Local Open Scope string_scope.

Lemma append_cons x (a b : string) : String x a ++ b = String x (a ++ b).
Proof. reflexivity. Qed.

Lemma append_assoc (a b c : string) : (a ++ b) ++ c = a ++ (b ++ c).
Proof.
  induction a as [|x a IH]; [reflexivity|]. rewrite !append_cons. by f_equal.
Qed.

Lemma append_nil_r (a : string) : a ++ "" = a.
Proof. induction a as [|x a IH]; [reflexivity|]. rewrite append_cons. by f_equal. Qed.

Lemma strAll_app p a b : strAll p (a ++ b) = strAll p a && strAll p b.
Proof.
  induction a as [|x a IH]; [reflexivity|].
  rewrite append_cons. cbn [strAll]. by rewrite IH, andb_assoc.
Qed.

(** A printed number consists of digits and at most a minus sign. *)
Lemma uint_chars d : strAll isNumberChar (NilEmpty.string_of_uint d) = true.
Proof. induction d; cbn; try done; exact IHd. Qed.

Lemma itoa_chars z : strAll isNumberChar (itoa z) = true.
Proof.
  unfold itoa, NilZero.string_of_int, NilZero.string_of_uint.
  destruct (Z.to_int z) as [d|d]; destruct d; cbn; try done; apply uint_chars.
Qed.

Lemma strAll_impl (p q : ascii -> bool) s :
  (forall c, p c = true -> q c = true) -> strAll p s = true -> strAll q s = true.
Proof.
  intros H. induction s as [|c s IH]; cbn; [done|].
  intros Hs. apply andb_prop in Hs as [Hc Hs]. by rewrite (H c Hc), IH.
Qed.

Lemma numberChar_cases c :
  isNumberChar c = true ->
  c = "-"%char \/ c = "0"%char \/ c = "1"%char \/ c = "2"%char \/ c = "3"%char \/
  c = "4"%char \/ c = "5"%char \/ c = "6"%char \/ c = "7"%char \/ c = "8"%char \/
  c = "9"%char.
Proof.
  unfold isNumberChar. intros H. apply orb_prop in H as [H|H].
  - left. by apply Ascii.eqb_eq.
  - right. apply andb_prop in H as [H1 H2].
    apply Nat.leb_le in H1, H2.
    rewrite <- (ascii_nat_embedding c).
    assert (Hc : (nat_of_ascii c = 48 \/ nat_of_ascii c = 49 \/ nat_of_ascii c = 50 \/
                 nat_of_ascii c = 51 \/ nat_of_ascii c = 52 \/ nat_of_ascii c = 53 \/
                 nat_of_ascii c = 54 \/ nat_of_ascii c = 55 \/ nat_of_ascii c = 56 \/
                 nat_of_ascii c = 57)%nat) by lia.
    repeat (destruct Hc as [->|Hc]; [cbn; tauto|]). rewrite Hc. cbn. tauto.
Qed.

Lemma itoa_no_quote z : strAll (fun c => negb (isQuote c)) (itoa z) = true.
Proof.
  eapply strAll_impl; [|apply itoa_chars].
  intros c Hc. apply numberChar_cases in Hc.
  repeat (destruct Hc as [->|Hc]; [reflexivity|]). by subst c.
Qed.

Lemma itoa_no_slash z : strAll (fun c => negb (isSlash c)) (itoa z) = true.
Proof.
  eapply strAll_impl; [|apply itoa_chars].
  intros c Hc. apply numberChar_cases in Hc.
  repeat (destruct Hc as [->|Hc]; [reflexivity|]). by subst c.
Qed.

(** Text without quotes is taken over whole by an open quotation. *)
Lemma quotedFrom_plain m rest cur :
  strAll (fun c => negb (isQuote c)) m = true ->
  quotedFrom (m ++ rest) (Some cur) = quotedFrom rest (Some (cur ++ m)).
Proof.
  revert cur. induction m as [|c m IH]; intros cur Hm.
  - by rewrite append_nil_r.
  - cbn [strAll] in Hm. apply andb_prop in Hm as [Hc Hm].
    apply negb_true_iff in Hc. rewrite append_cons. cbn [quotedFrom].
    rewrite Hc, IH by done. by rewrite append_assoc.
Qed.

(** What is read while a quotation is open goes behind what was read. *)
Lemma quotedFrom_open cur c0 s :
  quotedFrom s (Some (cur ++ c0))
  = match quotedFrom s (Some c0) with
    | [] => []
    | x :: r => (cur ++ x) :: r
    end.
Proof.
  revert c0. induction s as [|c s IH]; intros c0; [reflexivity|].
  cbn [quotedFrom]. destruct (isQuote c); [reflexivity|].
  by rewrite append_assoc, IH.
Qed.

Lemma quotedFrom_app p x st :
  quotedFrom (p ++ x) st
  = (fst (scanQuotes p st) ++ quotedFrom x (snd (scanQuotes p st)))%list.
Proof.
  revert st. induction p as [|c p IH]; intros st; [reflexivity|].
  rewrite append_cons. cbn [quotedFrom scanQuotes].
  destruct (isQuote c), st as [cur|]; rewrite ?IH; try reflexivity.
  by destruct (scanQuotes p None).
Qed.

End StrFacts.

(** ** The cleanup run *)

Module CleanupFacts.
Import Observe StrFacts Cleanup.

(** C8. A cleanup run sends exactly one delete-by-query request, for the
    index of the job; the only quoted texts of its body are the keys
    [query], [range], [@timestamp] and [lte] and the bound, which is [now]
    minus the retention days rounded to the day ([now-Nd/d]); nothing else
    is sent and no file is touched. The run returns [nil] when the request
    succeeds and the request's error, wrapped, when it fails. *)
Theorem Cleanup_single_request env job w :
  let index := CleanupJob.IndexName job in
  let body := deleteBody (CleanupJob.RetentionDays job) in
  Cleanup.Cleanup env job w
  = (match deleteByQuery env index body with
     | Ok _ => None
     | Err e => Some (ErrWrap "delete by query failed" e)
     end,
     addEvents w [EvDeleteByQuery index body])
  /\ quotedStrings body
     = ["query"; "range"; "@timestamp"; "lte";
        "now-" ++ itoa (CleanupJob.RetentionDays job) ++ "d/d"]%string.
Proof.
  intros index body. split.
  - unfold Cleanup.Cleanup, bind, emit. fold index body.
    by destruct (deleteByQuery env index body).
  - subst body. unfold quotedStrings.
    change (deleteBody (CleanupJob.RetentionDays job))
      with (bodyPrefix ++ itoa (CleanupJob.RetentionDays job) ++ bodySuffix)%string.
    rewrite quotedFrom_app.
    change (scanQuotes bodyPrefix None)
      with (["query"; "range"; "@timestamp"; "lte"]%string, Some "now-"%string).
    cbn [fst snd]. rewrite quotedFrom_plain by apply itoa_no_quote.
    rewrite <- (append_nil_r ("now-" ++ itoa (CleanupJob.RetentionDays job))).
    rewrite (quotedFrom_open _ "" bodySuffix).
    change (quotedFrom bodySuffix (Some ""%string)) with ["d/d"%string].
    cbn [app]. by rewrite append_assoc.
Qed.

End CleanupFacts.

(** ** The merger *)

Module MergeFacts.
Import Observe Backup.
Local Open Scope Z_scope.

Section Merging.
Variables (env : Env) (merged : string).

Lemma sumZ_cons x l : sumZ (x :: l) = x + sumZ l.
Proof. reflexivity. Qed.

(** The loop appends the content of each file to the merged file and adds
    up the counts decoded from those contents, as long as the merged file
    is not itself among the files read. *)
Lemma mergeLoop_ok files : forall contents acc total res w w',
  Forall2 (fun f c => f <> merged /\ fs w !! f = Some c) files contents ->
  fs w !! merged = Some acc ->
  mergeLoop env merged files total w = (Ok res, w') ->
  fs w' = <[merged := acc ++ concat contents]> (fs w)
  /\ trace w' = trace w
  /\ exists counts, Forall2 (fun c n => decodeHits env c = Ok n) contents counts
                    /\ res = total + sumZ counts.
Proof.
  induction files as [|f files IH]; intros contents acc total res w w' Hall Hacc Hrun.
  - apply Forall2_nil_inv_l in Hall as ->. cbn in Hrun. injection Hrun as <- <-.
    cbn [concat]. rewrite app_nil_r, insert_id by done. repeat split.
    exists []. split; [constructor|]. unfold sumZ. cbn [foldr]. lia.
  - apply Forall2_cons_inv_l in Hall as (c & contents' & [Hne Hf] & Hall & ->).
    cbn [mergeLoop] in Hrun. unfold bind at 1, readFile in Hrun.
    destruct (ioFault env (OpOpen f)); [discriminate|]. rewrite Hf in Hrun.
    destruct (decodeHits env c) as [hits|e] eqn:Hdec; [|discriminate].
    unfold bind at 1, appendFile in Hrun.
    destruct (ioFault env (OpWrite merged)); [discriminate|].
    rewrite Hacc in Hrun. cbn [default] in Hrun.
    match type of Hrun with mergeLoop _ _ _ _ ?w1 = _ =>
      destruct (IH contents' (acc ++ c) (total + hits) res w1 w') as (Hfs & Htr & counts & Hc & Hres);
        [ | | exact Hrun | ]
    end.
    + cbn [fs]. eapply Forall2_impl; [exact Hall|]. intros f' c' [Hd Hf']. cbn beta.
      split; [done|]. by rewrite lookup_insert_ne.
    + cbn [fs]. by rewrite lookup_insert_eq.
    + cbn [fs trace] in Hfs, Htr. rewrite Hfs, insert_insert_eq. cbn [concat].
      rewrite <- app_assoc. repeat split; [done|].
      exists (hits :: counts). split; [by constructor|]. rewrite sumZ_cons. lia.
Qed.

(** With files that are there, contents that decode and a file system
    without faults, the loop comes to its end. *)
Lemma mergeLoop_total files : forall contents total w,
  (forall op, ioFault env op = None) ->
  Forall2 (fun f c => f <> merged /\ fs w !! f = Some c) files contents ->
  Forall (fun c => exists n, decodeHits env c = Ok n) contents ->
  exists res w', mergeLoop env merged files total w = (Ok res, w').
Proof.
  intros contents total w Hio. revert contents total w.
  induction files as [|f files IH]; intros contents total w Hall Hdec.
  - cbn. eauto.
  - apply Forall2_cons_inv_l in Hall as (c & contents' & [Hne Hf] & Hall & ->).
    apply Forall_cons in Hdec as [[hits Hhits] Hdec].
    cbn [mergeLoop]. unfold bind at 1, readFile. rewrite Hio, Hf, Hhits.
    unfold bind at 1, appendFile. rewrite Hio.
    apply (IH contents'); [|done].
    cbn [fs]. eapply Forall2_impl; [exact Hall|]. intros f' c' [Hd Hf']. cbn beta.
    split; [done|]. by rewrite lookup_insert_ne.
Qed.

End Merging.

Lemma Forall2_not_merged (merged : string) (m : gmap string (list byte)) files contents :
  merged ∉ files ->
  Forall2 (fun f c => m !! f = Some c) files contents ->
  Forall2 (fun f c => f <> merged /\ m !! f = Some c) files contents.
Proof.
  intros Hnot Hall. induction Hall as [|f c files contents Hf Hall IH]; [constructor|].
  apply not_elem_of_cons in Hnot as [Hne Hnot]. constructor; [by split|by apply IH].
Qed.

(** C3. Merging files that are on disk under names other than that of the
    day artifact: when the merger returns without error, the file it names
    is the day artifact, its content is the contents of the files one after
    the other in the order of the list, the count it returns is the sum of
    the counts decoded from each of those contents, and every other file is
    as before; and when the file system does not fail and every content
    decodes, it does return without error. *)
Theorem mergeFiles_concatenation env s files indexName date contents w :
  let merged := mergedFilename s indexName date in
  merged ∉ files ->
  Forall2 (fun f c => fs w !! f = Some c) files contents ->
  (forall name total w',
     mergeFiles env s files indexName date w = (Ok (name, total), w') ->
     name = merged
     /\ fs w' !! merged = Some (concat contents)
     /\ (exists counts,
           Forall2 (fun c n => decodeHits env c = Ok n) contents counts
           /\ total = sumZ counts)
     /\ (forall f, f <> merged -> fs w' !! f = fs w !! f)
     /\ trace w' = trace w)
  /\ ((forall op, ioFault env op = None) ->
      Forall (fun c => exists n, decodeHits env c = Ok n) contents ->
      exists total w',
        mergeFiles env s files indexName date w = (Ok (merged, total), w')).
Proof.
  intros merged Hnot Hall.
  pose proof (Forall2_not_merged merged (fs w) files contents Hnot Hall) as Hall'.
  assert (Hall1 : Forall2 (fun f c => f <> merged /\
            fs {| fs := <[merged := []]> (fs w); trace := trace w |} !! f = Some c)
            files contents).
  { eapply Forall2_impl; [exact Hall'|]. intros f c [Hne Hf]. cbn.
    split; [done|]. by rewrite lookup_insert_ne. }
  split.
  - intros name total w' Hrun. unfold mergeFiles in Hrun. fold merged in Hrun.
    unfold bind at 1, osCreate in Hrun.
    destruct (ioFault env (OpCreate merged)); [discriminate|].
    unfold bind at 1, setFile, ret at 1 in Hrun. cbn [fst snd] in Hrun.
    unfold bind in Hrun.
    destruct (mergeLoop env merged files 0 _) as [[res|e] w1] eqn:Hloop; [|discriminate].
    injection Hrun as <- <- <-.
    destruct (mergeLoop_ok env merged files contents [] 0 res _ w1 Hall1) as (Hfs & Htr & counts & Hc & Hres);
      [cbn; by rewrite lookup_insert_eq | exact Hloop |].
    cbn [fs trace] in Hfs, Htr. rewrite insert_insert_eq in Hfs.
    repeat split.
    + by rewrite Hfs, lookup_insert_eq.
    + exists counts. split; [done|]. lia.
    + intros f Hf. by rewrite Hfs, lookup_insert_ne.
    + done.
  - intros Hio Hdec. unfold mergeFiles. fold merged.
    unfold bind at 1, osCreate. rewrite Hio.
    unfold bind at 1, setFile, ret at 1. cbn [fst snd]. unfold bind.
    destruct (mergeLoop_total env merged files contents 0 _ Hio Hall1 Hdec) as (res & w' & Hloop).
    rewrite Hloop. eauto.
Qed.

Lemma mergeFiles_concatenation_witness :
  fs (snd (mergeFiles Example.busyIndex Example.service
             [Example.window3; Example.window7] "logs" Example.yesterday
             Example.twoWindows))
    !! Example.dayFile
  = Some (repeat x61 10 ++ repeat x62 5)
  /\ fst (mergeFiles Example.busyIndex Example.service
             [Example.window3; Example.window7] "logs" Example.yesterday
             Example.twoWindows)
     = Ok (Example.dayFile, 15).
Proof.
  assert (Hnot : mergedFilename Example.service "logs" Example.yesterday
                 ∉ [Example.window3; Example.window7]).
  { replace (mergedFilename Example.service "logs" Example.yesterday)
      with Example.dayFile by (vm_compute; reflexivity).
    intros H. apply elem_of_cons in H as [H|H]; [discriminate H|].
    apply elem_of_cons in H as [H|H]; [discriminate H|]. by apply elem_of_nil in H. }
  assert (Hall : Forall2 (fun f c => fs Example.twoWindows !! f = Some c)
                   [Example.window3; Example.window7] [repeat x61 10; repeat x62 5]).
  { constructor; [vm_compute; reflexivity|].
    constructor; [vm_compute; reflexivity|]. constructor. }
  destruct (mergeFiles_concatenation Example.busyIndex Example.service
              [Example.window3; Example.window7] "logs" Example.yesterday
              [repeat x61 10; repeat x62 5] Example.twoWindows Hnot Hall) as [H _].
  split; [|vm_compute; reflexivity].
  exact (proj1 (proj2 (H Example.dayFile 15 _ ltac:(vm_compute; reflexivity)))).
Defined.

End MergeFacts.

(** ** The backup run: which windows survive *)

Module WindowFacts.
Import Observe TraceFacts StrFacts Backup PlannerFacts.
Local Open Scope Z_scope.

Lemma append_empty (a b : string) : (a ++ b)%string = ""%string -> a = ""%string /\ b = ""%string.
Proof.
  destruct a; [intros H; split; [reflexivity|exact H]|].
  rewrite append_cons. discriminate.
Qed.

Lemma Clean_nonempty p : Clean p <> ""%string.
Proof.
  unfold Clean. destruct (isRooted p).
  - rewrite append_cons. discriminate.
  - destruct (String.eqb_spec (joinSlash (rev (fold_left (cleanStep false) (splitSlash p) []))) "");
      [discriminate|done].
Qed.

Lemma Join_nonempty a b : b <> ""%string -> Join [a; b] <> ""%string.
Proof.
  intros Hb. cbn [Join].
  destruct (String.eqb_spec a ""); [|apply Clean_nonempty].
  destruct (String.eqb_spec b ""); [done|apply Clean_nonempty].
Qed.

Lemma periodFilename_nonempty s job date num : periodFilename s job date num <> ""%string.
Proof.
  unfold periodFilename. apply Join_nonempty. intros H.
  apply append_empty in H as [_ H]. discriminate H.
Qed.

Section Windows.
Variables (env : Env) (s : Service) (job : BackupJob.t) (date : Time).
Let I := BackupJob.IntervalHours job.

(** The result of downloading window [i] is its outcome, whatever the
    world it is downloaded in. *)
Lemma downloadPeriod_outcome i w :
  fst (downloadPeriod env s job date (i * I) (i * I + I) (i + 1) w)
  = windowOutcome env s job date i.
Proof.
  unfold downloadPeriod, windowOutcome, windowAt. fold I.
  destruct (windowBounds date (i * I) (i * I + I)) as [st en].
  unfold bind at 1, getCount, bind at 1, emit, ret at 1. cbn [fst snd].
  destruct (indicesCount env _ st en) as [count|e]; [|reflexivity].
  destruct (count =? 0); [reflexivity|].
  unfold bind at 1, searchAndSave, bind at 1, emit. cbn [fst snd].
  destruct (search env _ st en count) as [resp|e]; [|reflexivity].
  unfold bind at 1, osCreate.
  destruct (ioFault env (OpCreate _)); [reflexivity|].
  unfold bind at 1, setFile, ret at 1. cbn [fst snd].
  unfold bind at 1, appendFile.
  destruct (ioFault env (OpWrite _)); reflexivity.
Qed.

(** A window without a file to merge leaves the files as they were, unless
    it failed while writing the file it had created. *)
Lemma downloadPeriod_keeps i w :
  ioFault env (OpWrite (periodFilename s job date (i + 1))) = None ->
  survivors [windowOutcome env s job date i] = [] ->
  fs (snd (downloadPeriod env s job date (i * I) (i * I + I) (i + 1) w)) = fs w.
Proof.
  intros Hw. unfold downloadPeriod, windowOutcome, windowAt. fold I.
  destruct (windowBounds date (i * I) (i * I + I)) as [st en].
  unfold bind at 1, getCount, bind at 1, emit, ret at 1. cbn [fst snd].
  destruct (indicesCount env _ st en) as [count|e]; [|reflexivity].
  destruct (count =? 0); [reflexivity|].
  unfold bind at 1, searchAndSave, bind at 1, emit. cbn [fst snd].
  destruct (search env _ st en count) as [resp|e]; [|reflexivity].
  unfold bind at 1, osCreate.
  destruct (ioFault env (OpCreate _)); [reflexivity|].
  rewrite Hw. unfold survivors. cbn [flat_map].
  destruct (String.eqb_spec (periodFilename s job date (i + 1)) "") as [E|_]; [|discriminate].
  by apply periodFilename_nonempty in E.
Qed.

Lemma survivors_app l1 l2 : survivors (l1 ++ l2) = survivors l1 ++ survivors l2.
Proof. unfold survivors. apply flat_map_app. Qed.

Lemma survivors_cons r l : survivors (r :: l) = survivors [r] ++ survivors l.
Proof. unfold survivors. cbn [flat_map]. by rewrite app_nil_r. Qed.

(** The loop collects the files of the surviving windows, in window order. *)
Lemma downloadLoop_files count n : forall i files w,
  fst (downloadLoop env s job date count n i files w)
  = files ++ survivors (map (windowOutcome env s job date) (seqZ i (Z.of_nat n))).
Proof.
  induction n as [|n IH]; intros i files w.
  - cbn. by rewrite app_nil_r.
  - cbn [downloadLoop]. unfold bind at 1. fold I.
    pose proof (downloadPeriod_outcome i w) as Ho.
    destruct (downloadPeriod env s job date (i * I) (i * I + I) (i + 1) w) as [r w1].
    cbn [fst] in Ho.
    replace (seqZ i (Z.of_nat (S n))) with (i :: seqZ (i + 1) (Z.of_nat n))
      by (rewrite (seqZ_cons i (Z.of_nat (S n))) by lia; do 2 f_equal; lia).
    cbn [map]. rewrite <- Ho.
    rewrite survivors_cons.
    destruct r as [filename|e].
    + unfold bind.
      match goal with |- context [(if ?c then emit ?e else ret tt) w1] =>
        destruct ((if c then emit e else ret tt) w1) as [[] w2] end.
      rewrite IH. unfold survivors at 2. cbn [flat_map].
      destruct (String.eqb filename ""); cbn [app]; by rewrite <- ?app_assoc.
    + by rewrite IH.
Qed.

Lemma downloadLoop_keeps count n : forall i files w,
  (forall k, ioFault env (OpWrite (periodFilename s job date k)) = None) ->
  survivors (map (windowOutcome env s job date) (seqZ i (Z.of_nat n))) = [] ->
  fs (snd (downloadLoop env s job date count n i files w)) = fs w.
Proof.
  induction n as [|n IH]; intros i files w Hio Hs; [reflexivity|].
  replace (seqZ i (Z.of_nat (S n))) with (i :: seqZ (i + 1) (Z.of_nat n)) in Hs
    by (rewrite (seqZ_cons i (Z.of_nat (S n))) by lia; do 2 f_equal; lia).
  cbn [map] in Hs. rewrite survivors_cons in Hs. apply app_eq_nil in Hs as [Hs1 Hs2].
  cbn [downloadLoop]. unfold bind at 1. fold I.
  pose proof (downloadPeriod_keeps i w (Hio _) Hs1) as Hk.
  destruct (downloadPeriod env s job date (i * I) (i * I + I) (i + 1) w) as [r w1].
  cbn [snd] in Hk. destruct r as [filename|e].
  - unfold bind.
    match goal with |- context [(if ?c then emit ?e else ret tt) w1] =>
      assert (fs (snd ((if c then emit e else ret tt) w1)) = fs w1) as Hsl
        by (destruct c; reflexivity);
      destruct ((if c then emit e else ret tt) w1) as [[] w2]
    end.
    cbn [snd] in Hsl. by rewrite IH, Hsl, Hk.
  - by rewrite IH, Hk.
Qed.

End Windows.

Lemma deliver_nothing env s job date w : deliver env s job date [] w = (None, w).
Proof. reflexivity. Qed.

(** An error of [deliver] comes from the merge, the compression or the
    upload. *)
Lemma deliver_errors env s job date files w err :
  fst (deliver env s job date files w) = Some err ->
  exists ctx cause,
    err = ErrWrap ctx cause
    /\ ctx ∈ ["failed to merge files"; "failed to compress file"; "failed to upload to S3"]%string.
Proof.
  unfold deliver. destruct (length files =? 0)%nat; [discriminate|].
  unfold bind at 1. destruct (mergeFiles _ _ _ _ _ _) as [[[mergedFile total]|e] w1].
  2:{ cbn. intros [= <-]. eexists _, _. split; [reflexivity|]. set_solver. }
  unfold bind at 1. destruct (compressFile _ _ _) as [[compressed|e] w2].
  2:{ cbn. intros [= <-]. eexists _, _. split; [reflexivity|]. set_solver. }
  unfold bind at 1. destruct (Storage.Upload _ _ _ _ _ _) as [[e|] w3].
  { cbn. intros [= <-]. eexists _, _. split; [reflexivity|]. set_solver. }
  unfold bind. destruct (cleanup _ _ _ _). discriminate.
Qed.

Lemma putCount_none l : Forall (fun e => isPut e = false) l -> putCount l = 0%nat.
Proof.
  unfold putCount. induction 1 as [|e l He _ IH]; [reflexivity|].
  cbn [List.filter]. by rewrite He.
Qed.

Lemma Backup_unfold env s now job w :
  BackupJob.IntervalHours job <> 0 ->
  Backup env s now job w
  = (let (files, w1) := collected env s now job w in
     let (err, w2) := deliver env s job (AddDate now 0 0 (-1)) files w1 in
     (Returned err, w2)).
Proof.
  intros HI. unfold Backup, collected.
  destruct (Z.eqb_spec (BackupJob.IntervalHours job) 0); [done|].
  unfold bind, ret. destruct (downloadLoop _ _ _ _ _ _ _ _ _) as [files w1].
  by destruct (deliver _ _ _ _ _ _).
Qed.

Lemma collected_files env s now job w :
  fst (collected env s now job w)
  = survivors (map (windowOutcome env s job (AddDate now 0 0 (-1)))
                   (seqZ 0 (24 ÷ BackupJob.IntervalHours job))).
Proof.
  unfold collected. rewrite downloadLoop_files. cbn [app]. do 2 f_equal.
  destruct (Z.le_gt_cases 0 (24 ÷ BackupJob.IntervalHours job)).
  - by rewrite Z2Nat.id.
  - rewrite Z2Nat.nonpos by lia. unfold seqZ.
    rewrite (Z2Nat.nonpos (24 ÷ _)) by lia. done.
Qed.

(** C6. When the count probe or the extraction of a window fails, the run
    still probes every window, collects exactly the files of the other
    windows, never returns that window's error (an error it returns comes
    from the merge, the compression or the upload), and returns [nil] when
    the delivery of the collected files succeeds or nothing was collected. *)
Theorem window_failure_skipped env s now job w k e :
  let I := BackupJob.IntervalHours job in
  let target := AddDate now 0 0 (-1) in
  let count := 24 ÷ I in
  let outcome := windowOutcome env s job target in
  let files := fst (collected env s now job w) in
  let w1 := snd (collected env s now job w) in
  I <> 0 -> 0 <= k < count -> outcome k = Err e ->
  backupWindows env s now job w = map (windowAt job target) (seqZ 0 count)
  /\ files = survivors (map outcome (seqZ 0 k))
             ++ survivors (map outcome (seqZ (k + 1) (count - (k + 1))))
  /\ (forall err, fst (Backup env s now job w) = Returned (Some err) ->
        exists ctx cause,
          err = ErrWrap ctx cause
          /\ ctx ∈ ["failed to merge files"; "failed to compress file";
                    "failed to upload to S3"]%string)
  /\ (fst (deliver env s job target files w1) = None ->
        fst (Backup env s now job w) = Returned None)
  /\ (files = [] -> Backup env s now job w = (Returned None, w1)).
Proof.
  intros I target count outcome files w1 HI Hk Hfail.
  split; [by apply backupWindows_planned|].
  split.
  { subst files. rewrite collected_files. fold I target count outcome.
    replace count with (k + (count - k)) at 1 by lia.
    rewrite seqZ_app by lia. rewrite map_app, survivors_app. f_equal.
    rewrite (seqZ_cons (0 + k)) by lia. cbn [map]. rewrite survivors_cons.
    replace (0 + k) with k by lia. rewrite Hfail. cbn [survivors flat_map app].
    do 3 f_equal; lia. }
  rewrite (Backup_unfold env s now job w HI). fold target.
  subst files w1. destruct (collected env s now job w) as [files w1]. cbn [fst snd].
  split.
  { intros err H. apply (deliver_errors env s job target files w1).
    destruct (deliver env s job target files w1) as [r w2]. cbn [fst] in *. congruence. }
  split.
  { intros H. destruct (deliver env s job target files w1) as [r w2].
    cbn [fst] in *. by subst r. }
  intros ->. by rewrite deliver_nothing.
Qed.

(** C7. A window whose count is zero takes one count request and gives
    neither a file nor an error nor a search. When no window leaves a file,
    the run returns [nil] right after the download loop: no request goes to
    the object store, and the files on disk are those from before the run
    unless a window failed while writing its file. *)
Theorem empty_run_is_noop env s now job w :
  let target := AddDate now 0 0 (-1) in
  let count := 24 ÷ BackupJob.IntervalHours job in
  let index := BackupJob.IndexName job in
  (forall date startHour endHour fileNum w0,
     let win := windowBounds date startHour endHour in
     indicesCount env index (fst win) (snd win) = Ok 0 ->
     downloadPeriod env s job date startHour endHour fileNum w0
     = (Ok ""%string, addEvents w0 [EvCount index (fst win) (snd win)]))
  /\ (BackupJob.IntervalHours job <> 0 ->
      survivors (map (windowOutcome env s job target) (seqZ 0 count)) = [] ->
      Backup env s now job w = (Returned None, snd (collected env s now job w))
      /\ putCount (newEvents w (snd (Backup env s now job w))) = 0%nat
      /\ ((forall k, ioFault env (OpWrite (periodFilename s job target k)) = None) ->
          fs (snd (Backup env s now job w)) = fs w)).
Proof.
  intros target count index. split.
  - intros date sh eh num w0 win H0. unfold downloadPeriod. fold win index.
    destruct win as [st en]. cbn [fst snd] in *.
    unfold bind, getCount, bind, emit, ret. cbn [fst snd]. by rewrite H0.
  - intros HI Hs.
    assert (Hrun : Backup env s now job w = (Returned None, snd (collected env s now job w))).
    { rewrite (Backup_unfold env s now job w HI).
      pose proof (collected_files env s now job w) as Hc. fold target count in Hc.
      rewrite Hs in Hc. destruct (collected env s now job w) as [files w1].
      cbn [fst snd] in *. subst files. reflexivity. }
    split; [exact Hrun|]. rewrite Hrun. cbn [snd]. unfold collected. fold target count.
    split.
    + destruct (emits_downloadLoop env s job target count (Z.to_nat count) 0 [] w) as (l & E & F).
      rewrite (newEvents_app _ _ l E). by apply putCount_none.
    + intros Hio. apply downloadLoop_keeps; [exact Hio|].
      destruct (Z.le_gt_cases 0 count).
      * by rewrite Z2Nat.id.
      * rewrite Z2Nat.nonpos by lia. reflexivity.
Qed.

Lemma window_failure_skipped_witness :
  fst (collected Example.brokenProbe Example.service Example.morning Example.logsJob
         Example.emptyDisk)
  = [Example.window3; Example.window7]
  /\ fst (Backup Example.brokenProbe Example.service Example.morning Example.logsJob
            Example.emptyDisk)
     = Returned None.
Proof.
  destruct (window_failure_skipped Example.brokenProbe Example.service Example.morning
              Example.logsJob Example.emptyDisk 3
              (ErrWrap "failed to get count" (ErrNew "context deadline exceeded")))
    as (_ & Hfiles & _ & Hok & _).
  - discriminate.
  - vm_compute. split; [discriminate|reflexivity].
  - vm_compute. reflexivity.
  - split.
    + rewrite Hfiles. vm_compute. reflexivity.
    + apply Hok. vm_compute. reflexivity.
Defined.

Lemma empty_run_is_noop_witness :
  Backup Example.emptyIndex Example.service Example.morning Example.logsJob
         Example.emptyDisk
  = (Returned None,
     snd (collected Example.emptyIndex Example.service Example.morning Example.logsJob
            Example.emptyDisk))
  /\ fs (snd (Backup Example.emptyIndex Example.service Example.morning Example.logsJob
               Example.emptyDisk)) = ∅.
Proof.
  destruct (empty_run_is_noop Example.emptyIndex Example.service Example.morning
              Example.logsJob Example.emptyDisk) as [_ H].
  destruct H as (Hrun & _ & Hfs).
  - discriminate.
  - vm_compute. reflexivity.
  - split; [exact Hrun|]. apply Hfs. reflexivity.
Defined.

End WindowFacts.

(** ** Temporary files at the end of a run *)

Module CleanupOfFiles.
Import Observe Backup.
Local Open Scope Z_scope.

Lemma removeAll_lookup files f w :
  fs (snd (fold_right (fun file k => bind (osRemove file) (fun _ => k)) (ret tt) files w)) !! f
  = if bool_decide (f ∈ files) then None else fs w !! f.
Proof.
  revert w. induction files as [|x files IH]; intros w; [reflexivity|].
  cbn [fold_right]. unfold bind at 1, osRemove at 1. rewrite IH. cbn [fs].
  destruct (decide (f = x)) as [->|Hne].
  - rewrite (bool_decide_eq_true_2 (x ∈ x :: files)) by (by left).
    destruct (bool_decide (x ∈ files)); [done|apply lookup_delete_eq].
  - rewrite lookup_delete_ne by done.
    destruct (decide (f ∈ files)) as [Hin|Hnin].
    + rewrite (bool_decide_eq_true_2 (f ∈ files)) by done.
      rewrite (bool_decide_eq_true_2 (f ∈ x :: files)) by (by right). done.
    + rewrite (bool_decide_eq_false_2 (f ∈ files)) by done.
      rewrite (bool_decide_eq_false_2 (f ∈ x :: files)) by (by apply not_elem_of_cons).
      done.
Qed.

(** [cleanup] removes the window files and the merged file, and nothing
    else: the compressed file it is given stays. *)
Lemma cleanup_lookup files merged compressed f w :
  fs (snd (cleanup files merged compressed w)) !! f
  = if bool_decide (f ∈ merged :: files) then None else fs w !! f.
Proof.
  unfold cleanup. unfold bind at 1.
  pose proof (removeAll_lookup files f w) as H.
  destruct (fold_right (fun file k => bind (osRemove file) (fun _ => k)) (ret tt) files w)
    as [[] w1]. cbn [snd] in H.
  unfold osRemove at 1. cbn [snd fs].
  destruct (decide (f = merged)) as [->|Hne].
  - rewrite lookup_delete_eq. rewrite bool_decide_eq_true_2 by (by left). done.
  - rewrite lookup_delete_ne, H by done.
    destruct (decide (f ∈ files)) as [Hin|Hnin].
    + rewrite (bool_decide_eq_true_2 (f ∈ files)) by done.
      rewrite (bool_decide_eq_true_2 (f ∈ merged :: files)) by (by right). done.
    + rewrite (bool_decide_eq_false_2 (f ∈ files)) by done.
      rewrite (bool_decide_eq_false_2 (f ∈ merged :: files)) by (by apply not_elem_of_cons).
      done.
Qed.

(** C5, on two runs over the same index. When everything succeeds, the run
    removes the window files and the merged file but leaves the compressed
    file on disk. When the upload fails three times, the run returns the
    error and leaves all four kinds of file on disk. *)
Theorem artifacts_left_behind :
  (let r := Backup Example.busyIndex Example.service Example.morning Example.logsJob
              Example.emptyDisk in
   fst r = Returned None
   /\ fs (snd r) !! Example.window3 = None
   /\ fs (snd r) !! Example.window7 = None
   /\ fs (snd r) !! Example.dayFile = None
   /\ fs (snd r) !! Example.gzFile = Some (x1f :: x8b :: Example.dayBytes))
  /\ (let r := Backup Example.deadStore Example.service Example.morning Example.logsJob
                 Example.emptyDisk in
      fst r = Returned (Some (ErrWrap "failed to upload to S3"
                (ErrWrap "failed to upload file after 3 attempts"
                   (ErrNew "connection refused"))))
      /\ fs (snd r) !! Example.window3 = Some (repeat x61 10)
      /\ fs (snd r) !! Example.window7 = Some (repeat x62 5)
      /\ fs (snd r) !! Example.dayFile = Some Example.dayBytes
      /\ fs (snd r) !! Example.gzFile = Some (x1f :: x8b :: Example.dayBytes)).
Proof. vm_compute. repeat split. Qed.

End CleanupOfFiles.

(** ** The scheduler: one execution per job *)

Module SchedulerFacts.
Import Scheduler.

Lemma wellFormed_empty : wellFormed emptyRegistry.
Proof.
  repeat split; [constructor|]. intros h hd H. cbn in H. by rewrite lookup_nil in H.
Qed.

Lemma wellFormed_extend r j hMut tableC tableB :
  wellFormed r -> hMut = Some (length (mutexes r)) ->
  wellFormed {| mutexes := mutexes r ++ [false];
                cleanupMutexes := tableC; backupMutexes := tableB;
                handlers := handlers r ++ [mkHandler j hMut] |}.
Proof.
  intros (Hlen & Hall & Hh) ->. repeat split; cbn.
  - rewrite !length_app. cbn. lia.
  - apply Forall_app. split; [done|]. by repeat constructor.
  - intros h hd Hl. apply lookup_app_Some in Hl as [Hl|[Hge Hl]]; [by apply Hh|].
    apply list_lookup_singleton_Some in Hl as [E <-]. cbn. f_equal. lia.
Qed.

Lemma registerCleanup_wellFormed parses r j r' :
  wellFormed r -> registerCleanup parses r j = Some r' -> wellFormed r'.
Proof.
  intros Hwf. unfold registerCleanup. destruct (parses _); [|discriminate].
  intros [= <-]. apply wellFormed_extend; [done|]. apply lookup_insert_eq.
Qed.

Lemma registerBackup_wellFormed parses r j r' :
  wellFormed r -> registerBackup parses r j = Some r' -> wellFormed r'.
Proof.
  intros Hwf. unfold registerBackup. destruct (parses _); [|discriminate].
  intros [= <-]. apply wellFormed_extend; [done|]. apply lookup_insert_eq.
Qed.

Lemma registerAll_wellFormed {J} (reg : registry -> J -> option registry) jobs :
  (forall r j r', wellFormed r -> reg r j = Some r' -> wellFormed r') ->
  forall r r', wellFormed r -> registerAll reg r jobs = Some r' -> wellFormed r'.
Proof.
  intros Hreg. induction jobs as [|j jobs IH]; intros r r' Hwf; cbn.
  - by intros [= <-].
  - destruct (reg r j) as [r1|] eqn:E; [|discriminate]. apply IH. by eapply Hreg.
Qed.

(** After [main] has registered the jobs, every handler holds the mutex
    made for it in its own loop iteration. *)
Lemma setup_wellFormed parses cleanupJobs backupJobs r :
  setup parses cleanupJobs backupJobs = Some r -> wellFormed r.
Proof.
  unfold setup.
  destruct (registerAll (registerCleanup parses) emptyRegistry cleanupJobs) as [r1|] eqn:E;
    [|discriminate].
  intros H.
  apply (registerAll_wellFormed (registerBackup parses) backupJobs
           (registerBackup_wellFormed parses) r1 r); [|exact H].
  apply (registerAll_wellFormed (registerCleanup parses) cleanupJobs
           (registerCleanup_wellFormed parses) emptyRegistry r1); [|exact E].
  apply wellFormed_empty.
Qed.

(** Changing one element of a list changes the number of elements that
    satisfy [P] by what the element loses or gains. *)
Lemma filter_alter_length {A} (P : A -> Prop) `{!forall x, Decision (P x)} (f : A -> A) :
  forall (l : list A) (g : nat) (x : A),
  l !! g = Some x ->
  (length (filter P (alter f g l)) + (if decide (P x) then 1 else 0)
   = length (filter P l) + (if decide (P (f x)) then 1 else 0))%nat.
Proof.
  induction l as [|y l IH]; intros g x Hl; [by rewrite lookup_nil in Hl|].
  destruct g as [|g].
  - injection Hl as ->. cbn [alter list_alter]. rewrite !filter_cons.
    destruct (decide (P x)), (decide (P (f x))); cbn [length]; lia.
  - cbn in Hl. cbn [alter list_alter]. rewrite !filter_cons.
    specialize (IH g x Hl). change (list_alter f g l) with (alter f g l).
    destruct (decide (P y)); cbn [length]; lia.
Qed.

Lemma filter_alter_same {A} (P : A -> Prop) `{!forall x, Decision (P x)} (f : A -> A) :
  forall (l : list A) (g : nat) (x : A),
  l !! g = Some x -> ~ P x -> ~ P (f x) -> filter P (alter f g l) = filter P l.
Proof.
  induction l as [|y l IH]; intros g x Hl Hx Hfx; [by rewrite lookup_nil in Hl|].
  destruct g as [|g].
  - injection Hl as ->. cbn [alter list_alter].
    by rewrite !filter_cons_False.
  - cbn in Hl. cbn [alter list_alter]. rewrite !filter_cons.
    change (list_alter f g l) with (alter f g l). by rewrite (IH g x Hl Hx Hfx).
Qed.

Lemma setPc_lookup g p st h q g' :
  goroutines st !! g = Some (mkGoroutine h q) ->
  setPc g p st !! g' = if decide (g' = g) then Some (mkGoroutine h p)
                       else goroutines st !! g'.
Proof.
  intros Hg. unfold setPc. destruct (decide (g' = g)) as [->|Hne].
  - by rewrite list_lookup_alter_eq, Hg.
  - by rewrite list_lookup_alter_ne.
Qed.

Lemma inJob_setPc h' g p st h q :
  goroutines st !! g = Some (mkGoroutine h q) ->
  (length (filter (fun x => x = mkGoroutine h' InJob) (setPc g p st))
   + (if decide (mkGoroutine h q = mkGoroutine h' InJob) then 1 else 0)
   = length (inJob h' st)
     + (if decide (mkGoroutine h p = mkGoroutine h' InJob) then 1 else 0))%nat.
Proof.
  intros Hg. unfold setPc, inJob.
  pose proof (filter_alter_length (fun x => x = mkGoroutine h' InJob)
                (fun x => mkGoroutine (gHandler x) p) (goroutines st) g _ Hg) as H.
  cbn [gHandler] in H. exact H.
Qed.

Section Invariant.
Variables (env : Env) (svc : Backup.Service) (r : registry).
Hypothesis Hwf : wellFormed r.

Lemma lockInvariant_initial w0 : lockInvariant r (initial r w0).
Proof.
  destruct Hwf as (Hlen & Hall & _). repeat split; cbn.
  - done.
  - intros h b Hl. rewrite Forall_lookup in Hall. by rewrite (Hall h b Hl).
  - intros g x Hl. by rewrite lookup_nil in Hl.
Qed.

Lemma lockInvariant_step a st st' :
  lockInvariant r st -> step env svc (handlers r) a st = Some st' -> lockInvariant r st'.
Proof.
  intros (Hlen & Hcount & Hreg) Hstep. unfold step in Hstep.
  destruct (crashed st); [discriminate|].
  destruct a as [h|g|g now].
  - destruct (handlers r !! h) as [hd|] eqn:Hh; [|discriminate].
    injection Hstep as <-. repeat split; cbn.
    + done.
    + intros h' b Hl. unfold inJob. cbn. rewrite filter_app, length_app.
      rewrite filter_cons_False by discriminate. cbn. rewrite Nat.add_0_r.
      by apply Hcount.
    + intros g x Hl. apply lookup_app_Some in Hl as [Hl|[_ Hl]]; [by eapply Hreg|].
      apply list_lookup_singleton_Some in Hl as [_ <-]. cbn. by rewrite Hh.
  - destruct (goroutines st !! g) as [[h q]|] eqn:Hg; [|discriminate].
    destruct q; try discriminate.
    destruct (handlers r !! h) as [[j [m|]]|] eqn:Hh; try discriminate.
    assert (m = h) as -> by (destruct Hwf as (_ & _ & Hm); specialize (Hm h _ Hh); cbn in Hm; congruence).
    destruct (locks st !! h) as [[|]|] eqn:Hlock; [| |discriminate];
      injection Hstep as <-; repeat split; cbn.
    + done.
    + intros h' b Hl. unfold inJob. cbn [goroutines].
      pose proof (inJob_setPc h' g Skipped st h AtTryLock Hg) as Hc.
      rewrite !decide_False in Hc by discriminate. rewrite Nat.add_0_r in Hc.
      rewrite Hc, Nat.add_0_r. by apply Hcount.
    + intros g' x Hl. rewrite (setPc_lookup g Skipped st h AtTryLock g' Hg) in Hl.
      destruct (decide (g' = g)); [injection Hl as <-; cbn; by rewrite Hh|by eapply Hreg].
    + by rewrite length_insert.
    + intros h' b Hl. unfold inJob. cbn [goroutines].
      pose proof (inJob_setPc h' g InJob st h AtTryLock Hg) as Hc.
      rewrite (decide_False (P := _ = mkGoroutine h' InJob)) in Hc by discriminate.
      destruct (decide (h' = h)) as [->|Hne].
      * rewrite list_lookup_insert_eq in Hl by (by eapply lookup_lt_Some).
        injection Hl as <-. rewrite decide_True in Hc by done.
        rewrite (Hcount h false Hlock) in Hc. lia.
      * rewrite list_lookup_insert_ne in Hl by done.
        rewrite decide_False in Hc by congruence.
        rewrite <- (Hcount h' b Hl). lia.
    + intros g' x Hl. rewrite (setPc_lookup g InJob st h AtTryLock g' Hg) in Hl.
      destruct (decide (g' = g)); [injection Hl as <-; cbn; by rewrite Hh|by eapply Hreg].
  - destruct (goroutines st !! g) as [[h q]|] eqn:Hg; [|discriminate].
    destruct q; try discriminate.
    destruct (handlers r !! h) as [[j [m|]]|] eqn:Hh; try discriminate.
    assert (m = h) as -> by (destruct Hwf as (_ & _ & Hm); specialize (Hm h _ Hh); cbn in Hm; congruence).
    destruct (runJob env svc now j (world st)) as [panicked w'].
    injection Hstep as <-.
    assert (Hlt : h < length (locks st)) by (rewrite Hlen; by eapply lookup_lt_Some).
    destruct (lookup_lt_is_Some_2 _ _ Hlt) as [b0 Hb0].
    pose proof (Hcount h b0 Hb0) as Hh0.
    assert (Hge : (1 <= length (inJob h st))%nat).
    { unfold inJob.
      assert (Hin : mkGoroutine h InJob ∈ filter (fun x => x = mkGoroutine h InJob) (goroutines st)).
      { apply list_elem_of_filter. split; [done|]. by eapply list_elem_of_lookup_2. }
      destruct (filter _ _); [by apply elem_of_nil in Hin|cbn; lia]. }
    repeat split; cbn.
    + by rewrite length_insert.
    + intros h' b Hl. unfold inJob. cbn [goroutines].
      pose proof (inJob_setPc h' g Finished st h InJob Hg) as Hc.
      rewrite (decide_False (P := mkGoroutine h Finished = _)) in Hc by discriminate.
      destruct (decide (h' = h)) as [->|Hne].
      * rewrite list_lookup_insert_eq in Hl by done.
        injection Hl as <-. rewrite decide_True in Hc by done.
        destruct b0; lia.
      * rewrite list_lookup_insert_ne in Hl by done.
        rewrite decide_False in Hc by congruence.
        rewrite <- (Hcount h' b Hl). lia.
    + intros g' x Hl. rewrite (setPc_lookup g Finished st h InJob g' Hg) in Hl.
      destruct (decide (g' = g)); [injection Hl as <-; cbn; by rewrite Hh|by eapply Hreg].
Qed.

Lemma lockInvariant_reachable w0 st : reachable env svc r w0 st -> lockInvariant r st.
Proof.
  induction 1 as [|st a st' _ IH Hstep]; [apply lockInvariant_initial|].
  by eapply lockInvariant_step.
Qed.

End Invariant.

(** C9. In every state the process can reach after registration, at most
    one goroutine is inside the job of any one handler. When a firing of a
    handler reaches [TryLock] while another goroutine of the same handler
    is inside the job, its step leaves the locks, the world and every other
    goroutine as they are, records the warning, and ends the goroutine as
    skipped: no further step of that goroutine is possible, so it neither
    waits nor runs later. *)
Theorem single_flight env svc parses cleanupJobs backupJobs r w0 st :
  setup parses cleanupJobs backupJobs = Some r ->
  reachable env svc r w0 st ->
  (forall h, (length (inJob h st) <= 1)%nat)
  /\ (forall g h running,
        crashed st = false ->
        goroutines st !! g = Some (mkGoroutine h AtTryLock) ->
        goroutines st !! running = Some (mkGoroutine h InJob) ->
        exists hd st',
          handlers r !! h = Some hd
          /\ step env svc (handlers r) (Try g) st = Some st'
          /\ locks st' = locks st
          /\ world st' = world st
          /\ warnings st' = warnings st ++ [skipWarning (hJob hd)]
          /\ goroutines st' !! g = Some (mkGoroutine h Skipped)
          /\ (forall g', g' <> g -> goroutines st' !! g' = goroutines st !! g')
          /\ (forall h', inJob h' st' = inJob h' st)
          /\ step env svc (handlers r) (Try g) st' = None
          /\ (forall now, step env svc (handlers r) (Complete g now) st' = None)).
Proof.
  intros Hsetup Hreach.
  pose proof (setup_wellFormed _ _ _ _ Hsetup) as Hwf.
  pose proof (lockInvariant_reachable env svc r Hwf w0 st Hreach) as (Hlen & Hcount & Hreg).
  split.
  - intros h. destruct (locks st !! h) as [b|] eqn:Hl.
    + rewrite (Hcount h b Hl). destruct b; lia.
    + apply lookup_ge_None in Hl. unfold inJob.
      destruct (filter _ (goroutines st)) as [|x l] eqn:Hf; [cbn; lia|].
      assert (Hin : x ∈ filter (fun x => x = mkGoroutine h InJob) (goroutines st))
        by (rewrite Hf; left).
      apply list_elem_of_filter in Hin as [-> Hin].
      apply list_elem_of_lookup in Hin as [g Hg].
      destruct (Hreg g _ Hg) as [hd Hhd]. cbn in Hhd.
      apply lookup_lt_Some in Hhd. lia.
  - intros g h running Hlive Hg Hrun.
    destruct (Hreg g _ Hg) as [[j m] Hh]. cbn [gHandler] in Hh.
    destruct Hwf as (_ & _ & Hm). pose proof (Hm h _ Hh) as Hmh. cbn in Hmh. subst m.
    assert (Hlock : locks st !! h = Some true).
    { assert (Hlt : h < length (locks st)) by (rewrite Hlen; by eapply lookup_lt_Some).
      destruct (lookup_lt_is_Some_2 _ _ Hlt) as [b Hb]. pose proof (Hcount h b Hb) as Hc.
      destruct b; [done|]. unfold inJob in Hc.
      assert (Hin : mkGoroutine h InJob ∈ filter (fun x => x = mkGoroutine h InJob) (goroutines st)).
      { apply list_elem_of_filter. split; [done|]. by eapply list_elem_of_lookup_2. }
      destruct (filter _ _); [by apply elem_of_nil in Hin|discriminate]. }
    eexists (mkHandler j (Some h)), _. split; [exact Hh|].
    split; [unfold step; rewrite Hlive, Hg, Hh, Hlock; reflexivity|].
    cbn [locks world warnings goroutines crashed hJob].
    pose proof (setPc_lookup g Skipped st h AtTryLock) as Hset.
    repeat split.
    + rewrite (Hset g Hg). by rewrite decide_True.
    + intros g' Hne. rewrite (Hset g' Hg). by rewrite decide_False.
    + intros h'. unfold inJob, setPc. cbn [goroutines].
      apply (filter_alter_same _ _ _ g _ Hg); discriminate.
    + unfold step. cbn [crashed goroutines]. rewrite (Hset g Hg), decide_True by done. reflexivity.
    + intros now. unfold step. cbn [crashed goroutines].
      rewrite (Hset g Hg), decide_True by done. reflexivity.
Qed.

Lemma single_flight_witness :
  (length (inJob 1 Example.secondFiring) <= 1)%nat
  /\ exists st',
       step Example.busyIndex Example.service (handlers Example.twoJobs) (Try 1)
            Example.secondFiring = Some st'
       /\ locks st' = locks Example.secondFiring
       /\ world st' = world Example.secondFiring
       /\ goroutines st' !! 1%nat = Some (mkGoroutine 1 Skipped).
Proof.
  assert (Hsetup : setup (fun _ => true) [Example.purgeJob] [Example.logsJob]
                   = Some Example.twoJobs) by (vm_compute; reflexivity).
  assert (Hreach : reachable Example.busyIndex Example.service Example.twoJobs
                     Example.emptyDisk Example.secondFiring).
  { apply (reach_step _ _ _ _
             {| locks := [false; true]; goroutines := [mkGoroutine 1 InJob];
                world := Example.emptyDisk; warnings := []; crashed := false |}
             (Fire 1)); [|vm_compute; reflexivity].
    apply (reach_step _ _ _ _
             {| locks := [false; false]; goroutines := [mkGoroutine 1 AtTryLock];
                world := Example.emptyDisk; warnings := []; crashed := false |}
             (Try 0)); [|vm_compute; reflexivity].
    apply (reach_step _ _ _ _ (initial Example.twoJobs Example.emptyDisk) (Fire 1));
      [apply reach_initial|vm_compute; reflexivity]. }
  destruct (single_flight Example.busyIndex Example.service (fun _ => true)
              [Example.purgeJob] [Example.logsJob] Example.twoJobs Example.emptyDisk
              Example.secondFiring Hsetup Hreach) as [Hone Hskip].
  split; [apply Hone|].
  destruct (Hskip 1%nat 1%nat 0%nat eq_refl eq_refl eq_refl)
    as (hd & st' & _ & Hstep & Hlocks & Hworld & _ & Hg & _).
  exists st'. repeat split; assumption.
Defined.

End SchedulerFacts.

(** ** The target day and the names of the window files *)

Module NameFacts.
Import Observe Calendar CalendarFacts StrFacts Backup WindowFacts.
Local Open Scope Z_scope.

Lemma length_append (a b : string) :
  String.length (a ++ b) = (String.length a + String.length b)%nat.
Proof.
  induction a as [|x a IH]; [reflexivity|]. rewrite append_cons. cbn [String.length].
  by rewrite IH.
Qed.

Lemma noSlash_app a b : noSlash (a ++ b) = noSlash a && noSlash b.
Proof. apply strAll_app. Qed.

Lemma noSlash_pad2 z : noSlash (pad2 z) = true.
Proof.
  unfold pad2. destruct (z <? 10); [|apply itoa_no_slash].
  rewrite noSlash_app. unfold noSlash at 2. by rewrite (itoa_no_slash z).
Qed.

Lemma splitSlash_nonempty s : splitSlash s <> [].
Proof.
  destruct s as [|c s]; [discriminate|]. cbn [splitSlash].
  destruct (isSlash c); [discriminate|]. by destruct (splitSlash s).
Qed.

Lemma splitSlash_plain b : noSlash b = true -> splitSlash b = [b].
Proof.
  induction b as [|c b IH]; [reflexivity|]. unfold noSlash. cbn [strAll splitSlash].
  intros H. apply andb_prop in H as [Hc Hb]. apply negb_true_iff in Hc.
  by rewrite Hc, (IH Hb).
Qed.

(** Splitting at separators goes through a separator between two texts. *)
Lemma splitSlash_slash a b :
  splitSlash (a ++ "/" ++ b) = splitSlash a ++ splitSlash b.
Proof.
  induction a as [|c a IH]; [reflexivity|].
  rewrite append_cons. cbn [splitSlash]. rewrite IH.
  destruct (isSlash c); [reflexivity|].
  pose proof (splitSlash_nonempty a). by destruct (splitSlash a).
Qed.

Lemma eqb_short (name lit : string) :
  (String.length lit < String.length name)%nat -> String.eqb name lit = false.
Proof. intros H. apply String.eqb_neq. intros ->. lia. Qed.

(** A file name without separators, put under the work directory, is left
    as it is by [Join]. *)
Lemma Join_workDir name :
  noSlash name = true -> (3 <= String.length name)%nat ->
  Join ["/tmp/opensearch-backups"%string; name]
  = ("/tmp/opensearch-backups/" ++ name)%string.
Proof.
  intros Hns Hlen. cbn [Join String.eqb Ascii.eqb Bool.eqb].
  unfold Clean.
  change (joinSlash ["/tmp/opensearch-backups"%string; name])
    with ("/tmp/opensearch-backups" ++ "/" ++ name)%string.
  change (isRooted ("/tmp/opensearch-backups" ++ "/" ++ name)) with true.
  rewrite splitSlash_slash, (splitSlash_plain name Hns), fold_left_app.
  change (fold_left (cleanStep true) (splitSlash "/tmp/opensearch-backups") [])
    with ["opensearch-backups"; "tmp"]%string.
  cbn [fold_left]. unfold cleanStep.
  rewrite (eqb_short name ""), (eqb_short name "."), (eqb_short name "..") by (cbn; lia).
  reflexivity.
Qed.

Lemma windowOutcome_name env s job date i f :
  windowOutcome env s job date i = Ok f -> f <> ""%string ->
  f = periodFilename s job date (i + 1).
Proof.
  unfold windowOutcome. destruct (windowAt job date i) as [st en].
  destruct (indicesCount env _ st en) as [count|e]; [|discriminate].
  destruct (count =? 0); [by intros [= <-]|].
  destruct (search env _ st en count); [|discriminate].
  destruct (ioFault env (OpCreate _)); [discriminate|].
  destruct (ioFault env (OpWrite _)); [discriminate|]. by intros [= <-].
Qed.

Lemma survivors_elem f l :
  f ∈ survivors l -> Ok f ∈ l /\ f <> ""%string.
Proof.
  unfold survivors. rewrite list_elem_of_In, in_flat_map.
  intros ([g|e] & Hin & Hf); [|by destruct Hf].
  destruct (String.eqb_spec g ""); [by destruct Hf|].
  destruct Hf as [<-|[]]. split; [by apply list_elem_of_In|done].
Qed.

(** The text of a window's file name without its directory. *)
Lemma periodFilename_literal c job t k :
  noSlash (BackupJob.IndexName job) = true ->
  periodFilename (NewService c) job t k
  = artifactName (date t) (BackupJob.IndexName job) k.
Proof.
  intros Hidx. unfold periodFilename, artifactName, Year, Month, Day.
  destruct (date t) as [[y m] d]. cbn [fst snd workDir NewService].
  apply Join_workDir.
  - rewrite !noSlash_app, !noSlash_pad2, Hidx. unfold noSlash at 5.
    by rewrite itoa_no_slash.
  - rewrite !length_append. cbn [String.length]. lia.
Qed.

Lemma append_cancel_l (a x y : string) : (a ++ x = a ++ y)%string -> x = y.
Proof.
  induction a as [|c a IH]; [done|]. rewrite !append_cons. intros [= H]. by apply IH.
Qed.

Lemma mergedFilename_literal c index t :
  noSlash index = true ->
  mergedFilename (NewService c) index t
  = (let '(y, m, d) := date t in
     "/tmp/opensearch-backups/" ++ pad2 m ++ "-" ++ pad2 d ++ "-"
     ++ pad2 (Z.abs y mod 100) ++ "-" ++ index ++ ".json")%string.
Proof.
  intros Hidx. unfold mergedFilename, Year, Month, Day.
  destruct (date t) as [[y m] d]. cbn [fst snd workDir NewService].
  apply Join_workDir.
  - by rewrite !noSlash_app, !noSlash_pad2, Hidx.
  - rewrite !length_append. cbn [String.length]. lia.
Qed.

(** The day artifact is never one of the window files a run collects, so
    the merger never reads the file it is writing. *)
Lemma merged_not_collected env c now job w :
  noSlash (BackupJob.IndexName job) = true ->
  mergedFilename (NewService c) (BackupJob.IndexName job) (AddDate now 0 0 (-1))
  ∉ fst (collected env (NewService c) now job w).
Proof.
  intros Hidx Hin. rewrite collected_files in Hin.
  apply survivors_elem in Hin as [Hin Hne].
  apply list_elem_of_In, in_map_iff in Hin as (i & Ho & _).
  apply windowOutcome_name in Ho; [|done].
  rewrite periodFilename_literal, mergedFilename_literal in Ho by done.
  unfold artifactName in Ho. destruct (date (AddDate now 0 0 (-1))) as [[y m] d].
  do 8 apply append_cancel_l in Ho. discriminate Ho.
Qed.



End NameFacts.

(** ** The planner for any interval *)

Module PlannerMore.
Import Observe TraceFacts Backup PlannerFacts WindowFacts.
Local Open Scope Z_scope.

(** X1. An interval of zero hours stops the run in a panic before anything
    is done; a negative interval, or one above 24 hours, gives a run without
    a single window, which returns [nil] having done nothing. *)
Theorem Backup_degenerate_interval env s now job w :
  let I := BackupJob.IntervalHours job in
  I <= 0 \/ 24 < I ->
  Backup env s now job w
  = (if I =? 0 then Panicked "runtime error: integer divide by zero"
     else Returned None, w).
Proof.
  intros I HI. unfold Backup. fold I.
  destruct (Z.eqb_spec I 0) as [E|Hne]; [reflexivity|].
  assert (Hq : 24 ÷ I <= 0).
  { destruct HI as [HI|HI].
    - assert (I < 0) by lia. rewrite <- (Z.opp_involutive I), Z.quot_opp_r by lia.
      pose proof (Z.quot_pos 24 (- I) ltac:(lia) ltac:(lia)). lia.
    - rewrite Z.quot_small by lia. lia. }
  rewrite Z2Nat.nonpos by exact Hq. reflexivity.
Qed.

Lemma Backup_degenerate_interval_witness :
  Backup Example.busyIndex Example.service Example.morning
         (BackupJob.mk "logs" "0 6 * * *" 48 "logs" 30) Example.emptyDisk
  = (Returned None, Example.emptyDisk).
Proof.
  apply (Backup_degenerate_interval Example.busyIndex Example.service Example.morning
           (BackupJob.mk "logs" "0 6 * * *" 48 "logs" 30) Example.emptyDisk).
  right. reflexivity.
Defined.

(** X2. For every positive interval a run probes the truncated quotient of
    24 by the interval many windows, and window number [k], counted from 0,
    is exactly the hours from [k * I] up to one millisecond before [(k + 1)
    * I] of the target day, none of them reaching past the day. *)
Theorem planner_windows_any_interval env s now job w :
  let I := BackupJob.IntervalHours job in
  let target := AddDate now 0 0 (-1) in
  let ws := backupWindows env s now job w in
  0 < I ->
  length ws = Z.to_nat (24 / I)
  /\ forall (k : nat) a, ws !! k = Some a ->
       unixNano (fst a) = msOfDay target (Z.of_nat k * I * 3600000)
       /\ unixNano (snd a) = msOfDay target ((Z.of_nat k + 1) * I * 3600000 - 1)
       /\ (Z.of_nat k + 1) * I <= 24.
Proof.
  intros I target ws HI. subst ws.
  rewrite backupWindows_planned by (fold I; lia).
  fold I. rewrite Z.quot_div_nonneg by lia. fold target.
  split; [apply planned_length|].
  intros k a Ha. apply planned_lookup in Ha as [-> Hk].
  assert (Hle : (Z.of_nat k + 1) * I <= 24).
  { pose proof (Z.mul_div_le 24 I HI) as Hm.
    assert ((Z.of_nat k + 1) * I <= (24 / I) * I)
      by (apply Z.mul_le_mono_nonneg_r; lia).
    lia. }
  rewrite windowAt_start, windowAt_end. fold I.
  unfold msOfDay, Millisecond, Second.
  destruct (Z.geb_spec ((Z.of_nat k + 1) * I) 24); (split; [|split]); lia.
Qed.

Lemma planner_windows_any_interval_witness :
  length (backupWindows Example.busyIndex Example.service Example.morning
            (BackupJob.mk "logs" "0 6 * * *" 7 "logs" 30) Example.emptyDisk) = 3%nat.
Proof.
  apply (planner_windows_any_interval Example.busyIndex Example.service Example.morning
           (BackupJob.mk "logs" "0 6 * * *" 7 "logs" 30) Example.emptyDisk).
  reflexivity.
Defined.

End PlannerMore.

(** ** The requests of a run *)

Module RequestFacts.
Import Observe TraceFacts Backup PlannerFacts WindowFacts Requests.
Local Open Scope Z_scope.

Section Loop.
Variables (env : Env) (s : Service) (job : BackupJob.t) (date : Time).
Let I := BackupJob.IntervalHours job.

(** What downloading window [i] adds to the trace. *)
Lemma downloadPeriod_requests i w :
  trace (snd (downloadPeriod env s job date (i * I) (i * I + I) (i + 1) w))
  = trace w ++ windowRequests env job date i.
Proof.
  unfold downloadPeriod, windowRequests, windowAt. fold I.
  destruct (windowBounds date (i * I) (i * I + I)) as [st en].
  unfold bind at 1, getCount, bind at 1, emit, ret at 1. cbn [fst snd trace].
  destruct (indicesCount env _ st en) as [count|e]; [|reflexivity].
  destruct (count =? 0); [reflexivity|].
  unfold bind at 1, searchAndSave, bind at 1, emit. cbn [fst snd trace].
  rewrite <- app_assoc. cbn [app].
  destruct (search env _ st en count) as [resp|e]; [|reflexivity].
  unfold bind at 1, osCreate.
  destruct (ioFault env (OpCreate _)); [reflexivity|].
  unfold bind at 1, setFile, ret at 1. cbn [fst snd].
  unfold bind at 1, appendFile.
  destruct (ioFault env (OpWrite _)); reflexivity.
Qed.

Lemma downloadLoop_requests count n : forall i files w,
  trace (snd (downloadLoop env s job date count n i files w))
  = trace w ++ flat_map (fun k => windowRequests env job date k
                                  ++ pauseAfter env s job date count k)
                        (seqZ i (Z.of_nat n)).
Proof.
  induction n as [|n IH]; intros i files w.
  - cbn. by rewrite app_nil_r.
  - cbn [downloadLoop]. unfold bind at 1. fold I.
    pose proof (downloadPeriod_outcome env s job date i w) as Ho.
    pose proof (downloadPeriod_requests i w) as Ht. fold I in Ho.
    destruct (downloadPeriod env s job date (i * I) (i * I + I) (i + 1) w) as [r w1].
    cbn [fst snd] in Ho, Ht.
    replace (seqZ i (Z.of_nat (S n))) with (i :: seqZ (i + 1) (Z.of_nat n))
      by (rewrite (seqZ_cons i (Z.of_nat (S n))) by lia; do 2 f_equal; lia).
    cbn [flat_map]. unfold pauseAfter at 1. rewrite <- Ho.
    destruct r as [filename|e].
    + unfold bind.
      destruct ((i <? count - 1) && (BackupJob.RequestInterval job >? 0)).
      * unfold emit. rewrite IH. cbn [trace]. rewrite Ht, <- !app_assoc. done.
      * unfold ret at 1. rewrite IH, Ht, <- !app_assoc. done.
    + rewrite IH, Ht, app_nil_r, <- !app_assoc. done.
Qed.

End Loop.

(** X3. The download loop of a run asks, window by window in their order,
    for the count of the window, then, when the count is not zero, for that
    many documents; and it pauses [RequestInterval] seconds after a window
    exactly when the window did not fail, is not the last one and the
    interval is positive. *)
Theorem download_loop_requests env s now job w :
  newEvents w (snd (collected env s now job w))
  = flat_map (fun k => windowRequests env job (AddDate now 0 0 (-1)) k
                       ++ pauseAfter env s job (AddDate now 0 0 (-1))
                                     (24 ÷ BackupJob.IntervalHours job) k)
             (seqZ 0 (24 ÷ BackupJob.IntervalHours job)).
Proof.
  unfold collected. apply newEvents_app. rewrite downloadLoop_requests.
  do 2 f_equal.
  destruct (Z.le_gt_cases 0 (24 ÷ BackupJob.IntervalHours job)).
  - by rewrite Z2Nat.id.
  - rewrite Z2Nat.nonpos by lia. unfold seqZ.
    rewrite (Z2Nat.nonpos (24 ÷ _)) by lia. done.
Qed.

End RequestFacts.

(** ** What a run may ask for, and the name of the object *)

Module RunFacts.
Import Observe TraceFacts StrFacts Backup PlannerFacts WindowFacts NameFacts Requests.
Local Open Scope Z_scope.

Lemma chars_app (a b : string) :
  list_ascii_of_string (a ++ b) = (list_ascii_of_string a ++ list_ascii_of_string b)%list.
Proof.
  induction a as [|c a IH]; [reflexivity|]. rewrite append_cons. cbn. by rewrite IH.
Qed.

(** A path that ends in [.gz] has the extension [.gz]. *)
Lemma Ext_gz (p : string) : Ext (p ++ ".gz") = ".gz"%string.
Proof. unfold Ext. rewrite chars_app, rev_app_distr. reflexivity. Qed.

Lemma strAll_chars p (s : string) :
  strAll p s = true -> Forall (fun c => p c = true) (list_ascii_of_string s).
Proof.
  induction s as [|c s IH]; [constructor|]. cbn. intros H.
  apply andb_prop in H as [Hc Hs]. constructor; [done|by apply IH].
Qed.

Lemma takeToSlash_app l r :
  Forall (fun c => negb (isSlash c) = true) l ->
  takeToSlash (l ++ slash :: r) = l.
Proof.
  induction 1 as [|c l Hc _ IH]; [reflexivity|].
  cbn. apply negb_true_iff in Hc. by rewrite Hc, IH.
Qed.

Lemma dropWhileEnd_keep c l : isSlash c = false -> dropWhileEnd (c :: l) = c :: l.
Proof. intros H. cbn. by rewrite H. Qed.

(** The last element of a path that ends in a name without separators is
    that name. *)
Lemma Base_under (d n : string) :
  noSlash n = true -> n <> ""%string -> Base (d ++ "/" ++ n) = n.
Proof.
  intros Hn Hne. unfold Base.
  assert (String.eqb (d ++ "/" ++ n) "" = false) as ->.
  { apply String.eqb_neq. intros H. apply append_empty in H as [_ H]. discriminate H. }
  rewrite !chars_app, !rev_app_distr.
  change (rev (list_ascii_of_string "/")) with [slash]. rewrite <- app_assoc. cbn [app].
  pose proof (strAll_chars _ _ Hn) as Hall.
  apply Forall_rev in Hall.
  assert (exists c l, rev (list_ascii_of_string n) = c :: l) as (c & l & E).
  { destruct n as [|x n]; [done|]. cbn [list_ascii_of_string rev].
    destruct (rev (list_ascii_of_string n)); cbn; eauto. }
  assert (isSlash c = false) as Hc.
  { rewrite E in Hall. apply Forall_cons in Hall as [Hc _]. by apply negb_true_iff. }
  rewrite E. cbn [app]. rewrite (dropWhileEnd_keep c _ Hc).
  change (c :: (l ++ slash :: rev (list_ascii_of_string d))%list)
    with ((c :: l) ++ slash :: rev (list_ascii_of_string d))%list.
  rewrite <- E, takeToSlash_app by exact Hall.
  rewrite rev_involutive, string_of_list_ascii_of_string.
  by apply String.eqb_neq in Hne as ->.
Qed.

Lemma mergeFiles_name env s files index date w m total :
  fst (mergeFiles env s files index date w) = Ok (m, total) ->
  m = mergedFilename s index date.
Proof.
  unfold mergeFiles, bind at 1.
  destruct (osCreate env _ w) as [[e|] w1]; [discriminate|].
  unfold bind. destruct (mergeLoop _ _ _ _ w1) as [[t|e] w2]; [|discriminate].
  by intros [= <- _].
Qed.

Lemma compressFile_name env filename w c :
  fst (compressFile env filename w) = Ok c -> c = (filename ++ ".gz")%string.
Proof.
  unfold compressFile, bind at 1.
  destruct (readFile env filename w) as [[content|e] w1]; [|discriminate].
  unfold bind at 1. destruct (osCreate env _ w1) as [[e|] w2]; [discriminate|].
  unfold bind. destruct (appendFile env _ _ w2) as [[e|] w3]; [discriminate|].
  destruct (ioFault env (OpClose _)); [discriminate|]. by intros [= <-].
Qed.

(** An upload asks for one object only: every request names the bucket of
    the client, the key and the content type derived from the path. *)
Lemma emits_uploadAttempts_object env c filePath key size ct n attempt lastErr :
  emits (fun e => match e with
                  | EvSleep _ => True
                  | EvPutObject b k _ sz t =>
                      b = Storage.bucket c /\ k = key /\ sz = size /\ t = ct
                  | _ => False
                  end)
        (Storage.uploadAttempts env c filePath key size ct n attempt lastErr).
Proof.
  revert attempt lastErr.
  induction n as [|n IH]; intros attempt lastErr; cbn [Storage.uploadAttempts].
  - emits_tac.
  - apply emits_bind; [eauto with emits|]. intros [content|e]; [|emits_tac].
    apply emits_bind; [by apply emits_emit|]. intros _.
    destruct (putObject env attempt _ _); [|emits_tac].
    apply emits_bind; [|intros _; apply IH].
    destruct (attempt <? Storage.maxRetries); [|emits_tac].
    by apply emits_emit.
Qed.

Lemma emits_Upload_gz env c p key n :
  emits (fun e => match e with
                  | EvSleep _ => True
                  | EvPutObject b k _ _ t =>
                      b = Storage.bucket c /\ k = key /\ t = "application/gzip"%string
                  | _ => False
                  end)
        (Storage.Upload env c (p ++ ".gz") key n).
Proof.
  unfold Storage.Upload. rewrite Ext_gz.
  apply emits_bind; [eauto with emits|]. intros [size|e]; [|emits_tac].
  eapply emits_weaken; [|apply emits_uploadAttempts_object].
  intros [] H; try done. cbn. tauto.
Qed.

Lemma emits_downloadLoop_index env s job date count n i files :
  emits (ofRun s job date) (downloadLoop env s job date count n i files).
Proof.
  revert i files. induction n as [|n IH]; intros i files; cbn [downloadLoop].
  - emits_tac.
  - apply emits_bind.
    { unfold downloadPeriod. destruct (windowBounds date _ _) as [st en].
      unfold getCount, searchAndSave.
      repeat first [ apply emits_emit; cbn; by auto | emits_step ]. }
    intros [filename|e]; [|apply IH].
    apply emits_bind; [|intros _; apply IH].
    destruct (_ && _); [by apply emits_emit|emits_tac].
Qed.

Lemma emits_deliver_object env s job date files :
  emits (ofRun s job date) (deliver env s job date files).
Proof.
  unfold deliver. destruct (length files =? 0)%nat; [emits_tac|].
  intros w. unfold bind at 1.
  pose proof (mergeFiles_name env s files (BackupJob.IndexName job) date w) as Hm.
  destruct (emits_mergeFiles (ofRun s job date) env s files (BackupJob.IndexName job) date w)
    as (l1 & E1 & F1).
  destruct (mergeFiles env s files _ date w) as [[[m total]|e] w1]; cbn [fst snd] in Hm, E1.
  2:{ exists l1. by split. }
  specialize (Hm m total eq_refl). subst m.
  set (merged := mergedFilename s (BackupJob.IndexName job) date) in *.
  unfold bind at 1.
  pose proof (compressFile_name env merged w1) as Hc.
  destruct (emits_compressFile (ofRun s job date) env merged w1) as (l2 & E2 & F2).
  destruct (compressFile env merged w1) as [[c|e] w2]; cbn [fst snd] in Hc, E2.
  2:{ exists (l1 ++ l2)%list. cbn [snd ret].
      rewrite E2, E1, app_assoc. split; [done|by apply Forall_app]. }
  specialize (Hc c eq_refl). subst c.
  unfold bind at 1.
  destruct (emits_Upload_gz env (s3Client s) merged
              (Join [BackupJob.S3Path job; Base (merged ++ ".gz")]) total w2)
    as (l3 & E3 & F3).
  assert (Forall (ofRun s job date) l3) as F3'.
  { eapply Forall_impl; [exact F3|]. intros [] H; try done. }
  destruct (Storage.Upload env _ _ _ total w2) as [up w3]. cbn [snd] in E3.
  destruct up as [e|].
  { exists (l1 ++ l2 ++ l3)%list. cbn [snd ret]. rewrite E3, E2, E1, <- !app_assoc.
    split; [done|]. by repeat apply Forall_app_2. }
  unfold bind.
  destruct (emits_cleanup (ofRun s job date) files merged (merged ++ ".gz")%string w3)
    as (l4 & E4 & F4).
  destruct (cleanup files _ _ w3) as [[] w4]. cbn [snd] in E4.
  exists (l1 ++ l2 ++ l3 ++ l4)%list. cbn [snd ret]. rewrite E4, E3, E2, E1, <- !app_assoc.
  split; [done|]. by repeat apply Forall_app_2.
Qed.

(** X4. A backup run adds to the trace nothing but count and search requests
    for the index of its job, pauses, and requests to put one object: into
    the bucket of the client, under the key made of the job's path and the
    name of the compressed file, as [application/gzip]. It never asks to
    delete documents. *)
Theorem Backup_requests_only env s now job :
  emits (ofRun s job (AddDate now 0 0 (-1))) (Backup env s now job).
Proof.
  unfold Backup. destruct (BackupJob.IntervalHours job =? 0); [emits_tac|].
  apply emits_bind; [apply emits_downloadLoop_index|]. intros files.
  apply emits_bind; [apply emits_deliver_object|]. intros err. emits_tac.
Qed.

(** X5. For an index name without a path separator the compressed file, and
    with it the last element of the object's key, is named after the target
    date, written month-day-year in two digits each, and the index. *)
Theorem object_name c index t :
  noSlash index = true ->
  Base (mergedFilename (NewService c) index t ++ ".gz")
  = (let '(y, m, d) := date t in
     pad2 m ++ "-" ++ pad2 d ++ "-" ++ pad2 (Z.abs y mod 100) ++ "-" ++ index
     ++ ".json.gz")%string.
Proof.
  intros Hidx. rewrite mergedFilename_literal by done.
  destruct (date t) as [[y m] d].
  rewrite !append_assoc.
  apply (Base_under "/tmp/opensearch-backups"
           (pad2 m ++ "-" ++ pad2 d ++ "-" ++ pad2 (Z.abs y mod 100) ++ "-" ++ index
            ++ ".json.gz")).
  - by rewrite !noSlash_app, !noSlash_pad2, Hidx.
  - intros H. do 7 apply append_empty in H as [_ H]. discriminate H.
Qed.

Lemma object_name_witness :
  Base (mergedFilename (NewService Example.client) "logs" (AddDate Example.morning 0 0 (-1))
        ++ ".gz")
  = "02-29-24-logs.json.gz"%string.
Proof.
  rewrite (object_name Example.client "logs" (AddDate Example.morning 0 0 (-1)));
    vm_compute; reflexivity.
Defined.

End RunFacts.

(** ** The files that the steps of a run read and write *)

Module FileFacts.
Import Observe TraceFacts StrFacts Backup WindowFacts NameFacts MergeFacts Requests.
Local Open Scope Z_scope.


Lemma append_longer (a b : string) : b <> ""%string -> (a ++ b)%string <> a.
Proof.
  intros Hb E. apply (f_equal String.length) in E. rewrite length_append in E.
  destruct b; [done|]. cbn in E. lia.
Qed.

(** X7. Compression: when it succeeds, the file it names is the source name
    followed by [.gz], that file holds the gzip stream, made under the last
    element of the source name, of what the source held, and the source is
    still there; when it fails, no file but the [.gz] one has changed, and
    with the source missing nothing has changed at all. It makes no request. *)
Theorem compressFile_effect env filename w :
  let r := compressFile env filename w in
  trace (snd r) = trace w
  /\ match fst r with
     | Ok c =>
         c = (filename ++ ".gz")%string
         /\ exists content,
              fs w !! filename = Some content
              /\ fs (snd r) = <[c := gzipBytes env (Base filename) content]> (fs w)
              /\ fs (snd r) !! filename = Some content
     | Err e =>
         (forall f, f <> (filename ++ ".gz")%string -> fs (snd r) !! f = fs w !! f)
         /\ (fs w !! filename = None -> fs (snd r) = fs w)
     end.
Proof.
  intros r. unfold r. clear r.
  destruct (compressFile env filename w) as [res w'] eqn:E. cbn [fst snd].
  unfold compressFile, bind at 1, readFile in E.
  destruct (ioFault env (OpOpen filename)).
  { injection E as <- <-. split; [done|split; done]. }
  destruct (fs w !! filename) as [content|] eqn:Hsrc.
  2:{ injection E as <- <-. split; [done|split; done]. }
  unfold bind at 1, osCreate in E.
  destruct (ioFault env (OpCreate _)).
  { injection E as <- <-. split; [done|split; done]. }
  unfold bind at 1, setFile, ret at 1 in E. cbn [fst snd] in E.
  unfold bind at 1, appendFile in E.
  destruct (ioFault env (OpWrite _)).
  { injection E as <- <-. cbn [fs trace]. split; [done|]. split; [|done].
    intros f Hf. by rewrite lookup_insert_ne. }
  cbn [fst snd fs trace] in E. rewrite lookup_insert_eq, insert_insert_eq in E.
  cbn [default app] in E.
  destruct (ioFault env (OpClose _)); injection E as <- <-; cbn [fs trace].
  - split; [done|]. split; [|done]. intros f Hf. by rewrite lookup_insert_ne.
  - split; [done|]. split; [done|]. exists content. split; [done|]. split; [done|].
    rewrite lookup_insert_ne; [done|]. by apply append_longer.
Qed.

Section Stopping.
Variables (env : Env) (merged bad : string) (post : list string).
Hypothesis Hio : forall op, ioFault env op = None.
Hypothesis Hbad : bad <> merged.

Lemma mergeLoop_stops pre : forall contents acc total w,
  Forall2 (fun f c => f <> merged /\ fs w !! f = Some c) pre contents ->
  Forall (fun c => exists n, decodeHits env c = Ok n) contents ->
  fs w !! merged = Some acc ->
  (forall c, fs w !! bad = Some c -> exists cause, decodeHits env c = Err cause) ->
  exists e w',
    mergeLoop env merged (pre ++ bad :: post) total w = (Err e, w')
    /\ fs w' = <[merged := acc ++ concat contents]> (fs w)
    /\ trace w' = trace w
    /\ badFile env bad (fs w) e.
Proof.
  induction pre as [|f pre IH]; intros contents acc total w Hall Hdec Hacc Hb.
  - apply Forall2_nil_inv_l in Hall as ->. cbn [app concat mergeLoop].
    rewrite app_nil_r, insert_id by done.
    unfold bind at 1, readFile, badFile. rewrite Hio.
    destruct (fs w !! bad) as [c|] eqn:E.
    + destruct (Hb c eq_refl) as [cause Hc]. rewrite Hc.
      eexists _, w. repeat split. eauto.
    + eexists _, w. repeat split.
  - apply Forall2_cons_inv_l in Hall as (c & contents' & [Hne Hf] & Hall & ->).
    apply Forall_cons in Hdec as [[hits Hhits] Hdec].
    cbn [app mergeLoop]. unfold bind at 1, readFile. rewrite Hio, Hf, Hhits.
    unfold bind at 1, appendFile. rewrite Hio, Hacc. cbn [default].
    match goal with |- context [mergeLoop _ _ _ _ ?w1] =>
      destruct (IH contents' (acc ++ c) (total + hits) w1) as (e & w' & Hrun & Hfs & Htr & He)
    end.
    + cbn [fs]. eapply Forall2_impl; [exact Hall|]. intros f' c' [Hd Hf']. cbn beta.
      split; [done|]. by rewrite lookup_insert_ne.
    + done.
    + cbn [fs]. by rewrite lookup_insert_eq.
    + cbn [fs]. intros c'. rewrite lookup_insert_ne by done. apply Hb.
    + exists e, w'. split; [exact Hrun|]. cbn [fs trace] in Hfs, Htr.
      rewrite Hfs, insert_insert_eq. cbn [concat]. rewrite <- app_assoc.
      repeat split; [done|]. unfold badFile in He |- *. cbn [fs] in He.
      by rewrite lookup_insert_ne in He.
Qed.

End Stopping.

(** X8. A merge stops at the first file that is missing or does not decode:
    it returns the error of that file, the missing file's own or the
    decoder's wrapped with the file's name, and leaves the day artifact on
    disk with the contents of the files before it. *)
Theorem mergeFiles_stops_at_bad_file env s pre bad post indexName date contents w :
  let merged := mergedFilename s indexName date in
  (forall op, ioFault env op = None) ->
  merged ∉ pre -> bad <> merged ->
  Forall2 (fun f c => fs w !! f = Some c) pre contents ->
  Forall (fun c => exists n, decodeHits env c = Ok n) contents ->
  (forall c, fs w !! bad = Some c -> exists cause, decodeHits env c = Err cause) ->
  exists e w',
    mergeFiles env s (pre ++ bad :: post) indexName date w = (Err e, w')
    /\ fs w' = <[merged := concat contents]> (fs w)
    /\ trace w' = trace w
    /\ badFile env bad (fs w) e.
Proof.
  intros merged Hio Hnot Hbad Hall Hdec Hb.
  pose proof (Forall2_not_merged merged (fs w) pre contents Hnot Hall) as Hall'.
  unfold mergeFiles. fold merged. unfold bind at 1, osCreate. rewrite Hio.
  unfold bind at 1, setFile, ret at 1. cbn [fst snd]. unfold bind.
  match goal with |- context [mergeLoop _ _ _ _ ?w1] =>
    destruct (mergeLoop_stops env merged bad post Hio Hbad pre contents [] 0 w1)
      as (e & w' & Hrun & Hfs & Htr & He)
  end.
  - cbn [fs]. eapply Forall2_impl; [exact Hall'|]. intros f c [Hne Hf]. cbn beta.
    split; [done|]. by rewrite lookup_insert_ne.
  - done.
  - cbn [fs]. by rewrite lookup_insert_eq.
  - cbn [fs]. intros c. rewrite lookup_insert_ne by done. apply Hb.
  - rewrite Hrun. exists e, w'. split; [done|]. cbn [fs trace] in Hfs, Htr.
    rewrite Hfs, insert_insert_eq. repeat split; [done|].
    unfold badFile in He |- *. cbn [fs] in He. by rewrite lookup_insert_ne in He.
Qed.

Lemma mergeFiles_stops_at_bad_file_witness :
  exists e w',
    mergeFiles Example.busyIndex Example.service
      ([Example.window3] ++ "/tmp/opensearch-backups/02-29-24-logs-5.json"%string
                         :: [Example.window7])
      "logs" Example.yesterday Example.twoWindows = (Err e, w')
    /\ fs w' = <[mergedFilename Example.service "logs" Example.yesterday
                 := concat [repeat x61 10]]> (fs Example.twoWindows)
    /\ trace w' = trace Example.twoWindows
    /\ badFile Example.busyIndex "/tmp/opensearch-backups/02-29-24-logs-5.json"
               (fs Example.twoWindows) e.
Proof.
  apply (mergeFiles_stops_at_bad_file Example.busyIndex Example.service
           [Example.window3] "/tmp/opensearch-backups/02-29-24-logs-5.json"
           [Example.window7] "logs" Example.yesterday [repeat x61 10] Example.twoWindows).
  - intros op. reflexivity.
  - replace (mergedFilename Example.service "logs" Example.yesterday)
      with Example.dayFile by (vm_compute; reflexivity).
    intros H. apply elem_of_cons in H as [H|H]; [discriminate H|].
    by apply elem_of_nil in H.
  - replace (mergedFilename Example.service "logs" Example.yesterday)
      with Example.dayFile by (vm_compute; reflexivity). discriminate.
  - constructor; [vm_compute; reflexivity|constructor].
  - constructor; [|constructor]. eexists. reflexivity.
  - intros c H. vm_compute in H. discriminate H.
Defined.

(** X9. An upload does not change a file in any case; and for a file that is
    not there it returns the error of the failed [os.Stat], wrapped, without
    a single request to the store. *)
Theorem Upload_reads_only env c filePath key documentCount w :
  fs (snd (Storage.Upload env c filePath key documentCount w)) = fs w
  /\ (fs w !! filePath = None ->
      exists e, Storage.Upload env c filePath key documentCount w
                = (Some (ErrWrap "failed to stat file" e), w)).
Proof.
  split.
  - unfold Storage.Upload, bind, statSize.
    destruct (ioFault env (OpStat filePath)); [reflexivity|].
    destruct (fs w !! filePath); [|reflexivity].
    generalize (Z.to_nat Storage.maxRetries), 1, (@None error).
    intros n. revert w. induction n as [|n IH]; intros w attempt lastErr; [reflexivity|].
    cbn [Storage.uploadAttempts]. unfold bind at 1, readFile.
    destruct (ioFault env (OpOpen filePath)); [reflexivity|].
    destruct (fs w !! filePath); [|reflexivity].
    unfold bind at 1, emit.
    destruct (putObject env attempt _ key); [|reflexivity].
    unfold bind. destruct (attempt <? Storage.maxRetries); cbn [emit ret fst snd];
      by rewrite IH.
  - intros Hf. unfold Storage.Upload, bind, statSize. rewrite Hf.
    destruct (ioFault env (OpStat filePath)); eauto.
Qed.

End FileFacts.

(** ** Removing the temporary files *)

Module RemovalFacts.
Import Observe TraceFacts Backup PlannerFacts CleanupOfFiles.

(** X10. [cleanup] makes no request and removes the window files and the
    merged file, and nothing else: every other file is as before, the
    compressed file it is given among them unless that is itself one of the
    files to remove. *)
Theorem cleanup_effect tempFiles mergedFile compressedFile w :
  trace (snd (cleanup tempFiles mergedFile compressedFile w)) = trace w
  /\ (forall f, f ∈ mergedFile :: tempFiles ->
        fs (snd (cleanup tempFiles mergedFile compressedFile w)) !! f = None)
  /\ (forall f, f ∉ mergedFile :: tempFiles ->
        fs (snd (cleanup tempFiles mergedFile compressedFile w)) !! f = fs w !! f).
Proof.
  split.
  - destruct (emits_cleanup (fun _ => False) tempFiles mergedFile compressedFile w)
      as (l & Htr & F).
    destruct l as [|e l]; [by rewrite Htr, app_nil_r|]. by apply Forall_cons in F as [[] _].
  - split.
    + intros f Hf. by rewrite cleanup_lookup, bool_decide_eq_true_2.
    + intros f Hf. by rewrite cleanup_lookup, bool_decide_eq_false_2.
Qed.

End RemovalFacts.

(** ** From the collected files to the object in the store *)

Module DeliverFacts.
Import Observe TraceFacts StrFacts Backup PlannerFacts WindowFacts NameFacts MergeFacts
       CleanupOfFiles
       RunFacts FileFacts.
Local Open Scope Z_scope.

Lemma mergeFiles_ok env s files indexName date contents w m total w1 :
  mergedFilename s indexName date ∉ files ->
  Forall2 (fun f c => fs w !! f = Some c) files contents ->
  mergeFiles env s files indexName date w = (Ok (m, total), w1) ->
  m = mergedFilename s indexName date
  /\ fs w1 = <[m := concat contents]> (fs w)
  /\ trace w1 = trace w
  /\ exists counts, Forall2 (fun c n => decodeHits env c = Ok n) contents counts
                    /\ total = sumZ counts.
Proof.
  intros Hnot Hall Hrun. set (merged := mergedFilename s indexName date) in *.
  pose proof (Forall2_not_merged merged (fs w) files contents Hnot Hall) as Hall'.
  unfold mergeFiles in Hrun. fold merged in Hrun.
  unfold bind at 1, osCreate in Hrun.
  destruct (ioFault env (OpCreate merged)); [discriminate|].
  unfold bind at 1, setFile, ret at 1 in Hrun. cbn [fst snd] in Hrun.
  unfold bind in Hrun.
  destruct (mergeLoop env merged files 0 _) as [[res|e] w2] eqn:Hloop; [|discriminate].
  injection Hrun as <- <- <-.
  assert (Hall1 : Forall2 (fun f c => f <> merged /\
            fs {| fs := <[merged := []]> (fs w); trace := trace w |} !! f = Some c)
            files contents).
  { eapply Forall2_impl; [exact Hall'|]. intros f c [Hne Hf]. cbn.
    split; [done|]. by rewrite lookup_insert_ne. }
  destruct (mergeLoop_ok env merged files contents [] 0 res _ w2 Hall1)
    as (Hfs & Htr & counts & Hc & Hres);
    [cbn; by rewrite lookup_insert_eq | exact Hloop |].
  cbn [fs trace] in Hfs, Htr. rewrite insert_insert_eq in Hfs.
  split; [done|]. split; [done|]. split; [done|].
  exists counts. split; [done|lia].
Qed.

Lemma compressFile_ok env filename w c w1 :
  compressFile env filename w = (Ok c, w1) ->
  c = (filename ++ ".gz")%string
  /\ trace w1 = trace w
  /\ exists content,
       fs w !! filename = Some content
       /\ fs w1 = <[c := gzipBytes env (Base filename) content]> (fs w).
Proof.
  intros E. unfold compressFile, bind at 1, readFile in E.
  destruct (ioFault env (OpOpen filename)); [discriminate|].
  destruct (fs w !! filename) as [content|] eqn:Hsrc; [|discriminate].
  unfold bind at 1, osCreate in E.
  destruct (ioFault env (OpCreate _)); [discriminate|].
  unfold bind at 1, setFile, ret at 1 in E. cbn [fst snd] in E.
  unfold bind at 1, appendFile in E.
  destruct (ioFault env (OpWrite _)); [discriminate|].
  cbn [fst snd fs trace] in E. rewrite lookup_insert_eq, insert_insert_eq in E.
  cbn [default app] in E.
  destruct (ioFault env (OpClose _)); [discriminate|]. injection E as <- <-.
  cbn [fs trace]. split; [done|]. split; [done|]. by exists content.
Qed.

(** An upload that succeeds ends with the request that the store accepted:
    the whole file, under the given key. *)
Lemma uploadAttempts_ok env c filePath key size ct content n :
  forall attempt lastErr w w1,
  fs w !! filePath = Some content ->
  Storage.uploadAttempts env c filePath key size ct n attempt lastErr w = (None, w1) ->
  fs w1 = fs w
  /\ exists l, trace w1 = trace w ++ l ++ [EvPutObject (Storage.bucket c) key content size ct].
Proof.
  induction n as [|n IH]; intros attempt lastErr w w1 Hf E; [discriminate|].
  cbn [Storage.uploadAttempts] in E. unfold bind at 1, readFile in E.
  destruct (ioFault env (OpOpen filePath)); [discriminate|]. rewrite Hf in E.
  unfold bind at 1, emit in E.
  destruct (putObject env attempt _ key).
  2:{ injection E as <-. cbn [fs trace]. split; [done|]. by exists []. }
  unfold bind in E.
  destruct (attempt <? Storage.maxRetries); unfold emit, ret in E; cbn [fst snd] in E.
  - apply IH in E as [Hfs [l Ht]]; [|exact Hf]. cbn [fs trace] in Hfs, Ht.
    split; [exact Hfs|].
    exists (EvPutObject (Storage.bucket c) key content size ct
            :: EvSleep (Storage.baseDelay * attempt) :: l).
    rewrite Ht, <- !app_assoc. reflexivity.
  - apply IH in E as [Hfs [l Ht]]; [|exact Hf]. cbn [fs trace] in Hfs, Ht.
    split; [exact Hfs|].
    exists (EvPutObject (Storage.bucket c) key content size ct :: l).
    rewrite Ht, <- !app_assoc. reflexivity.
Qed.

Lemma Upload_ok env c p key documentCount content w w1 :
  fs w !! (p ++ ".gz")%string = Some content ->
  Storage.Upload env c (p ++ ".gz") key documentCount w = (None, w1) ->
  fs w1 = fs w
  /\ exists l, trace w1
               = trace w ++ l ++ [EvPutObject (Storage.bucket c) key content
                                    (Z.of_nat (length content)) "application/gzip"].
Proof.
  intros Hf E. unfold Storage.Upload, bind, statSize in E. rewrite Ext_gz, Hf in E.
  destruct (ioFault env (OpStat _)); [discriminate|].
  change (String.eqb ".gz" ".json") with false in E. cbv iota in E.
  by apply (uploadAttempts_ok _ _ _ _ _ _ content) in E.
Qed.

(** The world after a delivery that ends without error, file by file. *)
Lemma deliver_ok env s job date files contents w w' :
  let merged := mergedFilename s (BackupJob.IndexName job) date in
  let gz := (merged ++ ".gz")%string in
  let body := gzipBytes env (Base merged) (concat contents) in
  files <> [] -> merged ∉ files ->
  Forall2 (fun f c => fs w !! f = Some c) files contents ->
  deliver env s job date files w = (None, w') ->
  (exists l, trace w'
             = trace w ++ l ++ [EvPutObject (Storage.bucket (s3Client s))
                                  (Join [BackupJob.S3Path job; Base gz]) body
                                  (Z.of_nat (length body)) "application/gzip"])
  /\ (forall f, fs w' !! f
                = if bool_decide (f ∈ merged :: files) then None
                  else if bool_decide (f = gz) then Some body
                  else fs w !! f).
Proof.
  intros merged gz body Hne Hm Hall E.
  unfold deliver in E. destruct files as [|f0 files0] eqn:Ef; [done|].
  rewrite <- Ef in *. assert ((length files =? 0)%nat = false) as Hlen by (by rewrite Ef).
  rewrite Hlen in E. clear Hlen Hne.
  unfold bind at 1 in E.
  destruct (mergeFiles env s files _ date w) as [[[m total]|e] w1] eqn:Em; [|discriminate].
  destruct (mergeFiles_ok _ _ _ _ _ _ _ _ _ _ Hm Hall Em) as (-> & Hfs1 & Htr1 & _).
  fold merged in E, Hfs1.
  unfold bind at 1 in E.
  destruct (compressFile env merged w1) as [[c|e] w2] eqn:Ec; [|discriminate].
  destruct (compressFile_ok _ _ _ _ _ Ec) as (-> & Htr2 & content & Hsrc & Hfs2).
  rewrite Hfs1, lookup_insert_eq in Hsrc. injection Hsrc as <-.
  fold gz body in E, Hfs2.
  unfold bind at 1 in E.
  destruct (Storage.Upload env _ gz _ total w2) as [[e|] w3] eqn:Eu; [discriminate|].
  destruct (Upload_ok env (s3Client s) merged (Join [BackupJob.S3Path job; Base gz])
              total body w2 w3) as (Hfs3 & l & Htr3); [|exact Eu|].
  { fold gz. by rewrite Hfs2, lookup_insert_eq. }
  unfold bind, ret in E.
  pose proof (fun f => cleanup_lookup files merged gz f w3) as Hcl.
  destruct (emits_cleanup (fun _ => False) files merged gz w3) as (l4 & Htr4 & F4).
  destruct (cleanup files merged gz w3) as [[] w4]. injection E as <-.
  cbn [snd] in Hcl, Htr4.
  assert (l4 = []) as -> by (destruct l4; [done|by apply Forall_cons in F4 as [[] _]]).
  split.
  - exists l. rewrite Htr4, app_nil_r, Htr3, Htr2, Htr1. done.
  - intros f. rewrite Hcl. destruct (bool_decide (f ∈ merged :: files)) eqn:Hin; [done|].
    apply bool_decide_eq_false_1 in Hin. rewrite Hfs3, Hfs2, Hfs1.
    destruct (decide (f = gz)) as [->|Hgz].
    + by rewrite bool_decide_eq_true_2, lookup_insert_eq.
    + rewrite bool_decide_eq_false_2, !lookup_insert_ne; [done| |done|done].
      intros <-. apply Hin. by left.
Qed.

(** X11. Delivery that ends without error: the last request is the one the
    store accepted, and it carries, under the key made of the job's path and
    the name of the compressed file, the gzip stream of the contents of the
    collected files one after the other in their order. Afterwards the
    collected files and the merged file are gone, the compressed file is on
    disk with that stream, and every other file is as it was. *)
Theorem deliver_success env s job date files contents w w' :
  let merged := mergedFilename s (BackupJob.IndexName job) date in
  let gz := (merged ++ ".gz")%string in
  let body := gzipBytes env (Base merged) (concat contents) in
  files <> [] -> merged ∉ files -> gz ∉ files ->
  Forall2 (fun f c => fs w !! f = Some c) files contents ->
  deliver env s job date files w = (None, w') ->
  (exists l, trace w'
             = trace w ++ l ++ [EvPutObject (Storage.bucket (s3Client s))
                                  (Join [BackupJob.S3Path job; Base gz]) body
                                  (Z.of_nat (length body)) "application/gzip"])
  /\ fs w' !! gz = Some body
  /\ fs w' !! merged = None
  /\ (forall f, f ∈ files -> fs w' !! f = None)
  /\ (forall f, f ∉ files -> f <> merged -> f <> gz -> fs w' !! f = fs w !! f).
Proof.
  intros merged gz body Hne Hm Hgz Hall E.
  destruct (deliver_ok env s job date files contents w w' Hne Hm Hall E) as [Htr Hfs].
  fold merged gz body in Htr, Hfs.
  assert (Hgzm : gz <> merged) by (by apply append_longer).
  split; [exact Htr|]. split; [|split; [|split]].
  - rewrite Hfs, bool_decide_eq_false_2, bool_decide_eq_true_2; [done..|].
    intros H. apply elem_of_cons in H as [H|H]; done.
  - rewrite Hfs, bool_decide_eq_true_2; [done|by left].
  - intros f Hf. rewrite Hfs, bool_decide_eq_true_2; [done|by right].
  - intros f Hf Hfm Hfg. rewrite Hfs, !bool_decide_eq_false_2; [done..|].
    intros H. apply elem_of_cons in H as [H|H]; done.
Qed.

Lemma deliver_success_witness :
  fs (snd (deliver Example.busyIndex Example.service Example.logsJob Example.yesterday
             [Example.window3; Example.window7] Example.twoWindows))
    !! (mergedFilename Example.service "logs" Example.yesterday ++ ".gz")%string
  = Some (gzipBytes Example.busyIndex
            (Base (mergedFilename Example.service "logs" Example.yesterday))
            (concat [repeat x61 10; repeat x62 5])).
Proof.
  refine (proj1 (proj2 (deliver_success Example.busyIndex Example.service Example.logsJob
            Example.yesterday [Example.window3; Example.window7]
            [repeat x61 10; repeat x62 5] Example.twoWindows _ _ _ _ _ _))).
  - discriminate.
  - replace (mergedFilename Example.service (BackupJob.IndexName Example.logsJob)
               Example.yesterday)
      with Example.dayFile by (vm_compute; reflexivity).
    intros H. apply elem_of_cons in H as [H|H]; [discriminate H|].
    apply elem_of_cons in H as [H|H]; [discriminate H|]. by apply elem_of_nil in H.
  - replace (mergedFilename Example.service (BackupJob.IndexName Example.logsJob)
               Example.yesterday ++ ".gz")%string
      with Example.gzFile by (vm_compute; reflexivity).
    intros H. apply elem_of_cons in H as [H|H]; [discriminate H|].
    apply elem_of_cons in H as [H|H]; [discriminate H|]. by apply elem_of_nil in H.
  - constructor; [vm_compute; reflexivity|].
    constructor; [vm_compute; reflexivity|]. constructor.
  - vm_compute. reflexivity.
Defined.

End DeliverFacts.

(** ** From the windows to the object: a whole run *)

Module DayFacts.
Import Observe TraceFacts StrFacts Backup PlannerFacts WindowFacts NameFacts MergeFacts
       CleanupOfFiles Requests RunFacts FileFacts DeliverFacts.
Local Open Scope Z_scope.

Lemma append_cancel_r (a b c : string) : (a ++ c = b ++ c)%string -> a = b.
Proof.
  revert b. induction a as [|x a IH]; intros [|y b] H.
  - done.
  - apply (f_equal String.length) in H. rewrite !length_append in H.
    cbn [String.length] in H. lia.
  - apply (f_equal String.length) in H. rewrite !length_append in H.
    cbn [String.length] in H. lia.
  - rewrite !append_cons in H. injection H as -> H. f_equal. by apply IH.
Qed.

(** Reading a printed number gives the number back. *)
Lemma itoa_read z : NilZero.int_of_string (itoa z) = Some (Z.to_int z).
Proof.
  unfold itoa. apply NilZero.isi.
  - destruct z; cbn; try discriminate. intros [= H].
    by apply DecimalPos.Unsigned.to_uint_nonnil in H.
  - destruct z; cbn; try discriminate. intros [= H].
    by apply DecimalPos.Unsigned.to_uint_nonnil in H.
Qed.

Lemma itoa_inj a b : itoa a = itoa b -> a = b.
Proof.
  intros H. apply DecimalZ.to_int_inj.
  pose proof (itoa_read a) as Ha. rewrite H, itoa_read in Ha. by injection Ha.
Qed.

(** X12. The windows of one run write to files of different names, so none
    of them overwrites what another has saved: two window numbers give the
    same file name only when they are the same number. *)
Theorem periodFilename_injective c job t a b :
  noSlash (BackupJob.IndexName job) = true ->
  periodFilename (NewService c) job t a = periodFilename (NewService c) job t b
  <-> a = b.
Proof.
  intros Hidx. split; [|by intros ->].
  intros H. rewrite !periodFilename_literal in H by done.
  unfold artifactName in H. destruct (date t) as [[y m] d].
  do 9 apply append_cancel_l in H. apply append_cancel_r in H. by apply itoa_inj.
Qed.

Lemma periodFilename_injective_witness :
  periodFilename (NewService Example.client) Example.logsJob Example.yesterday 3
  = periodFilename (NewService Example.client) Example.logsJob Example.yesterday 7
  <-> 3 = 7.
Proof.
  apply (periodFilename_injective Example.client Example.logsJob Example.yesterday 3 7).
  reflexivity.
Defined.

Section Handover.
Variables (env : Env) (s : Service) (job : BackupJob.t) (date : Time).
Let I := BackupJob.IntervalHours job.
Hypothesis Hinj : forall a b,
  periodFilename s job date a = periodFilename s job date b -> a = b.

(** The file a window leaves is the one its outcome names. *)
Lemma survivors_windowFile i :
  survivors [windowOutcome env s job date i]
  = match windowFile env s job date i with Some (f, _) => [f] | None => [] end.
Proof.
  unfold survivors, windowOutcome, windowFile. cbn [flat_map].
  destruct (windowAt job date i) as [st en].
  destruct (indicesCount env _ st en) as [count|e]; [|reflexivity].
  destruct (count =? 0); [reflexivity|].
  destruct (search env _ st en count) as [resp|e]; [|reflexivity].
  destruct (ioFault env (OpCreate _)); [reflexivity|].
  destruct (ioFault env (OpWrite _)); [reflexivity|].
  destruct (String.eqb_spec (periodFilename s job date (i + 1)) "") as [E|_]; [|reflexivity].
  by apply periodFilename_nonempty in E.
Qed.

Lemma survivors_windowFiles l :
  survivors (map (windowOutcome env s job date) l)
  = (omap (windowFile env s job date) l).*1.
Proof.
  induction l as [|i l IH]; [reflexivity|].
  cbn [map]. rewrite survivors_cons, survivors_windowFile, IH.
  change (omap (windowFile env s job date) (i :: l))
    with (match windowFile env s job date i with
          | Some y => y :: omap (windowFile env s job date) l
          | None => omap (windowFile env s job date) l
          end).
  by destruct (windowFile env s job date i) as [[f c]|].
Qed.

(** A window writes to its own file only, and a window that leaves a file
    has put the answer of its search into it. *)
Lemma downloadPeriod_file i w r w1 :
  downloadPeriod env s job date (i * I) (i * I + I) (i + 1) w = (r, w1) ->
  (forall f, f <> periodFilename s job date (i + 1) -> fs w1 !! f = fs w !! f)
  /\ (forall f c, windowFile env s job date i = Some (f, c) ->
        f = periodFilename s job date (i + 1) /\ fs w1 !! f = Some c).
Proof.
  unfold downloadPeriod, windowFile, windowAt. fold I.
  destruct (windowBounds date (i * I) (i * I + I)) as [st en].
  unfold bind at 1, getCount, bind at 1, emit, ret at 1. cbn [fst snd].
  destruct (indicesCount env _ st en) as [count|e]; [|by intros [= <- <-]].
  destruct (count =? 0); [by intros [= <- <-]|].
  unfold bind at 1, searchAndSave, bind at 1, emit. cbn [fst snd].
  destruct (search env _ st en count) as [resp|e]; [|by intros [= <- <-]].
  unfold bind at 1, osCreate.
  destruct (ioFault env (OpCreate _)); [by intros [= <- <-]|].
  unfold bind at 1, setFile, ret at 1. cbn [fst snd].
  unfold bind at 1, appendFile.
  destruct (ioFault env (OpWrite _)); cbn [fst snd fs ret]; intros [= <- <-]; cbn [fs].
  - split; [|done]. intros f Hf. by rewrite lookup_insert_ne.
  - rewrite lookup_insert_eq, insert_insert_eq. cbn [default app]. split.
    + intros f Hf. by rewrite lookup_insert_ne.
    + intros f c [= <- <-]. split; [done|]. by rewrite lookup_insert_eq.
Qed.

(** One turn of the loop: the window, then the rest of the loop in a world
    with the same files. *)
Lemma downloadLoop_step count n i files w :
  exists r w1 files1 w2,
    downloadPeriod env s job date (i * I) (i * I + I) (i + 1) w = (r, w1)
    /\ fs w2 = fs w1
    /\ downloadLoop env s job date count (S n) i files w
       = downloadLoop env s job date count n (i + 1) files1 w2.
Proof.
  cbn [downloadLoop]. unfold bind at 1. fold I.
  destruct (downloadPeriod env s job date (i * I) (i * I + I) (i + 1) w) as [r w1].
  exists r, w1. destruct r as [filename|e].
  - unfold bind. destruct ((i <? count - 1) && (BackupJob.RequestInterval job >? 0)).
    + unfold emit. eexists _, {| fs := fs w1; trace := _ |}.
      split; [reflexivity|]. split; reflexivity.
    + unfold ret. eexists _, w1. split; [reflexivity|]. split; reflexivity.
  - exists files, w1. split; [reflexivity|]. split; reflexivity.
Qed.

Lemma downloadLoop_contents count n : forall i files w,
  (forall f, (forall k, i <= k < i + Z.of_nat n -> f <> periodFilename s job date (k + 1)) ->
     fs (snd (downloadLoop env s job date count n i files w)) !! f = fs w !! f)
  /\ (forall k f c, i <= k < i + Z.of_nat n ->
        windowFile env s job date k = Some (f, c) ->
        fs (snd (downloadLoop env s job date count n i files w)) !! f = Some c).
Proof.
  induction n as [|n IH]; intros i files w.
  { split; [done|]. intros k f c Hk. lia. }
  destruct (downloadLoop_step count n i files w) as (r & w1 & files1 & w2 & E & Hw2 & ->).
  destruct (downloadPeriod_file i w r w1 E) as [Hother Hown].
  destruct (IH (i + 1) files1 w2) as [IH1 IH2].
  split.
  - intros f Hf. rewrite IH1 by (intros k Hk; apply Hf; lia).
    rewrite Hw2. apply Hother, Hf. lia.
  - intros k f c Hk Hfile. destruct (decide (k = i)) as [->|Hne].
    + destruct (Hown f c Hfile) as [-> Hc].
      rewrite IH1, Hw2; [done|].
      intros k Hk' E'. apply Hinj in E'. lia.
    + apply (IH2 k); [lia|done].
Qed.

End Handover.

(** The compressed file is not one of the window files either. *)
Lemma compressed_not_collected env c now job w :
  noSlash (BackupJob.IndexName job) = true ->
  (mergedFilename (NewService c) (BackupJob.IndexName job) (AddDate now 0 0 (-1)) ++ ".gz")%string
  ∉ fst (collected env (NewService c) now job w).
Proof.
  intros Hidx Hin. rewrite collected_files in Hin.
  apply survivors_elem in Hin as [Hin Hne].
  apply list_elem_of_In, in_map_iff in Hin as (i & Ho & _).
  apply windowOutcome_name in Ho; [|done].
  rewrite periodFilename_literal, mergedFilename_literal in Ho by done.
  unfold artifactName in Ho. destruct (date (AddDate now 0 0 (-1))) as [[y m] d].
  rewrite !append_assoc in Ho.
  do 8 apply append_cancel_l in Ho. discriminate Ho.
Qed.

(** What the download loop hands over: the files it has collected are the
    files of the windows, in window order, and each of them holds the answer
    of its window's search. *)
Lemma collected_contents env c now job w :
  noSlash (BackupJob.IndexName job) = true ->
  fst (collected env (NewService c) now job w) = (windowFiles env (NewService c) now job).*1
  /\ Forall2 (fun f content => fs (snd (collected env (NewService c) now job w)) !! f
                               = Some content)
             (windowFiles env (NewService c) now job).*1
             (windowFiles env (NewService c) now job).*2.
Proof.
  intros Hidx. split.
  - rewrite collected_files. apply survivors_windowFiles.
  - unfold windowFiles, collected.
    set (target := AddDate now 0 0 (-1)). set (count := 24 ÷ BackupJob.IntervalHours job).
    assert (Hinj : forall a b,
              periodFilename (NewService c) job target a
              = periodFilename (NewService c) job target b -> a = b).
    { intros a b H. rewrite !periodFilename_literal in H by done.
      unfold artifactName in H. destruct (date target) as [[y m] d].
      do 9 apply append_cancel_l in H. apply append_cancel_r in H. by apply itoa_inj. }
    destruct (downloadLoop_contents env (NewService c) job target Hinj
                count (Z.to_nat count) 0 [] w) as [_ Hc].
    apply Forall2_fmap, Forall2_same_length_lookup. split; [done|].
    intros k [f1 c1] [f2 c2] H1 H2. rewrite H1 in H2. injection H2 as <- <-. cbn [fst snd].
    apply list_elem_of_lookup_2, list_elem_of_omap in H1 as (i & Hi & Hfile).
    apply elem_of_seqZ in Hi. apply (Hc i); [lia|done].
Qed.

(** X13. A whole run that ends without error and had documents to save: its
    last request puts into the store, under the key made of the job's path
    and the name of the compressed file, the gzip stream of the answers of
    the searches of the windows that had documents, one after the other in
    window order. Afterwards the window files and the merged file are gone
    and the compressed file is on disk with that stream. *)
Theorem Backup_uploads_the_day env c now job w w' :
  let s := NewService c in
  let merged := mergedFilename s (BackupJob.IndexName job) (AddDate now 0 0 (-1)) in
  let gz := (merged ++ ".gz")%string in
  let saved := windowFiles env s now job in
  let body := gzipBytes env (Base merged) (concat saved.*2) in
  noSlash (BackupJob.IndexName job) = true ->
  saved <> [] ->
  Backup env s now job w = (Returned None, w') ->
  (exists l, trace w'
             = trace w ++ l ++ [EvPutObject (Storage.bucket c)
                                  (Join [BackupJob.S3Path job; Base gz]) body
                                  (Z.of_nat (length body)) "application/gzip"])
  /\ fs w' !! gz = Some body
  /\ fs w' !! merged = None
  /\ (forall f, f ∈ saved.*1 -> fs w' !! f = None).
Proof.
  intros s merged gz saved body Hidx Hne Hrun.
  assert (HI : BackupJob.IntervalHours job <> 0).
  { intros E. unfold Backup in Hrun. rewrite E in Hrun. discriminate Hrun. }
  rewrite Backup_unfold in Hrun by done.
  pose proof (collected_contents env c now job w Hidx) as [Hfiles Hall].
  pose proof (merged_not_collected env c now job w Hidx) as Hm.
  pose proof (compressed_not_collected env c now job w Hidx) as Hgz.
  destruct (emits_downloadLoop env s job (AddDate now 0 0 (-1))
              (24 ÷ BackupJob.IntervalHours job)
              (Z.to_nat (24 ÷ BackupJob.IntervalHours job)) 0 [] w) as (l1 & Htr1 & _).
  fold (collected env s now job w) in Htr1. fold s in Hfiles, Hall, Hm, Hgz.
  destruct (collected env s now job w) as [files w1]. cbn [fst snd] in *.
  destruct (deliver env s job (AddDate now 0 0 (-1)) files w1) as [err w2] eqn:Ed.
  injection Hrun as -> ->. subst files.
  destruct (deliver_ok env s job (AddDate now 0 0 (-1)) saved.*1 saved.*2 w1 w')
    as ((l & Htr) & Hfs); try done.
  { intros E. apply fmap_nil_inv in E. done. }
  fold merged gz body in Htr, Hfs.
  split; [exists (l1 ++ l)%list; rewrite Htr, Htr1, <- !app_assoc; done|].
  split; [|split].
  - rewrite Hfs, bool_decide_eq_false_2, bool_decide_eq_true_2; [done..|].
    intros H. apply elem_of_cons in H as [H|H]; [|done].
    by apply (append_longer merged ".gz").
  - rewrite Hfs, bool_decide_eq_true_2; [done|by left].
  - intros f Hf. rewrite Hfs, bool_decide_eq_true_2; [done|by right].
Qed.

Lemma Backup_uploads_the_day_witness :
  fs (snd (Backup Example.busyIndex (NewService Example.client) Example.morning
             Example.logsJob Example.emptyDisk))
    !! (mergedFilename (NewService Example.client) "logs"
          (AddDate Example.morning 0 0 (-1)) ++ ".gz")%string
  = Some (gzipBytes Example.busyIndex
            (Base (mergedFilename (NewService Example.client) "logs"
                     (AddDate Example.morning 0 0 (-1))))
            (concat (windowFiles Example.busyIndex (NewService Example.client)
                       Example.morning Example.logsJob).*2)).
Proof.
  refine (proj1 (proj2 (Backup_uploads_the_day Example.busyIndex Example.client
            Example.morning Example.logsJob Example.emptyDisk _ _ _ _))).
  - reflexivity.
  - vm_compute. discriminate.
  - vm_compute. reflexivity.
Defined.

End DayFacts.

(** ** Registration, entering and leaving a job *)

Module RegistrationFacts.
Import Scheduler SchedulerFacts.

Lemma registerAll_cleanup parses jobs : forall r,
  match registerAll (registerCleanup parses) r jobs with
  | Some r' =>
      Forall (fun j => parses (CleanupJob.Schedule j) = true) jobs
      /\ map hJob (handlers r') = map hJob (handlers r) ++ map CleanupOf jobs
  | None => Exists (fun j => parses (CleanupJob.Schedule j) = false) jobs
  end.
Proof.
  induction jobs as [|j jobs IH]; intros r; cbn [registerAll].
  - split; [constructor|]. by rewrite app_nil_r.
  - destruct (registerCleanup parses r j) as [r1|] eqn:E.
    + unfold registerCleanup in E.
      destruct (parses (CleanupJob.Schedule j)) eqn:Hp; [|discriminate]. injection E as <-.
      match goal with |- context [registerAll _ ?r1 jobs] => specialize (IH r1) end.
      destruct (registerAll _ _ jobs) as [r'|]; [|by right].
      destruct IH as [Hall Hjobs]. split; [by constructor|].
      rewrite Hjobs. cbn [handlers]. rewrite map_app, <- app_assoc. done.
    + unfold registerCleanup in E.
      destruct (parses (CleanupJob.Schedule j)) eqn:Hp; [discriminate|]. by left.
Qed.

Lemma registerAll_backup parses jobs : forall r,
  match registerAll (registerBackup parses) r jobs with
  | Some r' =>
      Forall (fun j => parses (BackupJob.Schedule j) = true) jobs
      /\ map hJob (handlers r') = map hJob (handlers r) ++ map BackupOf jobs
  | None => Exists (fun j => parses (BackupJob.Schedule j) = false) jobs
  end.
Proof.
  induction jobs as [|j jobs IH]; intros r; cbn [registerAll].
  - split; [constructor|]. by rewrite app_nil_r.
  - destruct (registerBackup parses r j) as [r1|] eqn:E.
    + unfold registerBackup in E.
      destruct (parses (BackupJob.Schedule j)) eqn:Hp; [|discriminate]. injection E as <-.
      match goal with |- context [registerAll _ ?r1 jobs] => specialize (IH r1) end.
      destruct (registerAll _ _ jobs) as [r'|]; [|by right].
      destruct IH as [Hall Hjobs]. split; [by constructor|].
      rewrite Hjobs. cbn [handlers]. rewrite map_app, <- app_assoc. done.
    + unfold registerBackup in E.
      destruct (parses (BackupJob.Schedule j)) eqn:Hp; [discriminate|]. by left.
Qed.

(** X14. What [main] has registered when the scheduler starts: one handler
    for each configured job, the cleanup jobs first and each kind in the
    order of the configuration, every handler with a mutex of its own that
    is not locked. The process ends before that exactly when the schedule of
    some job is rejected. *)
Theorem registration_result parses cleanupJobs backupJobs :
  match setup parses cleanupJobs backupJobs with
  | Some r =>
      Forall (fun j => parses (CleanupJob.Schedule j) = true) cleanupJobs
      /\ Forall (fun j => parses (BackupJob.Schedule j) = true) backupJobs
      /\ map hJob (handlers r) = map CleanupOf cleanupJobs ++ map BackupOf backupJobs
      /\ wellFormed r
  | None =>
      Exists (fun j => parses (CleanupJob.Schedule j) = false) cleanupJobs
      \/ Exists (fun j => parses (BackupJob.Schedule j) = false) backupJobs
  end.
Proof.
  pose proof (setup_wellFormed parses cleanupJobs backupJobs) as Hwf.
  unfold setup in *.
  pose proof (registerAll_cleanup parses cleanupJobs emptyRegistry) as Hc.
  destruct (registerAll (registerCleanup parses) emptyRegistry cleanupJobs) as [r1|];
    [|by left].
  pose proof (registerAll_backup parses backupJobs r1) as Hb.
  destruct (registerAll (registerBackup parses) r1 backupJobs) as [r|]; [|by right].
  destruct Hc as [Hc1 Hc2], Hb as [Hb1 Hb2].
  split; [done|]. split; [done|]. split; [|by apply Hwf].
  by rewrite Hb2, Hc2.
Qed.

Section Running.
Variables (env : Env) (svc : Backup.Service) (parses : string -> bool).
Variables (cleanupJobs : list CleanupJob.t) (backupJobs : list BackupJob.t).
Variables (r : registry) (w0 : World) (st : state).
Hypothesis Hsetup : setup parses cleanupJobs backupJobs = Some r.
Hypothesis Hreach : reachable env svc r w0 st.

Lemma own_mutex (g h : nat) (p : pc) :
  goroutines st !! g = Some (mkGoroutine h p) ->
  exists j (b : bool), handlers r !! h = Some (mkHandler j (Some h)) /\ locks st !! h = Some b
              /\ length (inJob h st) = if b then 1%nat else 0%nat.
Proof.
  intros Hg.
  pose proof (setup_wellFormed _ _ _ _ Hsetup) as Hwf.
  pose proof (lockInvariant_reachable env svc r Hwf w0 st Hreach) as (Hlen & Hcount & Hreg).
  destruct (Hreg g _ Hg) as [[j m] Hh]. cbn [gHandler] in Hh.
  destruct Hwf as (_ & _ & Hm). pose proof (Hm h _ Hh) as Hmh. cbn in Hmh. subst m.
  assert (Hlt : h < length (locks st)) by (rewrite Hlen; by eapply lookup_lt_Some).
  destruct (lookup_lt_is_Some_2 _ _ Hlt) as [b Hb].
  exists j, b. split; [done|]. split; [done|]. by apply Hcount.
Qed.

End Running.

(** X15. A firing that reaches [TryLock] while no run of its own job is
    under way takes the mutex and goes on into the job, whatever the other
    jobs are doing; nothing is logged, and no other goroutine is touched. *)
Theorem firing_enters_free_job env svc parses cleanupJobs backupJobs r w0 st (g h : nat) :
  setup parses cleanupJobs backupJobs = Some r ->
  reachable env svc r w0 st ->
  crashed st = false ->
  goroutines st !! g = Some (mkGoroutine h AtTryLock) ->
  inJob h st = [] ->
  exists st',
    step env svc (handlers r) (Try g) st = Some st'
    /\ goroutines st' !! g = Some (mkGoroutine h InJob)
    /\ locks st' = <[h := true]> (locks st)
    /\ world st' = world st
    /\ warnings st' = warnings st
    /\ (forall g', g' <> g -> goroutines st' !! g' = goroutines st !! g').
Proof.
  intros Hsetup Hreach Hlive Hg Hfree.
  destruct (own_mutex env svc parses cleanupJobs backupJobs r w0 st Hsetup Hreach g h _ Hg)
    as (j & b & Hh & Hb & Hc).
  rewrite Hfree in Hc. destruct b; [discriminate|].
  eexists. split; [unfold step; rewrite Hlive, Hg, Hh, Hb; reflexivity|].
  cbn [locks world warnings goroutines].
  pose proof (setPc_lookup g InJob st h AtTryLock) as Hset.
  split; [rewrite (Hset g Hg); by rewrite decide_True|].
  split; [done|]. split; [done|]. split; [done|].
  intros g' Hne. rewrite (Hset g' Hg). by rewrite decide_False.
Qed.

Lemma firing_enters_free_job_witness :
  exists st',
    step Example.busyIndex Example.service (handlers Example.twoJobs) (Try 1)
      {| locks := [true; false];
         goroutines := [mkGoroutine 0 InJob; mkGoroutine 1 AtTryLock];
         world := Example.emptyDisk; warnings := []; crashed := false |} = Some st'
    /\ goroutines st' !! 1%nat = Some (mkGoroutine 1 InJob).
Proof.
  destruct (firing_enters_free_job Example.busyIndex Example.service (fun _ => true)
              [Example.purgeJob] [Example.logsJob] Example.twoJobs Example.emptyDisk
              {| locks := [true; false];
                 goroutines := [mkGoroutine 0 InJob; mkGoroutine 1 AtTryLock];
                 world := Example.emptyDisk; warnings := []; crashed := false |}
              1%nat 1%nat) as (st' & Hstep & Hg & _).
  - vm_compute. reflexivity.
  - apply (reach_step _ _ _ _
             {| locks := [true; false]; goroutines := [mkGoroutine 0 InJob];
                world := Example.emptyDisk; warnings := []; crashed := false |}
             (Fire 1)); [|vm_compute; reflexivity].
    apply (reach_step _ _ _ _
             {| locks := [false; false]; goroutines := [mkGoroutine 0 AtTryLock];
                world := Example.emptyDisk; warnings := []; crashed := false |}
             (Try 0)); [|vm_compute; reflexivity].
    apply (reach_step _ _ _ _ (initial Example.twoJobs Example.emptyDisk) (Fire 0));
      [apply reach_initial|vm_compute; reflexivity].
  - reflexivity.
  - reflexivity.
  - reflexivity.
  - exists st'. by split.
Defined.

(** X16. When a job comes to its end, with an error or without, its
    goroutine unlocks the mutex it held: no run of that job is under way any
    more, the world is the one the job left, and nothing else has changed. *)
Theorem job_end_unlocks env svc parses cleanupJobs backupJobs r w0 st (g h : nat) now :
  setup parses cleanupJobs backupJobs = Some r ->
  reachable env svc r w0 st ->
  crashed st = false ->
  goroutines st !! g = Some (mkGoroutine h InJob) ->
  exists j st',
    handlers r !! h = Some (mkHandler j (Some h))
    /\ step env svc (handlers r) (Complete g now) st = Some st'
    /\ locks st = <[h := true]> (locks st)
    /\ locks st' = <[h := false]> (locks st)
    /\ world st' = snd (runJob env svc now j (world st))
    /\ warnings st' = warnings st
    /\ goroutines st' !! g = Some (mkGoroutine h Finished)
    /\ inJob h st' = [].
Proof.
  intros Hsetup Hreach Hlive Hg.
  destruct (own_mutex env svc parses cleanupJobs backupJobs r w0 st Hsetup Hreach g h _ Hg)
    as (j & b & Hh & Hb & Hc).
  assert (b = true) as ->.
  { destruct b; [done|]. unfold inJob in Hc.
    assert (Hin : mkGoroutine h InJob
                  ∈ filter (fun x => x = mkGoroutine h InJob) (goroutines st)).
    { apply list_elem_of_filter. split; [done|]. by eapply list_elem_of_lookup_2. }
    destruct (filter _ _); [by apply elem_of_nil in Hin|discriminate]. }
  exists j.
  destruct (runJob env svc now j (world st)) as [panicked w'] eqn:Hrun.
  eexists. split; [done|].
  split; [unfold step; rewrite Hlive, Hg, Hh, Hrun; reflexivity|].
  cbn [locks world warnings goroutines snd].
  split; [by rewrite list_insert_id|].
  split; [done|]. split; [done|]. split; [done|].
  pose proof (setPc_lookup g Finished st h InJob) as Hset.
  split; [rewrite (Hset g Hg); by rewrite decide_True|].
  pose proof (inJob_setPc h g Finished st h InJob Hg) as Hn.
  rewrite decide_True, decide_False, Hc in Hn by done.
  unfold inJob. cbn [goroutines].
  destruct (filter _ (setPc g Finished st)); [done|cbn in Hn; lia].
Qed.

Lemma job_end_unlocks_witness :
  exists st',
    step Example.deadStore Example.service (handlers Example.twoJobs)
      (Complete 0 Example.morning)
      {| locks := [true; false]; goroutines := [mkGoroutine 0 InJob];
         world := Example.emptyDisk; warnings := []; crashed := false |} = Some st'
    /\ locks st' = [false; false].
Proof.
  destruct (job_end_unlocks Example.deadStore Example.service (fun _ => true)
              [Example.purgeJob] [Example.logsJob] Example.twoJobs Example.emptyDisk
              {| locks := [true; false]; goroutines := [mkGoroutine 0 InJob];
                 world := Example.emptyDisk; warnings := []; crashed := false |}
              0%nat 0%nat Example.morning) as (j & st' & _ & Hstep & _ & Hl & _).
  - vm_compute. reflexivity.
  - apply (reach_step _ _ _ _
             {| locks := [false; false]; goroutines := [mkGoroutine 0 AtTryLock];
                world := Example.emptyDisk; warnings := []; crashed := false |}
             (Try 0)); [|vm_compute; reflexivity].
    apply (reach_step _ _ _ _ (initial Example.twoJobs Example.emptyDisk) (Fire 0));
      [apply reach_initial|vm_compute; reflexivity].
  - reflexivity.
  - reflexivity.
  - exists st'. split; [exact Hstep|exact Hl].
Defined.

End RegistrationFacts.

(** ** Loading the configuration *)

Module ConfigFacts.
Import Config.

Lemma Getenv_empty environ key k :
  Getenv (<[key := ""%string]> environ) k = Getenv (delete key environ) k.
Proof.
  unfold Getenv. destruct (decide (k = key)) as [->|Hne].
  - by rewrite lookup_insert_eq, lookup_delete_eq.
  - by rewrite lookup_insert_ne, lookup_delete_ne.
Qed.

(** X17. Loading the configuration changes nothing; a variable set to the
    empty text counts as a variable that is not set; and whatever the
    environment holds, the jobs and the [use_ssl] flag are those of the
    file, and the addresses are those of the file or, when
    [OPENSEARCH_ADDRESSES] is not empty, that one value as the only address. *)
Theorem LoadConfig_environment unmarshal environ env w :
  snd (LoadConfig unmarshal environ env w) = w
  /\ (forall key,
        LoadConfig unmarshal (<[key := ""%string]> environ) env w
        = LoadConfig unmarshal (delete key environ) env w)
  /\ (forall cfg,
        fst (LoadConfig unmarshal environ env w) = Ok cfg ->
        exists bytes file,
          fs w !! getEnv environ "CONFIG_PATH" "/app/config/config.yaml" = Some bytes
          /\ unmarshal bytes = Ok file
          /\ CleanupJobs cfg = CleanupJobs file
          /\ BackupJobs cfg = BackupJobs file
          /\ UseSSL (S3 cfg) = UseSSL (S3 file)
          /\ Addresses (OpenSearch cfg)
             = if String.eqb (Getenv environ "OPENSEARCH_ADDRESSES") ""
               then Addresses (OpenSearch file)
               else [Getenv environ "OPENSEARCH_ADDRESSES"]).
Proof.
  split; [|split].
  - unfold LoadConfig, bind, readFile.
    destruct (ioFault env (OpOpen _)); [reflexivity|].
    destruct (fs w !! _) as [bytes|]; [|reflexivity].
    by destruct (unmarshal bytes).
  - intros key. unfold LoadConfig, getEnv. by rewrite !Getenv_empty.
  - intros cfg. unfold LoadConfig, bind, readFile.
    destruct (ioFault env (OpOpen _)); [discriminate|].
    destruct (fs w !! _) as [bytes|]; [|discriminate].
    destruct (unmarshal bytes) as [file|e] eqn:Hfile; [|discriminate].
    cbn [fst ret]. intros [= <-]. exists bytes, file. by cbn.
Qed.

End ConfigFacts.

(** ** The bounds of a window as the requests carry them *)

Module FormatFacts.
Import Observe Calendar CalendarFacts StrFacts Backup PlannerFacts GoFormat.
Local Open Scope Z_scope.

(** Day and time of day of an instant in UTC. *)
Lemma utc_fields t dn x :
  zoneOffset t = 0 -> unixNano t = dn * nanosPerDay + x -> 0 <= x < nanosPerDay ->
  dayNumber t = dn /\ nanoOfDay t = x.
Proof.
  intros Hz Hn Hx. unfold dayNumber, nanoOfDay, localNano. rewrite Hz, Hn.
  unfold nanosPerDay, secondsPerDay, Second in *. split; divlia.
Qed.

Lemma formatRFC3339_fields t1 t2 :
  dayNumber t1 = dayNumber t2 -> zoneOffset t1 = 0 ->
  formatRFC3339 t1
  = (appendInt (Year t2) 4 ++ "-" ++ appendInt (Month t2) 2 ++ "-" ++ appendInt (Day t2) 2
     ++ "T" ++ appendInt (Hour t1) 2 ++ ":" ++ appendInt (Minute t1) 2 ++ ":"
     ++ appendInt (Sec t1) 2 ++ "Z")%string.
Proof.
  intros Hd Hz. unfold formatRFC3339, Year, Month, Day, date. by rewrite Hd, Hz.
Qed.

(** X18. The bounds of a window as the count and the search request carry
    them are written to the second: the start as the hour sharp, the end as
    the last second before the end hour, or before midnight for an end hour
    of 24 or more, both on the target date and with the zone [Z]. The 999
    milliseconds of the end bound are not in the text. *)
Theorem window_bounds_in_requests t startHour endHour :
  0 <= startHour <= 23 -> 1 <= endHour ->
  let day := (appendInt (Year t) 4 ++ "-" ++ appendInt (Month t) 2 ++ "-"
              ++ appendInt (Day t) 2)%string in
  rangeTexts (fst (windowBounds t startHour endHour)) (snd (windowBounds t startHour endHour))
  = ((day ++ "T" ++ appendInt startHour 2 ++ ":00:00Z")%string,
     (day ++ "T" ++ appendInt (Z.min endHour 24 - 1) 2 ++ ":59:59Z")%string).
Proof.
  intros Hs He day. unfold rangeTexts. f_equal.
  - pose proof (windowBounds_start t startHour endHour) as Hn.
    destruct (utc_fields (fst (windowBounds t startHour endHour)) (dayNumber t)
                (startHour * 3600 * Second)) as [Hd Hx].
    + reflexivity.
    + rewrite Hn. unfold dayStart. lia.
    + unfold nanosPerDay, secondsPerDay, Second. lia.
    + rewrite (formatRFC3339_fields _ t Hd eq_refl).
      unfold Hour, Minute, Sec. rewrite Hx.
      replace (startHour * 3600 * Second / (3600 * Second)) with startHour
        by (unfold Second; divlia).
      replace (startHour * 3600 * Second mod (3600 * Second) / (60 * Second)) with 0
        by (unfold Second; divlia).
      replace (startHour * 3600 * Second mod (60 * Second) / Second) with 0
        by (unfold Second; divlia).
      unfold day. rewrite !append_assoc. reflexivity.
  - pose proof (windowBounds_end t startHour endHour) as Hn.
    set (e := Z.min endHour 24).
    destruct (utc_fields (snd (windowBounds t startHour endHour)) (dayNumber t)
                (e * 3600 * Second - Millisecond)) as [Hd Hx].
    + unfold windowBounds. cbv zeta. cbn [snd]. by destruct (endHour >=? 24).
    + rewrite Hn. unfold msOfDay, dayStart, e, Second, Millisecond.
      destruct (Z.geb_spec endHour 24); lia.
    + unfold nanosPerDay, secondsPerDay, Second, Millisecond, e. lia.
    + rewrite (formatRFC3339_fields _ t Hd).
      2:{ unfold windowBounds. cbv zeta. cbn [snd]. by destruct (endHour >=? 24). }
      unfold Hour, Minute, Sec. rewrite Hx.
      assert (He' : 1 <= e <= 24) by (unfold e; lia).
      replace ((e * 3600 * Second - Millisecond) / (3600 * Second)) with (e - 1)
        by (unfold Second, Millisecond; divlia).
      replace ((e * 3600 * Second - Millisecond) mod (3600 * Second) / (60 * Second)) with 59
        by (unfold Second, Millisecond; divlia).
      replace ((e * 3600 * Second - Millisecond) mod (60 * Second) / Second) with 59
        by (unfold Second, Millisecond; divlia).
      unfold day. rewrite !append_assoc. reflexivity.
Qed.

Lemma window_bounds_in_requests_witness :
  rangeTexts (fst (windowBounds Example.yesterday 4 6)) (snd (windowBounds Example.yesterday 4 6))
  = ("2024-02-29T04:00:00Z", "2024-02-29T05:59:59Z")%string.
Proof.
  rewrite (window_bounds_in_requests Example.yesterday 4 6); [|lia|lia].
  vm_compute. reflexivity.
Defined.

End FormatFacts.

(** ** The files a run leaves alone *)

Module FrameFacts.
Import Observe TraceFacts StrFacts Backup PlannerFacts WindowFacts NameFacts CleanupOfFiles
       Requests.
Local Open Scope Z_scope.

Lemma downloadPeriod_frame env s job date sh eh num w f :
  f <> periodFilename s job date num ->
  fs (snd (downloadPeriod env s job date sh eh num w)) !! f = fs w !! f.
Proof.
  intros Hf. unfold downloadPeriod.
  destruct (windowBounds date sh eh) as [st en].
  unfold bind at 1, getCount, bind at 1, emit, ret at 1. cbn [fst snd].
  destruct (indicesCount env _ st en) as [count|e]; [|reflexivity].
  destruct (count =? 0); [reflexivity|].
  unfold bind at 1, searchAndSave, bind at 1, emit. cbn [fst snd].
  destruct (search env _ st en count) as [resp|e]; [|reflexivity].
  unfold bind at 1, osCreate.
  destruct (ioFault env (OpCreate _)); [reflexivity|].
  unfold bind at 1, setFile, ret at 1. cbn [fst snd].
  unfold bind at 1, appendFile.
  destruct (ioFault env (OpWrite _)); cbn [fst snd fs ret].
  - by rewrite lookup_insert_ne.
  - by rewrite !lookup_insert_ne.
Qed.

Lemma downloadLoop_frame env s job date count n f :
  (forall k, f <> periodFilename s job date k) ->
  forall i files w,
  fs (snd (downloadLoop env s job date count n i files w)) !! f = fs w !! f.
Proof.
  intros Hf. induction n as [|n IH]; intros i files w; [reflexivity|].
  cbn [downloadLoop]. unfold bind at 1.
  pose proof (downloadPeriod_frame env s job date
                (i * BackupJob.IntervalHours job)
                (i * BackupJob.IntervalHours job + BackupJob.IntervalHours job)
                (i + 1) w f (Hf _)) as Hp.
  destruct (downloadPeriod _ _ _ _ _ _ _ w) as [r w1]. cbn [snd] in Hp.
  destruct r as [filename|e]; [|by rewrite IH].
  unfold bind.
  destruct ((i <? count - 1) && (BackupJob.RequestInterval job >? 0)).
  - unfold emit. by rewrite IH.
  - unfold ret. by rewrite IH.
Qed.

Lemma mergeLoop_frame env merged files f : forall total w,
  f <> merged ->
  fs (snd (mergeLoop env merged files total w)) !! f = fs w !! f.
Proof.
  induction files as [|x files IH]; intros total w Hf; [reflexivity|].
  cbn [mergeLoop]. unfold bind at 1, readFile.
  destruct (ioFault env (OpOpen x)); [reflexivity|].
  destruct (fs w !! x) as [content|]; [|reflexivity].
  destruct (decodeHits env content) as [hits|e]; [|reflexivity].
  unfold bind at 1, appendFile.
  destruct (ioFault env (OpWrite merged)); [reflexivity|].
  rewrite IH by done. cbn [fs]. by rewrite lookup_insert_ne.
Qed.

Lemma mergeFiles_frame env s files index date w f :
  f <> mergedFilename s index date ->
  fs (snd (mergeFiles env s files index date w)) !! f = fs w !! f.
Proof.
  intros Hf. unfold mergeFiles, bind at 1, osCreate.
  destruct (ioFault env (OpCreate _)); [reflexivity|].
  unfold bind at 1, setFile, ret at 1. cbn [fst snd]. unfold bind.
  pose proof (mergeLoop_frame env (mergedFilename s index date) files f 0
                {| fs := <[mergedFilename s index date := []]> (fs w); trace := trace w |} Hf)
    as Hl.
  destruct (mergeLoop _ _ _ _ _) as [[total|e] w1]; cbn [snd fs ret] in Hl |- *;
    by rewrite Hl, lookup_insert_ne.
Qed.

Lemma compressFile_frame env filename w f :
  f <> (filename ++ ".gz")%string ->
  fs (snd (compressFile env filename w)) !! f = fs w !! f.
Proof.
  intros Hf. unfold compressFile, bind at 1, readFile.
  destruct (ioFault env (OpOpen filename)); [reflexivity|].
  destruct (fs w !! filename) as [content|]; [|reflexivity].
  unfold bind at 1, osCreate.
  destruct (ioFault env (OpCreate _)); [reflexivity|].
  unfold bind at 1, setFile, ret at 1. cbn [fst snd].
  unfold bind at 1, appendFile.
  destruct (ioFault env (OpWrite _)); cbn [fst snd fs ret].
  - by rewrite lookup_insert_ne.
  - destruct (ioFault env (OpClose _)); cbn [snd fs ret]; by rewrite !lookup_insert_ne.
Qed.

Lemma uploadAttempts_fs env c filePath key size ct n : forall attempt lastErr w,
  fs (snd (Storage.uploadAttempts env c filePath key size ct n attempt lastErr w)) = fs w.
Proof.
  induction n as [|n IH]; intros attempt lastErr w; [reflexivity|].
  cbn [Storage.uploadAttempts]. unfold bind at 1, readFile.
  destruct (ioFault env (OpOpen filePath)); [reflexivity|].
  destruct (fs w !! filePath); [|reflexivity].
  unfold bind at 1, emit.
  destruct (putObject env attempt _ key); [|reflexivity].
  unfold bind. destruct (attempt <? Storage.maxRetries); cbn [emit ret fst snd];
    by rewrite IH.
Qed.

Lemma Upload_fs env c filePath key documentCount w :
  fs (snd (Storage.Upload env c filePath key documentCount w)) = fs w.
Proof.
  unfold Storage.Upload, bind, statSize.
  destruct (ioFault env (OpStat filePath)); [reflexivity|].
  destruct (fs w !! filePath); [|reflexivity].
  apply uploadAttempts_fs.
Qed.

Lemma deliver_frame env s job date files w f :
  f ∉ files ->
  f <> mergedFilename s (BackupJob.IndexName job) date ->
  f <> (mergedFilename s (BackupJob.IndexName job) date ++ ".gz")%string ->
  fs (snd (deliver env s job date files w)) !! f = fs w !! f.
Proof.
  intros Hfiles Hm Hgz. unfold deliver.
  destruct (length files =? 0)%nat; [reflexivity|].
  unfold bind at 1.
  pose proof (mergeFiles_frame env s files (BackupJob.IndexName job) date w f Hm) as H1.
  pose proof (RunFacts.mergeFiles_name env s files (BackupJob.IndexName job) date w) as Hn.
  destruct (mergeFiles env s files _ date w) as [[[m total]|e] w1]; cbn [fst snd] in H1, Hn;
    [|exact H1].
  specialize (Hn m total eq_refl). subst m.
  unfold bind at 1.
  pose proof (compressFile_frame env _ w1 f Hgz) as H2.
  pose proof (RunFacts.compressFile_name env (mergedFilename s (BackupJob.IndexName job) date) w1)
    as Hc.
  destruct (compressFile env _ w1) as [[c|e] w2]; cbn [fst snd] in H2, Hc;
    [|cbn [snd ret]; by rewrite H2].
  specialize (Hc c eq_refl). subst c.
  unfold bind at 1.
  match goal with |- context [Storage.Upload ?a ?b ?c ?d ?n w2] =>
    pose proof (Upload_fs a b c d n w2) as H3;
    destruct (Storage.Upload a b c d n w2) as [[e'|] w3] end; cbn [snd] in H3.
  { cbn [snd ret]. by rewrite H3, H2. }
  unfold bind, ret.
  match goal with |- context [cleanup ?a ?b ?c w3] =>
    pose proof (cleanup_lookup a b c f w3) as H4;
    destruct (cleanup a b c w3) as [[] w4] end.
  cbn [snd] in H4 |- *. rewrite H4, bool_decide_eq_false_2, H3, H2, H1; [done|].
  intros H. apply elem_of_cons in H as [H|H]; done.
Qed.

(** X19. Whatever the index, the store and the file system answer, a run
    changes and removes no file but its own: the files named after its
    windows, the merged file and the compressed file. Every other file on
    disk is after the run what it was before. *)
Theorem Backup_leaves_other_files env s now job w f :
  let target := AddDate now 0 0 (-1) in
  let merged := mergedFilename s (BackupJob.IndexName job) target in
  (forall k, f <> periodFilename s job target k) ->
  f <> merged -> f <> (merged ++ ".gz")%string ->
  fs (snd (Backup env s now job w)) !! f = fs w !! f.
Proof.
  intros target merged Hw Hm Hgz. unfold Backup.
  destruct (BackupJob.IntervalHours job =? 0); [reflexivity|].
  fold target. unfold bind at 1.
  pose proof (downloadLoop_frame env s job target (24 ÷ BackupJob.IntervalHours job)
                (Z.to_nat (24 ÷ BackupJob.IntervalHours job)) f Hw 0 [] w) as H1.
  pose proof (downloadLoop_files env s job target (24 ÷ BackupJob.IntervalHours job)
                (Z.to_nat (24 ÷ BackupJob.IntervalHours job)) 0 [] w) as Hfiles.
  destruct (downloadLoop _ _ _ _ _ _ _ _ w) as [files w1]. cbn [fst snd app] in H1, Hfiles.
  assert (Hnot : f ∉ files).
  { intros Hin. rewrite Hfiles in Hin. apply survivors_elem in Hin as [Hin Hne].
    apply list_elem_of_In, in_map_iff in Hin as (i & Ho & _).
    apply windowOutcome_name in Ho; [|done]. by apply (Hw (i + 1)). }
  unfold bind, ret.
  pose proof (deliver_frame env s job target files w1 f Hnot Hm Hgz) as H2.
  destruct (deliver env s job target files w1) as [err w2]. cbn [snd] in H2 |- *.
  by rewrite H2, H1.
Qed.

Lemma Backup_leaves_other_files_witness :
  fs (snd (Backup Example.busyIndex Example.service Example.morning Example.logsJob
             {| fs := {[ "/etc/hosts"%string := [x61] ]}; trace := [] |}))
    !! "/etc/hosts"%string
  = fs {| fs := {[ "/etc/hosts"%string := [x61] ]}; trace := [] |} !! "/etc/hosts"%string.
Proof.
  apply (Backup_leaves_other_files Example.busyIndex Example.service Example.morning
           Example.logsJob {| fs := {[ "/etc/hosts"%string := [x61] ]}; trace := [] |}
           "/etc/hosts"%string).
  - intros k H. unfold Example.service in H.
    rewrite (periodFilename_literal Example.client Example.logsJob _ k eq_refl) in H.
    unfold artifactName in H. destruct (date _) as [[y m] d].
    apply (f_equal (String.get 1)) in H. vm_compute in H. discriminate H.
  - intros H. unfold Example.service in H.
    rewrite (mergedFilename_literal Example.client "logs" _ eq_refl) in H.
    destruct (date _) as [[y m] d].
    apply (f_equal (String.get 1)) in H. vm_compute in H. discriminate H.
  - intros H. unfold Example.service in H.
    rewrite (mergedFilename_literal Example.client "logs" _ eq_refl) in H.
    destruct (date _) as [[y m] d].
    apply (f_equal (String.get 1)) in H. vm_compute in H. discriminate H.
Defined.

End FrameFacts.
